(** * odutil: annotation parsing, label generation and folder checks

    A shallow embedding of [odutil/analysis.py] and of the older
    [parser.py], with the properties their specification states.

    Python values are modelled as the code uses them: [int] as [Z],
    [str] as the [string] of its UTF-8 bytes (the code searches for and
    strips the ASCII characters '/', '.' and newline, which never occur
    inside the encoding of another character; [float] decodes the bytes),
    [dict] as stdpp's [gmap], [set] as [gset], and a raised exception as
    [Raise e] in the type [result]. Paths are POSIX paths. *)

From Stdlib Require Import ZArith QArith Qabs Qpower Lia Lqa String Ascii List Bool.
From Stdlib Require Import DecimalString DecimalPos.
From stdpp Require Import base option list gmap strings.

#[local] Set Warnings "-clear-no-such-hyp".

Open Scope string_scope.
Open Scope list_scope.
Open Scope Z_scope.

(** ** Exceptions and the error monad *)

Inductive exn : Set :=
  | FileNotFoundError
  | OSError
  | ParseError
  | AttributeError
  | TypeError
  | ValueError
  | OverflowError
  | KeyError
  | ZeroDivisionError.

Inductive result (A : Type) : Type :=
  | Ok (a : A)
  | Raise (e : exn).
Arguments Ok {A} a.
Arguments Raise {A} e.

Global Instance result_ret : MRet result := fun A a => Ok a.
Global Instance result_bind : MBind result := fun A B k r =>
  match r with
  | Ok a => k a
  | Raise e => Raise e
  end.

Global Instance result_fmap : FMap result := fun A B f r =>
  match r with
  | Ok a => Ok (f a)
  | Raise e => Raise e
  end.

(** [for x in l: st = body(st, x)], stopping at the first exception. *)
Fixpoint for_each {A S} (body : S → A → result S) (l : list A) (st : S)
  : result S :=
  match l with
  | [] => Ok st
  | x :: l' => st' ← body st x; for_each body l' st'
  end.

Definition is_ok {A} (r : result A) : bool :=
  match r with Ok _ => true | Raise _ => false end.

(** ** Strings and [os.path] *)

Definition chars (s : string) : list ascii := list_ascii_of_string s.
Definition str_of (l : list ascii) : string := string_of_list_ascii l.

Definition slash : ascii := "/"%char.
Definition dot : ascii := "."%char.
Definition newline : ascii := "010"%char.
Definition nl : string := String newline "".

(** [s.rfind(c)] for a one-character [c] over the characters from
    position [i] on: the highest index, or -1. *)
Fixpoint rfind_from (c : ascii) (l : list ascii) (i : Z) : Z :=
  match l with
  | [] => -1
  | x :: l' =>
      let r := rfind_from c l' (i + 1) in
      if 0 <=? r then r else if Ascii.eqb x c then i else -1
  end.

Definition rfind (c : ascii) (s : string) : Z := rfind_from c (chars s) 0.

(** [s[:i]] and [s[i:]] for [0 <= i]. *)
Definition slice_to (s : string) (i : Z) : string :=
  str_of (take (Z.to_nat i) (chars s)).
Definition slice_from (s : string) (i : Z) : string :=
  str_of (drop (Z.to_nat i) (chars s)).
(** [s[i:j]] for [0 <= i]. *)
Definition slice (s : string) (i j : Z) : list ascii :=
  take (Z.to_nat (j - i)) (drop (Z.to_nat i) (chars s)).

(** [posixpath.basename]. *)
Definition basename (p : string) : string :=
  slice_from p (rfind slash p + 1).

(** [posixpath.splitext]: the extension starts at the last dot of the
    last path component, unless that component has only dots before it. *)
Definition splitext (p : string) : string * string :=
  let sepIndex := rfind slash p in
  let dotIndex := rfind dot p in
  if (sepIndex <? dotIndex)
     && existsb (fun c => negb (Ascii.eqb c dot)) (slice p (sepIndex + 1) dotIndex)
  then (slice_to p dotIndex, slice_from p dotIndex)
  else (p, "").

Definition startswith (c : ascii) (s : string) : bool :=
  match s with
  | String x _ => Ascii.eqb x c
  | EmptyString => false
  end.

Definition endswith (c : ascii) (s : string) : bool :=
  match last (chars s) with
  | Some x => Ascii.eqb x c
  | None => false
  end.

(** [posixpath.join] of two components. *)
Definition path_join (a b : string) : string :=
  if startswith slash b then b
  else if String.eqb a "" || endswith slash a then a +:+ b
  else a +:+ "/" +:+ b.

(** [s.strip('\n')]: newlines are removed from both ends. *)
Fixpoint lstrip_newlines (l : list ascii) : list ascii :=
  match l with
  | c :: l' => if Ascii.eqb c newline then lstrip_newlines l' else l
  | [] => []
  end.

Definition strip_newlines (s : string) : string :=
  str_of (rev (lstrip_newlines (rev (lstrip_newlines (chars s))))).

(** ** Python numbers

    A [float] is an IEEE binary64 value: [Finite s m e] is
    [(-1)^s * m * 2^e] with [m < 2^53] and [-1074 <= e <= 971], the
    exponent being the least one that fits [m] in 53 bits. *)

Inductive float : Set :=
  | Finite (neg : bool) (m e : Z)
  | Inf (neg : bool)
  | NaN.

Definition pow2 (e : Z) : Q := (inject_Z 2 ^ e)%Q.

Definition F2Q (f : float) : Q :=
  match f with
  | Finite neg m e => inject_Z (if neg then - m else m) * pow2 e
  | _ => 0
  end%Q.

Definition is_finite (f : float) : bool :=
  match f with Finite _ _ _ => true | _ => false end.

(** [floor (log2 (n / d))] for positive [n] and [d]. *)
Definition ilog2_frac (n d : Z) : Z :=
  let k := Z.log2 n - Z.log2 d in
  let below := if 0 <=? k then n <? d * 2 ^ k else n * 2 ^ (- k) <? d in
  if below then k - 1 else k.

(** The fraction [(n / d) / 2^e]. *)
Definition scale (n d e : Z) : Z * Z :=
  if 0 <=? e then (n, d * 2 ^ e) else (n * 2 ^ (- e), d).

(** The integer nearest to [n / d], ties to the even one. *)
Definition round_half_even (n d : Z) : Z :=
  let q := n / d in
  match 2 * (n mod d) ?= d with
  | Lt => q
  | Gt => q + 1
  | Eq => if Z.even q then q else q + 1
  end.

(** The exponent at which [n / d] is rounded: 53 significant bits, and
    no exponent below that of the subnormal numbers. *)
Definition round_exp (n d : Z) : Z := Z.max (ilog2_frac n d - 52) (-1074).

(** Rounding of the magnitude [n / d] (with [0 <= n] and [0 < d]) to 53
    bits: mantissa and exponent. *)
Definition round_mag (n d : Z) : Z * Z :=
  if n =? 0 then (0, -1074)
  else
    let e := round_exp n d in
    let '(n', d') := scale n d e in
    let m := round_half_even n' d' in
    if m =? 2 ^ 53 then (2 ^ 52, e + 1) else (m, e).

(** The binary64 number nearest to [(-1)^neg * n / d]; an infinity when
    that is beyond the largest finite one. *)
Definition float_of_frac (neg : bool) (n d : Z) : float :=
  let '(m, e) := round_mag n d in
  if 971 <? e then Inf neg else Finite neg m e.

(** [a / b] on two [int]s: the correctly rounded quotient. The sign of a
    zero result is that of the operands' signs. *)
Definition truediv (a b : Z) : result float :=
  if b =? 0 then Raise ZeroDivisionError
  else
    match float_of_frac (xorb (a <? 0) (b <? 0)) (Z.abs a) (Z.abs b) with
    | Finite neg m e => Ok (Finite neg m e)
    | _ => Raise OverflowError
    end.

(** [int(x)] on a [float]: truncation towards zero. *)
Definition int_of_float (f : float) : result Z :=
  match f with
  | Finite neg m e =>
      let t := if 0 <=? e then m * 2 ^ e else m / 2 ^ (- e) in
      Ok (if neg then - t else t)
  | Inf _ => Raise OverflowError
  | NaN => Raise ValueError
  end.

(** [str(n)] on an [int]. *)
Definition str_int (n : Z) : string := NilZero.string_of_int (Z.to_int n).

(** *** [float(text)]

    A text is held as the bytes of its UTF-8 encoding. [float] first
    brings it to ASCII: a text that is ASCII already is left as it is; in
    any other text a character below 127 is kept, a Unicode blank becomes a
    space and a Unicode decimal digit its ASCII digit, and at the first
    character of another kind the text is cut and ends in a question mark.
    The blanks and the decimal digits are those of Unicode 14.0, which
    CPython 3.11 carries. Bytes that are not UTF-8 stand for no text and
    are refused.

    The grammar of the ASCII text is then that of CPython: the blanks of
    the C locale are stripped from both ends, an underscore may stand
    between two digits, then a sign and either a decimal numeral with an
    optional exponent or one of [inf], [infinity], [nan] in any case. The
    value is the numeral correctly rounded. *)

Definition code (c : ascii) : Z := Z.of_N (N_of_ascii c).
Definition chr (n : Z) : ascii := ascii_of_N (Z.to_N n).

(** The six bits a byte [10xxxxxx] carries. *)
Definition continuation (c : ascii) : option Z :=
  let b := code c in
  if (128 <=? b) && (b <? 192) then Some (b - 128) else None.

(** The code points of UTF-8 bytes: one to four bytes each, in the
    shortest form, and no surrogate. *)
Fixpoint code_points (l : list ascii) : option (list Z) :=
  match l with
  | [] => Some []
  | c0 :: l1 =>
      let b0 := code c0 in
      if b0 <? 128 then
        match code_points l1 with Some r => Some (b0 :: r) | None => None end
      else if b0 <? 192 then None
      else if b0 <? 224 then
        match l1 with
        | c1 :: l2 =>
            match continuation c1, code_points l2 with
            | Some x1, Some r =>
                let cp := (b0 - 192) * 64 + x1 in
                if 128 <=? cp then Some (cp :: r) else None
            | _, _ => None
            end
        | _ => None
        end
      else if b0 <? 240 then
        match l1 with
        | c1 :: c2 :: l3 =>
            match continuation c1, continuation c2, code_points l3 with
            | Some x1, Some x2, Some r =>
                let cp := (b0 - 224) * 4096 + x1 * 64 + x2 in
                if (2048 <=? cp) && negb ((55296 <=? cp) && (cp <=? 57343))
                then Some (cp :: r) else None
            | _, _, _ => None
            end
        | _ => None
        end
      else if b0 <? 248 then
        match l1 with
        | c1 :: c2 :: c3 :: l4 =>
            match continuation c1, continuation c2, continuation c3,
                  code_points l4 with
            | Some x1, Some x2, Some x3, Some r =>
                let cp := (b0 - 240) * 262144 + x1 * 4096 + x2 * 64 + x3 in
                if (65536 <=? cp) && (cp <=? 1114111)
                then Some (cp :: r) else None
            | _, _, _, _ => None
            end
        | _ => None
        end
      else None
  end.

(** [Py_UNICODE_ISSPACE] on a character from 127 on. *)
Definition is_unicode_space (cp : Z) : bool :=
  (cp =? 133) || (cp =? 160) || (cp =? 5760)
  || ((8192 <=? cp) && (cp <=? 8202))
  || (cp =? 8232) || (cp =? 8233) || (cp =? 8239) || (cp =? 8287)
  || (cp =? 12288).

(** The decimal digits beyond ASCII come in runs of ten, zero to nine;
    these are the zeros. *)
Definition decimal_zeros : list Z :=
  [1632; 1776; 1984; 2406; 2534; 2662; 2790; 2918; 3046; 3174; 3302; 3430;
   3558; 3664; 3792; 3872; 4160; 4240; 6112; 6160; 6470; 6608; 6784; 6800;
   6992; 7088; 7232; 7248; 42528; 43216; 43264; 43472; 43504; 43600; 44016;
   65296; 66720; 68912; 69734; 69872; 69942; 70096; 70384; 70736; 70864;
   71248; 71360; 71472; 71904; 72016; 72784; 73040; 73120; 92768; 92864;
   93008; 120782; 120792; 120802; 120812; 120822; 123200; 123632; 125264;
   130032].

(** [Py_UNICODE_TODECIMAL] on a character from 127 on. *)
Definition to_decimal (cp : Z) : option Z :=
  match List.find (fun z => (z <=? cp) && (cp <? z + 10)) decimal_zeros with
  | Some z => Some (cp - z)
  | None => None
  end.

Fixpoint transform_decimal_and_space (cps : list Z) : list ascii :=
  match cps with
  | [] => []
  | cp :: cps' =>
      if cp <? 127 then chr cp :: transform_decimal_and_space cps'
      else if is_unicode_space cp then " "%char :: transform_decimal_and_space cps'
      else
        match to_decimal cp with
        | Some d => chr (48 + d) :: transform_decimal_and_space cps'
        | None => ["?"%char]
        end
  end.

Definition to_ascii (cps : list Z) : list ascii :=
  if forallb (fun cp => cp <? 128) cps then map chr cps
  else transform_decimal_and_space cps.

(** The blanks of the C locale. *)
Definition is_space (c : ascii) : bool :=
  let n := N_of_ascii c in ((n =? 32) || ((9 <=? n) && (n <=? 13)))%N.

Definition is_digit (c : ascii) : bool :=
  let n := N_of_ascii c in ((48 <=? n) && (n <=? 57))%N.

Definition digit_val (c : ascii) : Z := Z.of_N (N_of_ascii c) - 48.

Definition underscore : ascii := "_"%char.

(** Underscores are dropped; each must follow a digit and precede one. *)
Fixpoint remove_underscores (prev : ascii) (l : list ascii)
  : option (list ascii) :=
  match l with
  | [] => if Ascii.eqb prev underscore then None else Some []
  | c :: l' =>
      if Ascii.eqb c underscore then
        if is_digit prev then remove_underscores c l' else None
      else if Ascii.eqb prev underscore && negb (is_digit c) then None
      else (c ::.) <$> remove_underscores c l'
  end.

Fixpoint lstrip_spaces (l : list ascii) : list ascii :=
  match l with
  | c :: l' => if is_space c then lstrip_spaces l' else l
  | [] => []
  end.

Definition strip_spaces (l : list ascii) : list ascii :=
  rev (lstrip_spaces (rev (lstrip_spaces l))).

(** The longest prefix of digits, and the rest. *)
Fixpoint span_digits (l : list ascii) : list ascii * list ascii :=
  match l with
  | c :: l' =>
      if is_digit c then let '(ds, r) := span_digits l' in (c :: ds, r)
      else ([], l)
  | [] => ([], [])
  end.

Definition digits_val (ds : list ascii) : Z :=
  fold_left (fun acc c => 10 * acc + digit_val c) ds 0.

Definition take_sign (l : list ascii) : bool * list ascii :=
  match l with
  | c :: l' =>
      if Ascii.eqb c "-"%char then (true, l')
      else if Ascii.eqb c "+"%char then (false, l')
      else (false, l)
  | [] => (false, [])
  end.

Definition lower (c : ascii) : ascii :=
  let n := N_of_ascii c in
  if ((65 <=? n) && (n <=? 90))%N then ascii_of_N (n + 32) else c.

(** The exponent part: empty, or [e] or [E], a sign and digits. *)
Definition parse_exponent (l : list ascii) : option Z :=
  match l with
  | [] => Some 0
  | c :: l' =>
      if Ascii.eqb (lower c) "e"%char then
        let '(neg, l'') := take_sign l' in
        match span_digits l'' with
        | (d0 :: ds, []) =>
            let v := digits_val (d0 :: ds) in Some (if neg then - v else v)
        | _ => None
        end
      else None
  end.

(** A decimal numeral: digits, a point and digits (one digit at least),
    then the exponent part. The result is a fraction [(n, d)]. *)
Definition parse_decimal (l : list ascii) : option (Z * Z) :=
  let '(ip, r) := span_digits l in
  let '(fp, r') :=
    match r with
    | c :: r0 => if Ascii.eqb c dot then span_digits r0 else ([], r)
    | [] => ([], [])
    end in
  match ip ++ fp with
  | [] => None
  | ds =>
      ex ← parse_exponent r';
      let e10 := ex - Z.of_nat (length fp) in
      Some (if 0 <=? e10 then (digits_val ds * 10 ^ e10, 1)
            else (digits_val ds, 10 ^ (- e10)))
  end.

(** [float] on ASCII text. *)
Definition float_of_ascii (l : list ascii) : result float :=
  match remove_underscores "000"%char l with
  | None => Raise ValueError
  | Some l =>
      let '(neg, body) := take_sign (strip_spaces l) in
      let word := str_of (map lower body) in
      if String.eqb word "inf" || String.eqb word "infinity" then Ok (Inf neg)
      else if String.eqb word "nan" then Ok NaN
      else
        match parse_decimal body with
        | Some (n, d) => Ok (float_of_frac neg n d)
        | None => Raise ValueError
        end
  end.

Definition float_of_string (s : string) : result float :=
  match code_points (chars s) with
  | None => Raise ValueError
  | Some cps => float_of_ascii (to_ascii cps)
  end.

(** ** Values, XML trees and the host *)

(** The values the dictionaries of this program hold. *)
Inductive pyval : Set :=
  | VNone
  | VStr (s : string)
  | VInt (n : Z).

Global Instance pyval_eq_dec : EqDecision pyval.
Proof. solve_decision. Defined.

Global Instance pyval_countable : Countable pyval.
Proof.
  refine (inj_countable'
    (fun v => match v with
              | VNone => inl ()
              | VStr s => inr (inl s)
              | VInt n => inr (inr n)
              end)
    (fun x => match x with
              | inl _ => VNone
              | inr (inl s) => VStr s
              | inr (inr n) => VInt n
              end) _).
  intros []; reflexivity.
Defined.

(** An [xml.etree.ElementTree.Element]: tag, text (or [None]) and child
    elements in document order. *)
#[local] Unset Elimination Schemes.
Inductive element : Set :=
  | Element (tag : string) (text : option string) (children : list element).

#[local] Set Elimination Schemes.

Definition tag (e : element) : string :=
  match e with Element t _ _ => t end.
Definition text (e : element) : option string :=
  match e with Element _ t _ => t end.
Definition children (e : element) : list element :=
  match e with Element _ _ c => c end.

(** [e.text] as a value. *)
Definition text_val (e : element) : pyval :=
  match text e with Some s => VStr s | None => VNone end.

(** [e.find(t)]: the first child with tag [t]. *)
Definition find (t : string) (e : element) : option element :=
  List.find (fun c => String.eqb (tag c) t) (children e).

(** [e.findall(t)]: the children with tag [t], in document order. *)
Definition findall (t : string) (e : element) : list element :=
  List.filter (fun c => String.eqb (tag c) t) (children e).

(** What the program asks of its host: directory listings, the parsed
    XML tree of a file ([ET.ElementTree(file=p)], which raises
    [FileNotFoundError] or [ParseError]), the lines of a text file as
    iteration over it yields them, and the outcome of creating a
    directory and of opening a file for writing. *)
Record world : Type := {
  listdir : string → result (list string);
  xml_tree : string → result element;
  text_lines : string → result (list string);
  isdir : string → bool;
  mkdir : string → result ();
  open_w : string → result ()
}.

(** What a call leaves on the file system. *)
Inductive fs_effect : Set :=
  | Mkdir (path : string)
  | WriteFile (path content : string).

(** The record a parser returns. [annoname] is [None] when the dict has
    no such key. *)
Record annotation : Type := {
  annoname : option string;
  filename : pyval;
  size : gmap string pyval;
  object : list (gmap string pyval)
}.

Fixpoint map_result {A B} (f : A → result B) (l : list A) : result (list B) :=
  match l with
  | [] => Ok []
  | x :: l' => y ← f x; ys ← map_result f l'; Ok (y :: ys)
  end.

(** [x.attr] or iteration over [x] where [x] may be [None]. *)
Definition or_raise {A} (e : exn) (o : option A) : result A :=
  match o with Some a => Ok a | None => Raise e end.

(** [int(float(t))] on an element's text. *)
Definition int_of_text (t : option string) : result Z :=
  match t with
  | None => Raise TypeError
  | Some s => f ← float_of_string s; int_of_float f
  end.

(** [d[k]]. *)
Definition getitem {K} `{Countable K} {V} (d : gmap K V) (k : K) : result V :=
  or_raise KeyError (d !! k).

(** [d[k]] used as a number. The parser stores an [int] under every key
    but ['name'] (see [analysis_parse_items_Ok]), so [TypeError] does not arise
    from a parsed record. *)
Definition getint (d : gmap string pyval) (k : string) : result Z :=
  v ← getitem d k;
  match v with VInt n => Ok n | _ => Raise TypeError end.

(** ** [odutil/analysis.py] *)

Module analysis.

Section Host.

Variable host : world.

(** [str(x)] on a [float], the shortest decimal numeral that reads back
    as [x]. The digits are not modelled. *)
Variable str_float : float → string.

Definition parse_items (items : list element) (d : gmap string pyval)
  : result (gmap string pyval) :=
  for_each (fun d item =>
              n ← int_of_text (text item); Ok (<[tag item := VInt n]> d))
           items d.

Definition parse_object (obj : element) : result (gmap string pyval) :=
  name ← or_raise AttributeError (find "name" obj);
  let dict_obj : gmap string pyval := {["name" := text_val name]} in
  bbox ← or_raise TypeError (find "bndbox" obj);
  parse_items (children bbox) dict_obj.

Definition parse_anno (path_anno : string) : result annotation :=
  tree ← xml_tree host path_anno;
  let annoname := basename path_anno in
  fn ← or_raise AttributeError (find "filename" tree);
  size ← or_raise TypeError (find "size" tree);
  dict_size ← parse_items (children size) ∅;
  objs ← for_each (fun res obj => d ← parse_object obj; Ok (res ++ [d]))
                  (findall "object" tree) [];
  Ok {| annoname := Some annoname; filename := text_val fn;
        size := dict_size; object := objs |}.

(** [Pool.map] returns the results in the order of the paths. When
    several files fail, which exception surfaces depends on scheduling;
    the model reports the first in listing order. *)
Definition parse_annos (path_anno_folder : string) : result (list annotation) :=
  names ← listdir host path_anno_folder;
  map_result parse_anno (map (path_join path_anno_folder) names).

Definition check_match (path_1 path_2 : string) : result bool :=
  name_1 ← listdir host path_1;
  name_2 ← listdir host path_2;
  if negb (length name_1 =? length name_2)%nat then Ok false
  else
    let set_name : gset string :=
      fold_left (fun s name => s ∪ {[ (splitext name).1 ]}) name_1 ∅ in
    Ok (forallb (fun name => bool_decide ((splitext name).1 ∈ set_name)) name_2).


(** One turn of the loop over the lines of the names file: the mapping
    and the running counter. *)
Definition name2label_step (st : gmap string Z * Z) (l : string)
  : gmap string Z * Z :=
  let '(name2label, label) := st in
  (<[strip_newlines l := label]> name2label, label + 1).

Definition name2label_of (lines : list string) : gmap string Z :=
  (fold_left name2label_step lines (∅, 0)).1.

(** [name2label[v]] when [v in name2label]. *)
Definition lookup_label (name2label : gmap string Z) (v : pyval) : option Z :=
  match v with VStr s => name2label !! s | _ => None end.

Definition str_row (label : Z) (x_center y_center width height : float)
  : string :=
  String.concat " " [str_int label; str_float x_center; str_float y_center;
                     str_float width; str_float height].

(** The body of the loop over the boxes. *)
Definition label_row (name2label : gmap string Z) (W H : Z)
    (row : list string) (bbox : gmap string pyval) : result (list string) :=
  name ← getitem bbox "name";
  match lookup_label name2label name with
  | None => Ok row
  | Some label =>
      xmin ← getint bbox "xmin";
      xmax ← getint bbox "xmax";
      x_center ← truediv (xmin + xmax) (2 * W);
      ymin ← getint bbox "ymin";
      ymax ← getint bbox "ymax";
      y_center ← truediv (ymin + ymax) (2 * H);
      width ← truediv (xmax - xmin) W;
      height ← truediv (ymax - ymin) H;
      Ok (row ++ [str_row label x_center y_center width height])
  end.

Definition label_rows (name2label : gmap string Z) (anno : annotation)
  : result (list string) :=
  W ← getint (size anno) "width";
  H ← getint (size anno) "height";
  for_each (label_row name2label W H) (object anno) [].

(** The call returns [None]; the model returns what it did to the file
    system. *)
Definition gen_label (path_anno path_names path_out : string)
  : result (list fs_effect) :=
  anno ← parse_anno path_anno;
  lines ← text_lines host path_names;
  let name2label := name2label_of lines in
  row ← label_rows name2label anno;
  made ← (if isdir host path_out then Ok []
          else _ ← mkdir host path_out; Ok [Mkdir path_out]);
  let file_name := (splitext (basename path_anno)).1 in
  let path_out_file := path_join path_out (file_name +:+ ".txt") in
  _ ← open_w host path_out_file;
  Ok (made ++ [WriteFile path_out_file (String.concat nl row)]).

(** The body of the loop over the objects of all annotations. *)
Definition count_object (d : gmap pyval Z) (obj : gmap string pyval)
  : result (gmap pyval Z) :=
  name ← getitem obj "name";
  let d1 := <[name := default 0 (d !! name) + 1]> d in
  n ← getitem d1 (VStr "N");
  Ok (<[VStr "N" := n + 1]> d1).

Definition count_objects (annos : list annotation) (d : gmap pyval Z)
  : result (gmap pyval Z) :=
  for_each (fun d anno => for_each count_object (object anno) d) annos d.

(** The report divides by [d['N']]; what it prints is not modelled. *)
Definition report (d : gmap pyval Z) : result () :=
  for_each (fun _ '(name, c) =>
              n ← getitem d (VStr "N"); _ ← truediv (100 * c) n; Ok ())
           (map_to_list d) ().

Definition distribution (path_anno_folder : string) (verbose : bool)
  : result (gmap pyval Z) :=
  annos ← parse_annos path_anno_folder;
  d ← count_objects annos {[VStr "N" := 0]};
  _ ← (if verbose then report d else Ok ());
  Ok d.

End Host.

End analysis.

(** ** [parser.py], the older copy of the parser *)

Module parser.

Section Host.

Variable host : world.

Definition parse_items (items : list element) (d : gmap string pyval)
  : gmap string pyval :=
  fold_left (fun d item => <[tag item := text_val item]> d) items d.

Definition parse_object (obj : element) : result (gmap string pyval) :=
  name ← or_raise AttributeError (find "name" obj);
  let dict_obj : gmap string pyval := {["name" := text_val name]} in
  bbox ← or_raise TypeError (find "bndbox" obj);
  Ok (parse_items (children bbox) dict_obj).

Definition parse_anno (path_anno : string) : result annotation :=
  tree ← xml_tree host path_anno;
  fn ← or_raise AttributeError (find "filename" tree);
  size ← or_raise TypeError (find "size" tree);
  let dict_size := parse_items (children size) ∅ in
  objs ← for_each (fun res obj => d ← parse_object obj; Ok (res ++ [d]))
                  (findall "object" tree) [];
  Ok {| annoname := None; filename := text_val fn;
        size := dict_size; object := objs |}.

(** As in the new module; the pool is not closed here. *)
Definition parse_annos (path_annos : string) : result (list annotation) :=
  names ← listdir host path_annos;
  map_result parse_anno (map (path_join path_annos) names).

End Host.

End parser.

(** ** What the specification says, in its own words *)

(** The set of file names of a listing with the extensions stripped. *)
Definition stems (names : list string) : gset string :=
  list_to_set (map (fun name => (splitext name).1) names).

(** Two listings match: as many entries, and the same set of stems. *)
Definition folders_match (name_1 name_2 : list string) : Prop :=
  length name_1 = length name_2 ∧ stems name_1 = stems name_2.

(** [name] stands on line [i] and on no later line. *)
Definition last_line (names : list string) (name : string) (i : nat) : Prop :=
  names !! i = Some name ∧ ∀ j, (i < j)%nat → names !! j ≠ Some name.

(** The last of [items] with tag [k]: the one whose value a dict filled
    in document order keeps. *)
Definition last_tagged (k : string) (items : list element) : option element :=
  List.find (fun c => String.eqb (tag c) k) (rev items).

(** [int(float(t))] as a value, when it is defined. *)
Definition int_value (t : option string) : option pyval :=
  match int_of_text t with Ok n => Some (VInt n) | Raise _ => None end.

(** Every text of [items] converts to a number. *)
Definition convertible (items : list element) : Prop :=
  Forall (fun item => is_ok (int_of_text (text item)) = true) items.

(** An object element the parsers accept: a name, and a bndbox whose
    children all convert. Which children there are is not looked at. *)
Definition parsable_object (obj : element) : Prop :=
  is_Some (find "name" obj)
  ∧ ∃ bbox, find "bndbox" obj = Some bbox ∧ convertible (children bbox).

(** A document the new parser accepts. *)
Definition parsable (tree : element) : Prop :=
  is_Some (find "filename" tree)
  ∧ (∃ size, find "size" tree = Some size ∧ convertible (children size))
  ∧ Forall parsable_object (findall "object" tree).

(** [n] is [q] without its fraction: the whole number next to [q] on
    the side of zero. *)
Definition truncation (q : Q) (n : Z) : Prop :=
  ((0 <= q → inject_Z n <= q < inject_Z n + 1)
   ∧ (q <= 0 → inject_Z n - 1 < q <= inject_Z n))%Q.

(** Why a text does not convert, and what [int(float(text))] raises
    then: there is no text, the text is no numeral, it reads as nan, or
    it reads as an infinity. *)
Inductive text_fault : option string → exn → Prop :=
  | no_text : text_fault None TypeError
  | no_numeral s :
      float_of_string s = Raise ValueError → text_fault (Some s) ValueError
  | not_a_number s :
      float_of_string s = Ok NaN → text_fault (Some s) ValueError
  | infinite s neg :
      float_of_string s = Ok (Inf neg) → text_fault (Some s) OverflowError.

(** The first of [items] whose text does not convert has the fault
    that raises [e]. *)
Definition items_failure (items : list element) (e : exn) : Prop :=
  ∃ pre item post,
    items = pre ++ item :: post ∧ convertible pre ∧ text_fault (text item) e.

(** What is wrong with an object element: the name is missing, the
    bndbox is missing, or a child of the bndbox does not convert. *)
Definition object_failure (obj : element) (e : exn) : Prop :=
  match find "name" obj, find "bndbox" obj with
  | None, _ => e = AttributeError
  | Some _, None => e = TypeError
  | Some _, Some bbox => items_failure (children bbox) e
  end.

(** What is wrong with a document, in the order in which the parser
    reads it: the filename is missing, the size is missing, a child of the
    size does not convert, or the first object that is not parsable has
    its failure. *)
Definition failure (tree : element) (e : exn) : Prop :=
  match find "filename" tree, find "size" tree with
  | None, _ => e = AttributeError
  | Some _, None => e = TypeError
  | Some _, Some size_el =>
      items_failure (children size_el) e
      ∨ (convertible (children size_el)
         ∧ ∃ pre obj post,
             findall "object" tree = pre ++ obj :: post
             ∧ Forall parsable_object pre ∧ object_failure obj e)
  end.

(** The dict of an object element whose numbers are converted by [conv]. *)
Definition object_dict (conv : element → option pyval) (obj : element)
    (d : gmap string pyval) : Prop :=
  ∃ name bbox,
    find "name" obj = Some name ∧ find "bndbox" obj = Some bbox
    ∧ ∀ k, d !! k = match last_tagged k (children bbox) with
                    | Some item => conv item
                    | None => if decide (k = "name") then Some (text_val name)
                              else None
                    end.

(** The class of the box is in the names file. *)
Definition known (name2label : gmap string Z) (bbox : gmap string pyval) : bool :=
  match bbox !! "name" with
  | Some (VStr name) => bool_decide (is_Some (name2label !! name))
  | _ => false
  end.

Definition has_coordinates (bbox : gmap string pyval) (xmin ymin xmax ymax : Z)
  : Prop :=
  bbox !! "xmin" = Some (VInt xmin) ∧ bbox !! "ymin" = Some (VInt ymin)
  ∧ bbox !! "xmax" = Some (VInt xmax) ∧ bbox !! "ymax" = Some (VInt ymax).

(** The label index and the four normalized values of a box, by the
    formulas of the specification; [/] is Python's division of [int]s. *)
Definition row_values (name2label : gmap string Z) (W H : Z)
    (bbox : gmap string pyval) (r : Z * float * float * float * float) : Prop :=
  let '(label, x_center, y_center, box_width, box_height) := r in
  ∃ name xmin ymin xmax ymax,
    bbox !! "name" = Some (VStr name)
    ∧ name2label !! name = Some label
    ∧ has_coordinates bbox xmin ymin xmax ymax
    ∧ truediv (xmin + xmax) (2 * W) = Ok x_center
    ∧ truediv (ymin + ymax) (2 * H) = Ok y_center
    ∧ truediv (xmax - xmin) W = Ok box_width
    ∧ truediv (ymax - ymin) H = Ok box_height.

(** The line [<label_index> <x_center> <y_center> <box_width> <box_height>]. *)
Definition render (str_float : float → string)
    (r : Z * float * float * float * float) : string :=
  let '(label, x_center, y_center, box_width, box_height) := r in
  str_int label +:+ " " +:+ str_float x_center +:+ " " +:+ str_float y_center
  +:+ " " +:+ str_float box_width +:+ " " +:+ str_float box_height.

(** The box has its four coordinates, none of them astronomically large. *)
Definition moderate (bbox : gmap string pyval) : Prop :=
  ∃ xmin ymin xmax ymax,
    has_coordinates bbox xmin ymin xmax ymax
    ∧ Z.abs xmin < 2 ^ 1022 ∧ Z.abs ymin < 2 ^ 1022
    ∧ Z.abs xmax < 2 ^ 1022 ∧ Z.abs ymax < 2 ^ 1022.

(** The inverse of the normalization: the two ends of an interval from
    its normalized center [c] and extent [s], for an image extent [W]. *)
Definition lower_end (c s : Q) (W : Z) : Q := ((c - s / 2) * inject_Z W)%Q.
Definition upper_end (c s : Q) (W : Z) : Q := ((c + s / 2) * inject_Z W)%Q.

(** The exact normalized center and extent. *)
Definition exact_center (lo hi W : Z) : Q := (inject_Z (lo + hi) / inject_Z (2 * W))%Q.
Definition exact_extent (lo hi W : Z) : Q := (inject_Z (hi - lo) / inject_Z W)%Q.

(** The tolerance of the round trip: half a unit in the last place of
    the larger coordinate, and the least float for each pixel. *)
Definition tolerance (lo hi W : Z) : Q :=
  (inject_Z (Z.abs (lo + hi) + Z.abs (hi - lo)) * pow2 (-54)
   + inject_Z W * pow2 (-1074))%Q.

(** The file [gen_label] writes: the annotation's base name without its
    extension, with [.txt], in the output directory. *)
Definition out_file (path_anno path_out : string) : string :=
  path_join path_out ((splitext (basename path_anno)).1 +:+ ".txt").

(** ** Hosts for the examples *)

(** A host with the given directories, XML files and text files, on
    which creating a directory and opening a file for writing succeed. *)
Definition static_host (dirs : gmap string (list string))
    (xmls : gmap string element) (texts : gmap string (list string)) : world :=
  {| listdir p := or_raise FileNotFoundError (dirs !! p);
     xml_tree p := or_raise FileNotFoundError (xmls !! p);
     text_lines p := or_raise FileNotFoundError (texts !! p);
     isdir p := bool_decide (is_Some (dirs !! p));
     mkdir _ := Ok ();
     open_w _ := Ok () |}.

(** Two pictures of one image beside two annotations. *)
Definition twin_host : world :=
  static_host {[ "images" := ["1.jpg"; "2.jpg"]; "labels" := ["1.xml"; "1.txt"] ]}
              ∅ ∅.

(** Builders of Pascal-VOC documents. *)
Definition leaf (t s : string) : element := Element t (Some s) [].

Definition voc_object (name xmin ymin xmax ymax : string) : element :=
  Element "object" None
    [leaf "name" name;
     Element "bndbox" None
       [leaf "xmin" xmin; leaf "ymin" ymin; leaf "xmax" xmax; leaf "ymax" ymax]].

Definition voc_annotation (fname width height : string) (objs : list element)
  : element :=
  Element "annotation" None
    ([leaf "filename" fname;
      Element "size" None
        [leaf "width" width; leaf "height" height; leaf "depth" "3"]] ++ objs).

(** An annotation without a width and with a box that has only [xmin]. *)
Definition no_width_doc : element :=
  Element "annotation" None
    [leaf "filename" "image.jpg";
     Element "size" None [leaf "height" "1216"; leaf "depth" "3"];
     Element "object" None
       [leaf "name" "cat"; Element "bndbox" None [leaf "xmin" "904"]]].

(** An annotation whose width is not a numeral. *)
Definition bad_width_doc : element :=
  voc_annotation "image.jpg" "wide" "1216" [].

Definition docs_host : world :=
  static_host ∅ {[ "a.xml" := no_width_doc; "b.xml" := bad_width_doc ]} ∅.

(** The bndbox of every object holds coordinates only, as the Pascal-VOC
    schema has it. *)
Definition coordinate_tags : list string := ["xmin"; "ymin"; "xmax"; "ymax"].

Definition well_formed (tree : element) : Prop :=
  Forall (fun obj => ∀ bbox, find "bndbox" obj = Some bbox →
                       Forall (fun item => tag item ∈ coordinate_tags) (children bbox))
         (findall "object" tree).

(** The dict holds under ['name'] the text of the object's name
    element. *)
Definition named_by (obj : element) (d : gmap string pyval) : Prop :=
  ∃ name, find "name" obj = Some name ∧ d !! "name" = Some (text_val name).

(** Wherever the older record [db] holds a value under a key other than
    ['name'], the new record [da] holds a number, and so another value. *)
Definition numbers_for_texts (da db : gmap string pyval) : Prop :=
  ∀ k, k ≠ "name" → is_Some (db !! k) →
       (∃ n, da !! k = Some (VInt n)) ∧ da !! k ≠ db !! k.

(** A Pascal-VOC annotation with two boxes. *)
Definition sample_doc : element :=
  voc_annotation "image.jpg" "1621" "1216.0"
    [voc_object "class1" "904" "674" "926" "695";
     voc_object "class2" "972" "693" "993" "713"].

Definition sample_host : world :=
  static_host {[ "annos" := ["image.xml"] ]}
              {[ "annos/image.xml" := sample_doc ]}
              {[ "voc.names" := ["class1" +:+ nl; "class3" +:+ nl; "class2"] ]}.

(** The boxes of a batch of records, and the class names they carry. *)
Definition boxes (annos : list annotation) : list (gmap string pyval) :=
  concat (map object annos).

Definition box_names (annos : list annotation) : list pyval :=
  omap (fun obj => obj !! "name") (boxes annos).

(** How many of [names] are [k]. *)
Definition occurrences (k : pyval) (names : list pyval) : Z :=
  Z.of_nat (length (filter (fun name => name = k) names)).

(** A folder whose only annotation has one box, of a class called N. *)
Definition n_host : world :=
  static_host {[ "annos" := ["image.xml"] ]}
    {[ "annos/image.xml" :=
         voc_annotation "image.jpg" "1621" "1216"
           [voc_object "N" "904" "674" "926" "695"] ]}
    ∅.

(** A folder of two annotations without boxes. *)
Definition boxless_host : world :=
  static_host {[ "annos" := ["1.xml"; "2.xml"] ]}
    {[ "annos/1.xml" := voc_annotation "1.jpg" "1621" "1216" [];
       "annos/2.xml" := voc_annotation "2.jpg" "800" "600" [] ]}
    ∅.

(** A stand-in for the printing of floats in the examples: mantissa and
    binary exponent. *)
Definition show_float (f : float) : string :=
  match f with
  | Finite neg m e => str_int (if neg then - m else m) +:+ "p" +:+ str_int e
  | Inf neg => if neg then "-inf" else "inf"
  | NaN => "nan"
  end.

(** An annotation with boxes of the classes cat, zebra and dog, and a
    names file that knows cat and dog. *)
Definition mixed_doc : element :=
  voc_annotation "image.jpg" "1621" "1216"
    [voc_object "cat" "904" "674" "926" "695";
     voc_object "zebra" "1" "2" "3" "4";
     voc_object "dog" "972" "693" "993" "713"].

Definition mixed_anno : annotation :=
  {| annoname := Some "image.xml";
     filename := VStr "image.jpg";
     size := {[ "width" := VInt 1621; "height" := VInt 1216; "depth" := VInt 3 ]};
     object :=
       [ {[ "name" := VStr "cat"; "xmin" := VInt 904; "ymin" := VInt 674;
            "xmax" := VInt 926; "ymax" := VInt 695 ]};
         {[ "name" := VStr "zebra"; "xmin" := VInt 1; "ymin" := VInt 2;
            "xmax" := VInt 3; "ymax" := VInt 4 ]};
         {[ "name" := VStr "dog"; "xmin" := VInt 972; "ymin" := VInt 693;
            "xmax" := VInt 993; "ymax" := VInt 713 ]} ] |}.

Definition mixed_host : world :=
  static_host {[ "annos" := ["image.xml"] ]}
              {[ "annos/image.xml" := mixed_doc ]}
              {[ "pets.names" := ["cat" +:+ nl; "dog" +:+ nl] ]}.

(** The record without the boxes whose class is not in the names file. *)
Definition without_unknown (name2label : gmap string Z) (anno : annotation)
  : annotation :=
  {| annoname := annoname anno; filename := filename anno; size := size anno;
     object := filter (fun bbox => known name2label bbox = true) (object anno) |}.

(** The annotation with the boxes of cat, zebra and dog, and beside it
    the same without the zebra. *)
Definition known_doc : element :=
  voc_annotation "image.jpg" "1621" "1216"
    [voc_object "cat" "904" "674" "926" "695";
     voc_object "dog" "972" "693" "993" "713"].

Definition known_host : world :=
  static_host {[ "annos" := ["image.xml"] ]}
              {[ "annos/image.xml" := known_doc ]}
              {[ "pets.names" := ["cat" +:+ nl; "dog" +:+ nl] ]}.

(** Annotations with a cat and a zebra beside a names file that knows
    the cat: one of an image of width zero, one whose size has no width,
    one whose cat has no xmax. *)
Definition flawed_docs : gmap string element :=
  {[ "annos/zero.xml" :=
       voc_annotation "image.jpg" "0" "1216"
         [voc_object "cat" "904" "674" "926" "695";
          voc_object "zebra" "1" "2" "3" "4"];
     "annos/widthless.xml" :=
       Element "annotation" None
         [leaf "filename" "image.jpg";
          Element "size" None [leaf "height" "1216"; leaf "depth" "3"];
          voc_object "cat" "904" "674" "926" "695";
          voc_object "zebra" "1" "2" "3" "4"];
     "annos/open.xml" :=
       voc_annotation "image.jpg" "1621" "1216"
         [Element "object" None
            [leaf "name" "cat";
             Element "bndbox" None
               [leaf "xmin" "904"; leaf "ymin" "674"; leaf "ymax" "695"]];
          voc_object "zebra" "1" "2" "3" "4"] ]}.

Definition flawed_host : world :=
  static_host {[ "annos" := ["zero.xml"; "widthless.xml"; "open.xml"] ]}
              flawed_docs
              {[ "pets.names" := ["cat" +:+ nl; "dog" +:+ nl] ]}.

(** The folders of the specification's example: two annotations, their
    two images, and a folder with another image. *)
Definition folders_host : world :=
  static_host {[ "A" := ["1.xml"; "2.xml"]; "B" := ["1.jpg"; "2.jpg"];
                 "C" := ["1.jpg"; "3.jpg"] ]} ∅ ∅.

(** The folders of the specification's example, listed in another order. *)
Definition shuffled_host : world :=
  static_host {[ "A" := ["2.xml"; "1.xml"]; "B" := ["2.jpg"; "1.jpg"] ]} ∅ ∅.

(** The structure both parsers need: a filename, a size, and in every
    object a name and a bndbox. *)
Definition structured_object (obj : element) : Prop :=
  is_Some (find "name" obj) ∧ is_Some (find "bndbox" obj).

Definition structured (tree : element) : Prop :=
  is_Some (find "filename" tree) ∧ is_Some (find "size" tree)
  ∧ Forall structured_object (findall "object" tree).

(** The document without the children the parsers do not ask for. *)
Definition relevant (c : element) : bool :=
  String.eqb (tag c) "filename" || String.eqb (tag c) "size"
  || String.eqb (tag c) "object".

Definition prune (tree : element) : element :=
  Element (tag tree) (text tree) (List.filter relevant (children tree)).

(** A Pascal-VOC document as labelling tools write it, with the elements
    the parsers do not read. *)
Definition full_doc : element :=
  Element "annotation" None
    [leaf "folder" "images"; leaf "filename" "image.jpg";
     Element "source" None [leaf "database" "Unknown"];
     Element "size" None
       [leaf "width" "1621"; leaf "height" "1216"; leaf "depth" "3"];
     leaf "segmented" "0";
     voc_object "cat" "904" "674" "926" "695"].

Definition full_host : world :=
  static_host ∅ {[ "image.xml" := full_doc ]} ∅.

Definition pruned_host : world :=
  static_host ∅ {[ "image.xml" := prune full_doc ]} ∅.

(** An annotation of an image of width zero, with one box. *)
Definition zero_doc : element :=
  voc_annotation "image.jpg" "0" "1216" [voc_object "cat" "904" "674" "926" "695"].

Definition zero_anno : annotation :=
  {| annoname := Some "image.xml";
     filename := VStr "image.jpg";
     size := {[ "width" := VInt 0; "height" := VInt 1216; "depth" := VInt 3 ]};
     object :=
       [ {[ "name" := VStr "cat"; "xmin" := VInt 904; "ymin" := VInt 674;
            "xmax" := VInt 926; "ymax" := VInt 695 ]} ] |}.

Definition zero_host : world :=
  static_host {[ "annos" := ["image.xml"] ]}
              {[ "annos/image.xml" := zero_doc ]}
              {[ "pets.names" := ["cat" +:+ nl; "dog" +:+ nl];
                 "birds.names" := ["owl" +:+ nl] ]}.

(** The annotation without a width, beside a names file. *)
Definition widthless_host : world :=
  static_host ∅ {[ "a.xml" := no_width_doc ]} {[ "pets.names" := ["cat" +:+ nl] ]}.

(** A folder of two annotations, listed in either order. *)
Definition pair_docs : gmap string element :=
  {[ "annos/1.xml" :=
       voc_annotation "1.jpg" "1621" "1216"
         [voc_object "cat" "904" "674" "926" "695";
          voc_object "dog" "972" "693" "993" "713"];
     "annos/2.xml" :=
       voc_annotation "2.jpg" "800" "600" [voc_object "cat" "10" "20" "30" "40"] ]}.

Definition pair_host : world :=
  static_host {[ "annos" := ["1.xml"; "2.xml"] ]} pair_docs ∅.

Definition pair_host_rev : world :=
  static_host {[ "annos" := ["2.xml"; "1.xml"] ]} pair_docs ∅.

(** The sum of the entries of the dict other than the total. *)
Definition class_total (d : gmap pyval Z) : Z :=
  map_fold (fun _ c acc => c + acc) 0 (delete (VStr "N") d).

(** * Properties *)

(** ** The model at work *)

Example truediv_tenth : truediv 1 10 = Ok (Finite false 7205759403792794 (-56)).
Proof. reflexivity. Qed.

Example truediv_negative_zero : truediv 0 (-5) = Ok (Finite true 0 (-1074)).
Proof. reflexivity. Qed.

Example truediv_tie_to_even : truediv (2 ^ 53 + 3) 1 = Ok (Finite false (2 ^ 52 + 2) 1).
Proof. reflexivity. Qed.

Example truediv_by_zero : truediv 7 0 = Raise ZeroDivisionError.
Proof. reflexivity. Qed.

Example truediv_too_large : truediv (2 ^ 1024) 1 = Raise OverflowError.
Proof. reflexivity. Qed.

Example int_of_text_examples :
  map int_of_text [Some "1621"; Some " 12.75 "; Some "1e3"; Some "1_000";
                   Some ".5"; Some "abc"; Some ""; Some "inf"; Some "nan"; None]
  = [Ok 1621; Ok 12; Ok 1000; Ok 1000; Ok 0; Raise ValueError; Raise ValueError;
     Raise OverflowError; Raise ValueError; Raise TypeError].
Proof. vm_compute. reflexivity. Qed.

(** Decimal digits of other scripts count as digits, other characters
    do not. *)
Example int_of_text_unicode :
  int_of_text (Some "١٢") = Ok 12 ∧ int_of_text (Some "１２.５") = Ok 12
  ∧ int_of_text (Some "१२e१") = Ok 120 ∧ int_of_text (Some "12²") = Raise ValueError
  ∧ int_of_text (Some "Ⅻ") = Raise ValueError.
Proof. by vm_compute. Qed.

Example splitext_examples :
  map splitext ["image.xml"; "a.b.c"; ".bashrc"; "dir.x/file"; "noext"]
  = [("image", ".xml"); ("a.b", ".c"); (".bashrc", ""); ("dir.x/file", "");
     ("noext", "")].
Proof. reflexivity. Qed.

Example check_match_same_names :
  analysis.check_match folders_host "A" "B" = Ok true.
Proof. vm_compute. reflexivity. Qed.

Example check_match_other_name :
  analysis.check_match folders_host "A" "C" = Ok false.
Proof. vm_compute. reflexivity. Qed.

Example gen_label_mixed :
  analysis.gen_label mixed_host show_float "annos/image.xml" "pets.names" "labels"
  = Ok [Mkdir "labels";
        WriteFile "labels/image.txt"
          ("0 5084261146260338p-53 5070253198906422p-53 7823649938726290p-59 4977662746041075p-58"
           +:+ nl +:+
           "1 5459329591476264p-53 5207287069147136p-53 7468029486966004p-59 4740631186705785p-58")].
Proof. vm_compute. reflexivity. Qed.


(** ** The folder matcher *)

Section CheckMatch.

Variable host : world.

Lemma set_name_stems (names : list string) (s : gset string) :
  fold_left (fun s name => s ∪ {[ (splitext name).1 ]}) names s = s ∪ stems names.
Proof.
  revert s. induction names as [|name names IH]; intros s; simpl.
  - unfold stems. simpl. set_solver.
  - rewrite IH. unfold stems. simpl. set_solver.
Qed.

Lemma forallb_stems (s : gset string) (names : list string) :
  forallb (fun name => bool_decide ((splitext name).1 ∈ s)) names = true
  ↔ stems names ⊆ s.
Proof.
  unfold stems. induction names as [|name names IH]; simpl.
  - split; [set_solver | done].
  - rewrite andb_true_iff, bool_decide_eq_true, IH. set_solver.
Qed.

Lemma size_list_to_set_le (l : list string) :
  (base.size (list_to_set l : gset string) ≤ length l)%nat.
Proof.
  induction l as [|x l IH].
  - rewrite list_to_set_nil, size_empty. done.
  - rewrite list_to_set_cons, size_union_alt, size_singleton. simpl.
    pose proof (subseteq_size (list_to_set l ∖ {[x]}) (list_to_set l : gset string)) as Hle.
    specialize (Hle ltac:(set_solver)). lia.
Qed.

(** What the code checks: equal lengths, and every stem of the second
    listing among those of the first. *)
Lemma check_match_containment (path_1 path_2 : string) (name_1 name_2 : list string) :
  listdir host path_1 = Ok name_1 →
  listdir host path_2 = Ok name_2 →
  analysis.check_match host path_1 path_2
  = Ok (bool_decide (length name_1 = length name_2 ∧ stems name_2 ⊆ stems name_1)).
Proof.
  intros H1 H2. unfold analysis.check_match. rewrite H1, H2. simpl.
  destruct (Nat.eqb_spec (length name_1) (length name_2)) as [Hlen|Hlen]; simpl.
  - f_equal. rewrite set_name_stems, (left_id_L ∅ (∪)).
    apply eq_true_iff_eq.
    rewrite forallb_stems, bool_decide_eq_true. tauto.
  - f_equal. symmetry. apply bool_decide_eq_false. tauto.
Qed.

(** When the stems within the second listing are pairwise distinct, the
    one-directional check decides the match in both directions. *)
Lemma check_match_distinct_stems (path_1 path_2 : string) (name_1 name_2 : list string) :
  listdir host path_1 = Ok name_1 →
  listdir host path_2 = Ok name_2 →
  NoDup (map (fun name => (splitext name).1) name_2) →
  ∀ r, analysis.check_match host path_1 path_2 = Ok r →
       r = true ↔ folders_match name_1 name_2.
Proof.
  intros H1 H2 Hnd r Hr.
  rewrite (check_match_containment _ _ _ _ H1 H2) in Hr.
  injection Hr as <-. rewrite bool_decide_eq_true. unfold folders_match.
  split; intros [Hlen Hs]; split; try done.
  - symmetry. apply set_subseteq_size_eq; [done|].
    assert (base.size (stems name_2) = length name_2) as ->.
    { unfold stems. rewrite size_list_to_set by done. by rewrite length_map. }
    rewrite <- Hlen. unfold stems.
    etrans; [apply size_list_to_set_le|]. by rewrite length_map.
  - by rewrite Hs.
Qed.

End CheckMatch.

(** C1 (evaluated where the code departs from the claim). With two
    entries on each side, ["1.jpg"; "2.jpg"] against ["1.xml"; "1.txt"],
    [check_match] answers true although the stems {1, 2} and {1} differ;
    with the folders exchanged it answers false. *)
Theorem check_match_twin_pictures :
  analysis.check_match twin_host "images" "labels" = Ok true
  ∧ ¬ folders_match ["1.jpg"; "2.jpg"] ["1.xml"; "1.txt"]
  ∧ analysis.check_match twin_host "labels" "images" = Ok false.
Proof.
  split; [vm_compute; reflexivity|]. split; [|vm_compute; reflexivity].
  intros [_ Hs].
  assert ("2" ∈ stems ["1.jpg"; "2.jpg"]) as Hin.
  { unfold stems. apply elem_of_list_to_set. vm_compute. set_solver. }
  rewrite Hs in Hin. unfold stems in Hin.
  apply elem_of_list_to_set in Hin. vm_compute in Hin.
  set_solver.
Qed.

(** ** The name-to-label mapping *)

Section Name2Label.

Lemma name2label_fold (lines : list string) :
  ∃ m, fold_left analysis.name2label_step lines (∅, 0) = (m, Z.of_nat (length lines))
       ∧ ∀ name label,
           m !! name = Some label
           ↔ ∃ i, label = Z.of_nat i ∧ last_line (map strip_newlines lines) name i.
Proof.
  induction lines as [|l lines IH] using rev_ind.
  - exists ∅. split; [done|]. intros name label. rewrite lookup_empty.
    split; [done|]. intros (i & _ & Hi & _). simpl in Hi. by rewrite lookup_nil in Hi.
  - destruct IH as (m & Hm & IH).
    exists (<[strip_newlines l := Z.of_nat (length lines)]> m).
    rewrite fold_left_app, Hm. simpl. split.
    { rewrite length_app. simpl. f_equal. lia. }
    intros name label. rewrite map_app. simpl.
    set (names := map strip_newlines lines) in *.
    assert (length names = length lines) as Hlen by apply length_map.
    destruct (decide (strip_newlines l = name)) as [<-|Hne].
    + rewrite lookup_insert_eq. split.
      * intros [= <-]. exists (length lines). split; [done|]. split.
        -- rewrite lookup_app_r by lia. by rewrite Hlen, Nat.sub_diag.
        -- intros j Hj. rewrite lookup_ge_None_2; [done|].
           rewrite length_app. simpl. lia.
      * intros (i & -> & Hi & Hlast). f_equal.
        destruct (decide (i = length lines)) as [->|Hi']; [done|].
        exfalso. apply (Hlast (length lines)).
        -- apply lookup_lt_Some in Hi. rewrite length_app in Hi. simpl in Hi. lia.
        -- rewrite lookup_app_r by lia. by rewrite Hlen, Nat.sub_diag.
    + rewrite lookup_insert_ne by done. rewrite IH. unfold last_line.
      split; intros (i & -> & Hi & Hlast); exists i; (split; [done|]).
      * split.
        -- by apply lookup_app_l_Some.
        -- intros j Hj. destruct (decide (j < length names)%nat).
           ++ rewrite lookup_app_l by done. by apply Hlast.
           ++ destruct (decide (j = length names)) as [->|].
              ** rewrite lookup_app_r by lia. rewrite Nat.sub_diag. simpl. congruence.
              ** rewrite lookup_ge_None_2; [done|]. rewrite length_app. simpl. lia.
      * assert (i < length names)%nat as Hlt.
        { destruct (decide (i < length names)%nat); [done|]. exfalso.
          destruct (decide (i = length names)) as [->|].
          - rewrite lookup_app_r in Hi by lia. rewrite Nat.sub_diag in Hi.
            simpl in Hi. congruence.
          - rewrite lookup_ge_None_2 in Hi; [done|]. rewrite length_app. simpl. lia. }
        rewrite lookup_app_l in Hi by done. split; [done|].
        intros j Hj Hjn. apply (Hlast j Hj). by apply lookup_app_l_Some.
Qed.

(** Every name of the file is mapped to the index of the last line that
    carries it, and nothing else is mapped. *)
Lemma name2label_last_line (lines : list string) (name : string) (label : Z) :
  analysis.name2label_of lines !! name = Some label
  ↔ ∃ i, label = Z.of_nat i ∧ last_line (map strip_newlines lines) name i.
Proof.
  destruct (name2label_fold lines) as (m & Hm & Hspec).
  unfold analysis.name2label_of. rewrite Hm. apply Hspec.
Qed.

End Name2Label.

(** C6 (as stated, refuted). In a names file with the lines cat, dog,
    cat the name of line 0 is not given the index 0: the later line
    overwrites it, and no name is left with index 0. *)
Lemma name2label_duplicate_name :
  let lines := ["cat" +:+ nl; "dog" +:+ nl; "cat" +:+ nl] in
  ¬ (∀ i line, lines !! i = Some line →
       analysis.name2label_of lines !! strip_newlines line = Some (Z.of_nat i)).
Proof.
  intros lines H. specialize (H 0%nat ("cat" +:+ nl) eq_refl).
  vm_compute in H. discriminate H.
Qed.

(** C6 (amended). Each name of the names file is mapped to the
    zero-based index of the last line that carries it, and nothing else is
    mapped; when the names are pairwise distinct, the name of every line
    is mapped to the index of that line; for the lines cat, dog, bird the
    mapping is {cat: 0, dog: 1, bird: 2}. *)
Theorem name2label_line_order (lines : list string) :
  (∀ name label,
     analysis.name2label_of lines !! name = Some label
     ↔ ∃ i, label = Z.of_nat i ∧ last_line (map strip_newlines lines) name i)
  ∧ (NoDup (map strip_newlines lines) →
     ∀ i line, lines !! i = Some line →
       analysis.name2label_of lines !! strip_newlines line = Some (Z.of_nat i))
  ∧ analysis.name2label_of ["cat" +:+ nl; "dog" +:+ nl; "bird" +:+ nl]
    = {[ "cat" := 0; "dog" := 1; "bird" := 2 ]}.
Proof.
  split; [apply name2label_last_line|]. split; [|vm_compute; reflexivity].
  intros Hnd i line Hi. apply name2label_last_line. exists i. split; [done|].
  assert (map strip_newlines lines !! i = Some (strip_newlines line)) as Hi'.
  { by rewrite list_lookup_fmap, Hi. }
  split; [done|]. intros j Hj Hjn.
  pose proof (NoDup_lookup _ _ _ _ Hnd Hi' Hjn). lia.
Qed.

Lemma name2label_line_order_witness :
  analysis.name2label_of ["person" +:+ nl; "car"] !! "car" = Some 1.
Proof.
  refine (proj1 (proj2 (name2label_line_order ["person" +:+ nl; "car"])) _ 1%nat "car" _).
  - apply (bool_decide_unpack _). vm_compute. exact I.
  - reflexivity.
Defined.

(** ** The error monad and the loops *)

Lemma bind_Ok {A B} (r : result A) (k : A → result B) (b : B) :
  r ≫= k = Ok b ↔ ∃ a, r = Ok a ∧ k a = Ok b.
Proof.
  destruct r as [a|e]; simpl.
  - split; [eauto|]. by intros (a' & [= ->] & ?).
  - split; [done|]. by intros (a' & ? & ?).
Qed.

Lemma or_raise_Ok {A} (e : exn) (o : option A) (a : A) :
  or_raise e o = Ok a ↔ o = Some a.
Proof. destruct o; simpl; split; congruence. Qed.

(** Unfolds the successful binds of a hypothesis. *)
Ltac ok_inv H :=
  repeat match type of H with
         | _ ≫= _ = Ok _ =>
             let a := fresh "a" in
             let Ha := fresh "H" a in
             apply bind_Ok in H as (a & Ha & H);
             try apply or_raise_Ok in Ha
         | or_raise _ _ = Ok _ => apply or_raise_Ok in H
         | Ok _ = Ok _ => injection H as H
         end.

Lemma for_each_app {A S} (body : S → A → result S) (l1 l2 : list A) (st : S) :
  for_each body (l1 ++ l2) st = for_each body l1 st ≫= for_each body l2.
Proof.
  revert st. induction l1 as [|x l1 IH]; intros st; simpl; [done|].
  destruct (body st x); simpl; [apply IH|done].
Qed.

(** A loop whose body cannot fail is a fold. *)
Lemma for_each_total {A S} (body : S → A → result S) (f : S → A → S)
    (l : list A) (st : S) :
  (∀ s x, x ∈ l → body s x = Ok (f s x)) →
  for_each body l st = Ok (fold_left f l st).
Proof.
  revert st. induction l as [|x l IH]; intros st Hb; simpl; [done|].
  rewrite Hb by set_solver. simpl. apply IH. intros. apply Hb. set_solver.
Qed.

(** A loop that appends one result per element collects them in order. *)
Lemma for_each_collect {A B} (f : A → result B) (l : list A) (acc : list B) :
  for_each (fun res x => y ← f x; Ok (res ++ [y])) l acc
  = ys ← map_result f l; Ok (acc ++ ys).
Proof.
  revert acc. induction l as [|x l IH]; intros acc; simpl.
  - by rewrite app_nil_r.
  - destruct (f x) as [y|e]; simpl; [|done].
    rewrite IH. destruct (map_result f l); simpl; [|done].
    by rewrite <- app_assoc.
Qed.

Lemma map_result_Ok {A B} (f : A → result B) (l : list A) (ys : list B) :
  map_result f l = Ok ys ↔ Forall2 (fun x y => f x = Ok y) l ys.
Proof.
  revert ys. induction l as [|x l IH]; intros ys; simpl.
  - split; [intros [= <-]; constructor|]. by intros ->%Forall2_nil_inv_l.
  - split.
    + intros H. ok_inv H. subst ys. constructor; [done|]. by apply IH.
    + intros (y & ys' & Hy & Hys & ->)%Forall2_cons_inv_l.
      rewrite Hy. simpl. apply IH in Hys. rewrite Hys. done.
Qed.

(** ** The parsers *)

Section Parsers.

Variable host : world.

Lemma last_tagged_snoc (k : string) (items : list element) (item : element) :
  last_tagged k (items ++ [item])
  = if String.eqb (tag item) k then Some item else last_tagged k items.
Proof. unfold last_tagged. by rewrite rev_app_distr. Qed.

Lemma analysis_parse_items_total (items : list element) (d0 : gmap string pyval) :
  convertible items → ∃ d, analysis.parse_items items d0 = Ok d.
Proof.
  unfold analysis.parse_items, convertible. revert d0.
  induction items as [|item items IH]; intros d0 Hall; simpl; [eauto|].
  apply Forall_cons in Hall as [Hitem Hall].
  destruct (int_of_text (text item)) as [n|e]; [|done]. simpl. by apply IH.
Qed.

Lemma last_tagged_elem_of (k : string) (items : list element) (item : element) :
  last_tagged k items = Some item → item ∈ items ∧ tag item = k.
Proof.
  unfold last_tagged. intros [Hin Htag]%find_some.
  split; [|by apply String.eqb_eq].
  apply list_elem_of_In. by apply in_rev.
Qed.

Lemma int_value_convertible (k : string) (items : list element) (item : element) :
  convertible items → last_tagged k items = Some item →
  ∃ n, int_of_text (text item) = Ok n ∧ int_value (text item) = Some (VInt n).
Proof.
  intros Hconv [Hin _]%last_tagged_elem_of.
  unfold convertible in Hconv. rewrite Forall_forall in Hconv.
  specialize (Hconv _ Hin). unfold int_value.
  destruct (int_of_text (text item)) as [n|]; [eauto|done].
Qed.

(** The dict the new parser builds from a list of children: each tag is
    bound to [int(float(text))] of the last child that carries it. *)
Lemma analysis_parse_items_Ok (items : list element) (d0 d : gmap string pyval) :
  analysis.parse_items items d0 = Ok d →
  convertible items
  ∧ ∀ k, d !! k = match last_tagged k items with
                  | Some item => int_value (text item)
                  | None => d0 !! k
                  end.
Proof.
  unfold analysis.parse_items, convertible. revert d.
  induction items as [|item items IH] using rev_ind; intros d.
  - simpl. intros [= <-]. split; [constructor|done].
  - rewrite for_each_app, Forall_app, Forall_singleton, bind_Ok.
    intros (d1 & Hd1 & Hd). apply IH in Hd1 as [Hall Hd1]. simpl in Hd.
    destruct (int_of_text (text item)) as [n|e] eqn:Hn; simpl in Hd; [|done].
    injection Hd as <-. split; [done|]. intros k.
    rewrite last_tagged_snoc. destruct (String.eqb_spec (tag item) k) as [->|Hne].
    + rewrite lookup_insert_eq. unfold int_value. by rewrite Hn.
    + rewrite lookup_insert_ne by done. apply Hd1.
Qed.

(** The dict the older parser builds: each tag is bound to the text of
    the last child that carries it. *)
Lemma parser_parse_items_lookup (items : list element) (d0 : gmap string pyval)
    (k : string) :
  parser.parse_items items d0 !! k
  = match last_tagged k items with
    | Some item => Some (text_val item)
    | None => d0 !! k
    end.
Proof.
  unfold parser.parse_items.
  induction items as [|item items IH] using rev_ind; [done|].
  rewrite fold_left_app, last_tagged_snoc. simpl.
  destruct (String.eqb_spec (tag item) k) as [->|Hne].
  - by rewrite lookup_insert_eq.
  - by rewrite lookup_insert_ne.
Qed.

Lemma analysis_parse_object_Ok (obj : element) (d : gmap string pyval) :
  analysis.parse_object obj = Ok d →
  parsable_object obj ∧ object_dict (fun item => int_value (text item)) obj d.
Proof.
  unfold analysis.parse_object. intros H. ok_inv H.
  apply analysis_parse_items_Ok in H as [Hconv Hd].
  split; [split; [by eexists|by exists a0]|].
  exists a, a0. split; [done|]. split; [done|].
  intros k. rewrite Hd. destruct (last_tagged k (children a0)); [done|].
  case_decide as Hk.
  - subst k. by rewrite lookup_singleton_eq.
  - by rewrite lookup_singleton_ne.
Qed.

Lemma analysis_parse_object_total (obj : element) :
  parsable_object obj → ∃ d, analysis.parse_object obj = Ok d.
Proof.
  intros [[name Hname] (bbox & Hbbox & Hconv)].
  unfold analysis.parse_object. rewrite Hname. simpl. rewrite Hbbox. simpl.
  by apply analysis_parse_items_total.
Qed.

Lemma parser_parse_object_Ok (obj : element) (d : gmap string pyval) :
  parser.parse_object obj = Ok d →
  object_dict (fun item => Some (text_val item)) obj d.
Proof.
  unfold parser.parse_object. intros H. ok_inv H. subst d.
  exists a, a0. split; [done|]. split; [done|].
  intros k. rewrite parser_parse_items_lookup.
  destruct (last_tagged k (children a0)); [done|].
  case_decide as Hk.
  - subst k. by rewrite lookup_singleton_eq.
  - by rewrite lookup_singleton_ne.
Qed.

(** What a successful call of the new parser has read. *)
Lemma analysis_parse_anno_Ok (path_anno : string) (anno : annotation) :
  analysis.parse_anno host path_anno = Ok anno →
  ∃ tree fn size_el,
    xml_tree host path_anno = Ok tree
    ∧ find "filename" tree = Some fn
    ∧ find "size" tree = Some size_el
    ∧ analysis.parse_items (children size_el) ∅ = Ok (size anno)
    ∧ map_result analysis.parse_object (findall "object" tree) = Ok (object anno)
    ∧ annoname anno = Some (basename path_anno)
    ∧ filename anno = text_val fn.
Proof.
  unfold analysis.parse_anno. intros H. ok_inv H. subst anno. simpl.
  rewrite for_each_collect in Ha3. ok_inv Ha3. subst a3.
  exists a, a0, a1. by repeat split.
Qed.

Lemma analysis_parse_anno_total (path_anno : string) (tree : element) :
  xml_tree host path_anno = Ok tree →
  parsable tree → ∃ anno, analysis.parse_anno host path_anno = Ok anno.
Proof.
  intros Htree ([fn Hfn] & (size_el & Hsize & Hconv) & Hobjs).
  unfold analysis.parse_anno. rewrite Htree. simpl. rewrite Hfn. simpl.
  rewrite Hsize. simpl.
  destruct (analysis_parse_items_total _ ∅ Hconv) as [d ->]. simpl.
  rewrite for_each_collect.
  assert (∃ ds, map_result analysis.parse_object (findall "object" tree) = Ok ds)
    as [ds ->]; [|simpl; eauto].
  induction Hobjs as [|obj objs Hobj _ [ds IH]]; simpl; [eauto|].
  destruct (analysis_parse_object_total _ Hobj) as [d' ->]. simpl.
  rewrite IH. simpl. eauto.
Qed.

(** Every dict of a parsed record has the key ['name']. *)
Lemma analysis_parse_anno_named (path_anno : string) (anno : annotation) :
  analysis.parse_anno host path_anno = Ok anno →
  Forall (fun d => is_Some (d !! "name")) (object anno).
Proof.
  intros (tree & _ & _ & _ & _ & _ & _ & Hobjs & _)%analysis_parse_anno_Ok.
  apply map_result_Ok in Hobjs.
  induction Hobjs as [|obj d objs ds Hd _ IH]; constructor; [|done].
  apply analysis_parse_object_Ok in Hd as [[_ (bbox' & Hb' & Hconv)] (name & bbox & _ & Hb & Hd)].
  rewrite Hd. assert (bbox' = bbox) as -> by congruence.
  destruct (last_tagged "name" (children bbox)) as [item|] eqn:Hitem; [|by eauto].
  destruct (int_value_convertible _ _ _ Hconv Hitem) as (n & _ & ->). eauto.
Qed.

Lemma analysis_parse_anno_parsable (path_anno : string) (anno : annotation) (tree : element) :
  xml_tree host path_anno = Ok tree →
  analysis.parse_anno host path_anno = Ok anno → parsable tree.
Proof.
  intros Htree (tree' & fn & size_el & Htree' & Hfn & Hsize & Hitems & Hobjs & _)
    %analysis_parse_anno_Ok.
  assert (tree' = tree) as -> by congruence.
  split; [by eexists|]. split.
  - exists size_el. split; [done|]. by apply analysis_parse_items_Ok in Hitems as [? _].
  - apply map_result_Ok in Hobjs.
    induction Hobjs as [|obj d objs ds Hd _ IH]; constructor; [|done].
    by apply analysis_parse_object_Ok in Hd as [? _].
Qed.

Lemma for_each_Raise {A S} (body : S → A → result S) (l : list A) (st : S) (e : exn) :
  for_each body l st = Raise e → ∃ s x, x ∈ l ∧ body s x = Raise e.
Proof.
  revert st. induction l as [|x l IH]; intros st; simpl; [done|].
  destruct (body st x) as [st'|e'] eqn:Hx; simpl.
  - intros (s & y & Hy & Hb)%IH. exists s, y. split; [set_solver|done].
  - intros [= ->]. exists st, x. split; [set_solver|done].
Qed.

(** [float] raises nothing but [ValueError]. *)
Lemma float_of_ascii_Raise (l : list ascii) (e : exn) :
  float_of_ascii l = Raise e → e = ValueError.
Proof.
  unfold float_of_ascii. intros Hf.
  repeat match type of Hf with
         | context [match ?x with _ => _ end] => destruct x; try discriminate Hf
         end; congruence.
Qed.

Lemma float_of_string_Raise (s : string) (e : exn) :
  float_of_string s = Raise e → e = ValueError.
Proof.
  unfold float_of_string. destruct (code_points (chars s)) as [cps|].
  - apply float_of_ascii_Raise.
  - congruence.
Qed.

(** The conversion raises [TypeError] on a missing text, and otherwise
    [ValueError] (not a numeral, or nan) or [OverflowError] (an infinity). *)
Lemma int_of_text_Raise (t : option string) (e : exn) :
  int_of_text t = Raise e →
  (t = None ∧ e = TypeError) ∨ (t ≠ None ∧ (e = ValueError ∨ e = OverflowError)).
Proof.
  destruct t as [s|]; simpl; [|intros [= <-]; by left].
  intros H. right. split; [done|].
  destruct (float_of_string s) as [f|e'] eqn:Hf; simpl in H.
  - destruct f; simpl in H; (congruence || (injection H as <-; tauto)).
  - injection H as ->. left. by eapply float_of_string_Raise.
Qed.

Lemma analysis_parse_items_Raise (items : list element) (d0 : gmap string pyval) (e : exn) :
  analysis.parse_items items d0 = Raise e →
  e = TypeError ∨ e = ValueError ∨ e = OverflowError.
Proof.
  intros (d & item & _ & H)%for_each_Raise.
  destruct (int_of_text (text item)) as [n|e'] eqn:Hn; simpl in H; [done|].
  injection H as ->. apply int_of_text_Raise in Hn. tauto.
Qed.

(** Once the file is read as XML, the parser raises nothing but these. *)
Lemma analysis_parse_anno_Raise (path_anno : string) (tree : element) (e : exn) :
  xml_tree host path_anno = Ok tree →
  analysis.parse_anno host path_anno = Raise e →
  e = AttributeError ∨ e = TypeError ∨ e = ValueError ∨ e = OverflowError.
Proof.
  intros Htree. unfold analysis.parse_anno. rewrite Htree. simpl.
  destruct (find "filename" tree); simpl; [|intros [= <-]; tauto].
  destruct (find "size" tree) as [size_el|]; simpl; [|intros [= <-]; tauto].
  destruct (analysis.parse_items (children size_el) ∅) as [d|e'] eqn:Hd; simpl.
  2:{ intros [= ->]. apply analysis_parse_items_Raise in Hd. tauto. }
  destruct (for_each _ _ _) as [objs|e'] eqn:Hobjs; simpl; [done|].
  intros [= ->]. apply for_each_Raise in Hobjs as (res & obj & _ & Hobj).
  destruct (analysis.parse_object obj) as [d'|e'] eqn:Hd'; simpl in Hobj; [done|].
  injection Hobj as ->. unfold analysis.parse_object in Hd'.
  destruct (find "name" obj); simpl in Hd'; [|injection Hd' as <-; tauto].
  destruct (find "bndbox" obj); simpl in Hd'; [|injection Hd' as <-; tauto].
  apply analysis_parse_items_Raise in Hd'. tauto.
Qed.

(** A loop raises at its first element whose body raises. *)
Lemma for_each_Raise_iff {A S} (body : S → A → result S) (l : list A) (st : S)
    (e : exn) :
  for_each body l st = Raise e
  ↔ ∃ pre x post st',
      l = pre ++ x :: post ∧ for_each body pre st = Ok st' ∧ body st' x = Raise e.
Proof.
  revert st. induction l as [|x l IH]; intros st; simpl.
  - split; [done|]. intros (pre & y & post & st' & Hl & _). by destruct pre.
  - destruct (body st x) as [st1|e1] eqn:Hx; simpl.
    + rewrite IH. split.
      * intros (pre & y & post & st' & -> & Hpre & Hy).
        exists (x :: pre), y, post, st'. simpl. rewrite Hx. done.
      * intros (pre & y & post & st' & Hl & Hpre & Hy).
        destruct pre as [|x' pre]; simpl in Hl, Hpre.
        { injection Hl as -> ->. injection Hpre as ->. congruence. }
        injection Hl as -> ->. rewrite Hx in Hpre. simpl in Hpre.
        exists pre, y, post, st'. done.
    + split.
      * intros [= ->]. exists [], x, l, st. done.
      * intros (pre & y & post & st' & Hl & Hpre & Hy).
        destruct pre as [|x' pre]; simpl in Hl, Hpre.
        { injection Hl as -> ->. injection Hpre as ->. congruence. }
        injection Hl as -> ->. rewrite Hx in Hpre. done.
Qed.

(** The exception of a conversion tells the fault of the text. *)
Lemma int_of_text_fault (t : option string) (e : exn) :
  int_of_text t = Raise e ↔ text_fault t e.
Proof.
  split.
  - destruct t as [s|]; simpl; [|intros [= <-]; constructor].
    destruct (float_of_string s) as [[neg m ex|neg|]|e'] eqn:Hf; simpl.
    + done.
    + intros [= <-]. by econstructor.
    + intros [= <-]. by constructor.
    + intros [= ->]. pose proof (float_of_string_Raise _ _ Hf) as ->.
      by constructor.
  - intros [|s Hs|s Hs|s neg Hs]; simpl; [done|by rewrite Hs..].
Qed.

Lemma analysis_parse_items_Raise_iff (items : list element) (d0 : gmap string pyval)
    (e : exn) :
  analysis.parse_items items d0 = Raise e ↔ items_failure items e.
Proof.
  unfold analysis.parse_items at 1. rewrite for_each_Raise_iff. split.
  - intros (pre & item & post & d & -> & Hpre & Hitem).
    exists pre, item, post. split; [done|]. split.
    + by apply (analysis_parse_items_Ok pre d0 d).
    + apply int_of_text_fault.
      destruct (int_of_text (text item)); simpl in Hitem; congruence.
  - intros (pre & item & post & -> & Hpre & Hitem%int_of_text_fault).
    destruct (analysis_parse_items_total pre d0 Hpre) as [d Hd].
    exists pre, item, post, d. split; [done|]. split; [exact Hd|].
    by rewrite Hitem.
Qed.

Lemma analysis_parse_object_Raise_iff (obj : element) (e : exn) :
  analysis.parse_object obj = Raise e ↔ object_failure obj e.
Proof.
  unfold analysis.parse_object, object_failure.
  destruct (find "name" obj) as [name|]; simpl; [|split; congruence].
  destruct (find "bndbox" obj) as [bbox|]; simpl; [|split; congruence].
  apply analysis_parse_items_Raise_iff.
Qed.

Lemma analysis_parse_objects_total (objs : list element) :
  Forall parsable_object objs ↔ ∃ ds, map_result analysis.parse_object objs = Ok ds.
Proof.
  split.
  - induction 1 as [|obj objs Hobj _ [ds IH]]; simpl; [eauto|].
    destruct (analysis_parse_object_total _ Hobj) as [d' ->]. simpl.
    rewrite IH. simpl. eauto.
  - intros [ds Hds]. apply map_result_Ok in Hds.
    induction Hds as [|obj d objs ds Hd _ IH]; constructor; [|done].
    by apply analysis_parse_object_Ok in Hd as [? _].
Qed.

(** Every exception of the new parser, by its cause. *)
Lemma analysis_parse_anno_Raise_iff (path_anno : string) (tree : element) (e : exn) :
  xml_tree host path_anno = Ok tree →
  analysis.parse_anno host path_anno = Raise e ↔ failure tree e.
Proof.
  intros Htree. unfold analysis.parse_anno, failure. rewrite Htree. simpl.
  destruct (find "filename" tree) as [fn|]; simpl; [|split; congruence].
  destruct (find "size" tree) as [size_el|]; simpl; [|split; congruence].
  destruct (analysis.parse_items (children size_el) ∅) as [d|e'] eqn:Hd; simpl.
  - pose proof Hd as [Hconv _]%analysis_parse_items_Ok.
    assert (¬ items_failure (children size_el) e) as Hnot.
    { intros Hf%(analysis_parse_items_Raise_iff _ ∅). congruence. }
    rewrite for_each_collect.
    destruct (map_result analysis.parse_object (findall "object" tree))
      as [ds|e'] eqn:Hds; simpl.
    + split; [done|]. intros [?|(_ & pre & obj & post & Hl & Hpre & Hobj)]; [done|].
      exfalso. rewrite Hl in Hds. apply map_result_Ok in Hds.
      apply Forall2_app_inv_l in Hds as (ds1 & ds2 & _ & Hds2 & _).
      apply Forall2_cons_inv_l in Hds2 as (d' & ds3 & Hd' & _).
      apply analysis_parse_object_Raise_iff in Hobj. congruence.
    + assert (for_each (fun res obj => d ← analysis.parse_object obj; Ok (res ++ [d]))
                       (findall "object" tree) [] = Raise e') as Hloop.
      { by rewrite for_each_collect, Hds. }
      apply for_each_Raise_iff in Hloop as (pre & obj & post & res & Hl & Hpre & Hobj).
      rewrite for_each_collect in Hpre. apply bind_Ok in Hpre as (ds & Hds' & _).
      assert (analysis.parse_object obj = Raise e') as Hobj'.
      { destruct (analysis.parse_object obj); simpl in Hobj; congruence. }
      assert (Forall parsable_object pre) as Hpp.
      { apply analysis_parse_objects_total. eauto. }
      split.
      * intros [= ->]. right. split; [done|]. exists pre, obj, post.
        split; [done|]. split; [done|]. by apply analysis_parse_object_Raise_iff.
      * intros [?|(_ & pre' & obj' & post' & Hl' & Hpre' & Hobj'')]; [done|].
        assert (map_result analysis.parse_object (pre' ++ obj' :: post') = Raise e) as He.
        { apply analysis_parse_objects_total in Hpre' as [ds' Hds''].
          apply analysis_parse_object_Raise_iff in Hobj''.
          clear -Hds'' Hobj''. revert ds' Hds''.
          induction pre' as [|x pre' IH]; intros ds' Hds''; simpl.
          - by rewrite Hobj''.
          - simpl in Hds''. ok_inv Hds''. rewrite Ha. simpl.
            by rewrite (IH _ Ha0). }
        rewrite <- Hl', Hds in He. congruence.
  - apply analysis_parse_items_Raise_iff in Hd as Hf. split.
    + intros [= ->]. by left.
    + intros [Hf'|(Hconv & _)].
      * apply (analysis_parse_items_Raise_iff _ ∅) in Hf'. congruence.
      * destruct (analysis_parse_items_total _ ∅ Hconv) as [d Hd']. congruence.
Qed.

End Parsers.

(** C4 (as stated, refuted). An annotation without a width, and with a
    box that has only [xmin], is parsed without any error: the keys are
    just absent. A width that is not a numeral raises [ValueError], not
    [ParseError]. *)
Lemma parse_anno_missing_width :
  (∃ anno, analysis.parse_anno docs_host "a.xml" = Ok anno
           ∧ size anno !! "width" = None
           ∧ object anno = [{[ "name" := VStr "cat"; "xmin" := VInt 904 ]}])
  ∧ analysis.parse_anno docs_host "b.xml" = Raise ValueError.
Proof.
  split; [|vm_compute; reflexivity].
  eexists. split; [vm_compute; reflexivity|]. split; vm_compute; reflexivity.
Qed.

(** ** The two parsers side by side *)

(** The text of an element is a string or [None], never a number. *)
Lemma text_val_not_int (item : element) (n : Z) : text_val item ≠ VInt n.
Proof. unfold text_val. by destruct (text item). Qed.

Lemma parse_object_both (obj : element) (da : gmap string pyval) :
  analysis.parse_object obj = Ok da →
  ∃ db, parser.parse_object obj = Ok db
        ∧ object_dict (fun item => int_value (text item)) obj da
        ∧ object_dict (fun item => Some (text_val item)) obj db
        ∧ numbers_for_texts da db
        ∧ ((∀ bbox, find "bndbox" obj = Some bbox →
              Forall (fun item => tag item ∈ coordinate_tags) (children bbox)) →
           named_by obj da ∧ named_by obj db ∧ da !! "name" = db !! "name").
Proof.
  intros Ha.
  pose proof Ha as [[_ (bbox0 & Hbbox0 & Hconv)] Hoa]%analysis_parse_object_Ok.
  pose proof Hoa as (name & bbox & Hname & Hbbox & Hda).
  assert (bbox0 = bbox) as -> by congruence.
  exists (parser.parse_items (children bbox) {[ "name" := text_val name ]}).
  assert (parser.parse_object obj
          = Ok (parser.parse_items (children bbox) {[ "name" := text_val name ]})) as Hb.
  { unfold parser.parse_object. rewrite Hname. simpl. by rewrite Hbbox. }
  split; [done|]. split; [done|].
  pose proof Hb as Hob%parser_parse_object_Ok. split; [done|].
  destruct Hob as (name' & bbox' & Hname' & Hbbox' & Hdb).
  assert (name' = name) as -> by congruence.
  assert (bbox' = bbox) as -> by congruence.
  split.
  - intros k Hk. rewrite Hda, Hdb.
    destruct (last_tagged k (children bbox)) as [item|] eqn:Hitem.
    + intros _. destruct (int_value_convertible _ _ _ Hconv Hitem) as (n & _ & ->).
      split; [eauto|]. intros [= Hn]. by eapply text_val_not_int.
    + rewrite decide_False by done. by intros [? ?].
  - intros Hwf.
    assert (last_tagged "name" (children bbox) = None) as Hnone.
    { destruct (last_tagged "name" (children bbox)) as [item|] eqn:Hitem; [|done].
      apply last_tagged_elem_of in Hitem as [Hin Htag].
      specialize (Hwf _ Hbbox). rewrite Forall_forall in Hwf.
      specialize (Hwf _ Hin). rewrite Htag in Hwf. exfalso.
      unfold coordinate_tags in Hwf. set_solver. }
    assert (da !! "name" = Some (text_val name)) as Hna by (by rewrite Hda, Hnone).
    assert (parser.parse_items (children bbox) {["name" := text_val name]} !! "name"
            = Some (text_val name)) as Hnb by (by rewrite Hdb, Hnone).
    split; [by exists name|]. split; [by exists name|]. by rewrite Hna, Hnb.
Qed.

Lemma parse_objects_both (objs : list element) (das : list (gmap string pyval)) :
  map_result analysis.parse_object objs = Ok das →
  ∃ dbs, map_result parser.parse_object objs = Ok dbs
         ∧ Forall2 (object_dict (fun item => int_value (text item))) objs das
         ∧ Forall2 (object_dict (fun item => Some (text_val item))) objs dbs
         ∧ Forall2 numbers_for_texts das dbs
         ∧ (Forall (fun obj => ∀ bbox, find "bndbox" obj = Some bbox →
                      Forall (fun item => tag item ∈ coordinate_tags) (children bbox)) objs →
            Forall2 named_by objs das ∧ Forall2 named_by objs dbs
            ∧ Forall2 (fun da db => da !! "name" = db !! "name") das dbs).
Proof.
  revert das. induction objs as [|obj objs IH]; intros das; simpl.
  - intros [= <-]. exists []. by repeat split; constructor.
  - intros H. ok_inv H. subst das.
    destruct (parse_object_both _ _ Ha) as (db & -> & Hoa & Hob & Hnum & Hname).
    destruct (IH _ Ha0) as (dbs & -> & Hoas & Hobs & Hnums & Hnames). simpl.
    exists (db :: dbs). split; [done|]. do 3 (split; [by constructor|]).
    intros [Hwf Hwfs]%Forall_cons.
    destruct (Hname Hwf) as (? & ? & ?). destruct (Hnames Hwfs) as (? & ? & ?).
    by repeat split; constructor.
Qed.

(** C9. Where the new parser succeeds the older one succeeds too. Both
    hold the text of the filename element, and on a well-formed
    annotation the text of every object's name element. Under every tag
    of the size and of a bndbox the older one holds the text of the
    element as it stands, the new one [int(float(text))] of that same
    text, 1216 for "1216.0": wherever the older record has such a field
    the new one has a number that differs from it. The new one adds the
    base name of the annotation file, which the older one does not have.
    So the two results are never equal, and their sizes are not as soon
    as the size has a child. *)
Theorem parse_anno_copies_differ (host : world) (path_anno : string) (a : annotation) :
  analysis.parse_anno host path_anno = Ok a →
  ∃ tree fn size_el b,
    xml_tree host path_anno = Ok tree
    ∧ find "filename" tree = Some fn
    ∧ find "size" tree = Some size_el
    ∧ parser.parse_anno host path_anno = Ok b
    ∧ (filename a = text_val fn ∧ filename b = text_val fn)
    ∧ (well_formed tree →
       Forall2 named_by (findall "object" tree) (object a)
       ∧ Forall2 named_by (findall "object" tree) (object b)
       ∧ Forall2 (fun da db => da !! "name" = db !! "name") (object a) (object b))
    ∧ (∀ k, size a !! k
            = item ← last_tagged k (children size_el); int_value (text item))
    ∧ int_value (Some "1216.0") = Some (VInt 1216)
    ∧ (∀ k, size b !! k = text_val <$> last_tagged k (children size_el))
    ∧ Forall2 (object_dict (fun item => int_value (text item)))
              (findall "object" tree) (object a)
    ∧ Forall2 (object_dict (fun item => Some (text_val item)))
              (findall "object" tree) (object b)
    ∧ (∀ k, is_Some (size b !! k) →
         (∃ n, size a !! k = Some (VInt n)) ∧ size a !! k ≠ size b !! k)
    ∧ Forall2 numbers_for_texts (object a) (object b)
    ∧ (children size_el ≠ [] → size a ≠ size b)
    ∧ (annoname a = Some (basename path_anno) ∧ annoname b = None)
    ∧ analysis.parse_anno host path_anno ≠ parser.parse_anno host path_anno.
Proof.
  intros Ha.
  pose proof Ha as (tree & fn & size_el & Htree & Hfn & Hsize & Hitems & Hobjs & Hanno & Hfile)
    %analysis_parse_anno_Ok.
  destruct (parse_objects_both _ _ Hobjs) as (dbs & Hdbs & Hoas & Hobs & Hnums & Hnames).
  set (b := {| annoname := None; filename := text_val fn;
               size := parser.parse_items (children size_el) ∅; object := dbs |}).
  assert (parser.parse_anno host path_anno = Ok b) as Hb.
  { unfold parser.parse_anno. rewrite Htree. simpl. rewrite Hfn. simpl.
    rewrite Hsize. simpl. rewrite for_each_collect, Hdbs. done. }
  apply analysis_parse_items_Ok in Hitems as [Hconvertible Hsa].
  assert (∀ k, size a !! k
               = item ← last_tagged k (children size_el); int_value (text item)) as Hsa'.
  { intros k. rewrite Hsa. by destruct (last_tagged k (children size_el)). }
  assert (∀ k, size b !! k = text_val <$> last_tagged k (children size_el)) as Hsb.
  { intros k. simpl. rewrite parser_parse_items_lookup.
    by destruct (last_tagged k (children size_el)). }
  assert (∀ k, is_Some (size b !! k) →
            (∃ n, size a !! k = Some (VInt n)) ∧ size a !! k ≠ size b !! k) as Hdiff.
  { intros k. rewrite Hsa', Hsb.
    destruct (last_tagged k (children size_el)) as [item|] eqn:Hitem; simpl.
    - intros _. destruct (int_value_convertible _ _ _ Hconvertible Hitem) as (n & _ & ->).
      split; [eauto|]. intros [= Hn]. by eapply text_val_not_int.
    - by intros [? ?]. }
  exists tree, fn, size_el, b.
  do 4 (split; [done|]). split; [done|]. split; [exact Hnames|].
  split; [done|]. split; [by vm_compute|].
  do 5 (split; [done|]). split; [|split; [done|]].
  - intros Hne Heq.
    destruct (children size_el) as [|item0 items] eqn:Hch using rev_ind; [done|].
    clear IHitems. destruct (Hdiff (tag item0)) as [_ Hk].
    + rewrite Hsb, last_tagged_snoc, String.eqb_refl. by eexists.
    + by rewrite Heq in Hk.
  - rewrite Ha, Hb. intros [= Heq]. rewrite Heq in Hanno. done.
Qed.

Lemma parse_anno_copies_differ_witness :
  ∃ a b, analysis.parse_anno sample_host "annos/image.xml" = Ok a
         ∧ parser.parse_anno sample_host "annos/image.xml" = Ok b
         ∧ size a !! "width" = Some (VInt 1621)
         ∧ size b !! "width" = Some (VStr "1621")
         ∧ size a ≠ size b.
Proof.
  assert (∃ a, analysis.parse_anno sample_host "annos/image.xml" = Ok a
               ∧ size a !! "width" = Some (VInt 1621)) as (a & Ha & Hwa).
  { eexists. split; vm_compute; reflexivity. }
  destruct (parse_anno_copies_differ sample_host "annos/image.xml" a Ha)
    as (tree & fn & size_el & b & Htree & _ & Hsize & Hb & _ & _ & _ & _ & Hsb & _ & _
        & _ & _ & Hne & _).
  exists a, b. split; [exact Ha|]. split; [exact Hb|]. split; [exact Hwa|].
  assert (tree = sample_doc) as ->.
  { vm_compute in Htree. by injection Htree as <-. }
  vm_compute in Hsize. injection Hsize as <-. split.
  - rewrite Hsb. vm_compute. reflexivity.
  - apply Hne. discriminate.
Defined.

(** ** The distribution *)

Section Distribution.

Variable host : world.

Lemma for_each_concat {A S} (body : S → A → result S) {B} (g : B → list A)
    (l : list B) (st : S) :
  for_each (fun st b => for_each body (g b) st) l st
  = for_each body (concat (map g l)) st.
Proof.
  revert st. induction l as [|b l IH]; intros st; simpl; [done|].
  rewrite for_each_app. destruct (for_each body (g b) st); simpl; [apply IH|done].
Qed.

Lemma occurrences_cons (k name : pyval) (names : list pyval) :
  occurrences k (name :: names)
  = (if decide (name = k) then 1 else 0) + occurrences k names.
Proof.
  unfold occurrences. rewrite filter_cons. case_decide; simpl; lia.
Qed.

Lemma occurrences_nonneg (k : pyval) (names : list pyval) : 0 <= occurrences k names.
Proof. unfold occurrences. lia. Qed.

Lemma count_object_Ok (d : gmap pyval Z) (obj : gmap string pyval) (name : pyval) (t : Z) :
  obj !! "name" = Some name →
  d !! VStr "N" = Some t →
  analysis.count_object d obj
  = Ok (<[VStr "N" := t + (if decide (name = VStr "N") then 1 else 0) + 1]>
          (<[name := default 0 (d !! name) + 1]> d)).
Proof.
  intros Hname Ht. unfold analysis.count_object, getitem. rewrite Hname. simpl.
  case_decide as Hn.
  - subst name. rewrite lookup_insert_eq, Ht. simpl. done.
  - rewrite lookup_insert_ne by done. rewrite Ht. simpl.
    by rewrite Z.add_0_r.
Qed.

(** The counting loop: the key N receives one per box and one more per
    box called N; every other key receives one per box of that name. *)
Lemma count_objects_loop (objs : list (gmap string pyval)) (names : list pyval)
    (d : gmap pyval Z) (t : Z) :
  Forall2 (fun obj name => obj !! "name" = Some name) objs names →
  d !! VStr "N" = Some t →
  ∃ d', for_each analysis.count_object objs d = Ok d'
        ∧ d' !! VStr "N"
          = Some (t + Z.of_nat (length names) + occurrences (VStr "N") names)
        ∧ ∀ k, k ≠ VStr "N" →
            d' !! k = if decide (occurrences k names = 0) then d !! k
                      else Some (default 0 (d !! k) + occurrences k names).
Proof.
  intros Hobjs. revert d t.
  induction Hobjs as [|obj name objs names Hname _ IH]; intros d t Ht.
  - exists d. split; [done|]. split.
    + rewrite Ht. f_equal. unfold occurrences. simpl. lia.
    + intros k _. by rewrite decide_True.
  - simpl. rewrite (count_object_Ok _ _ _ _ Hname Ht). simpl.
    set (d1 := <[name := default 0 (d !! name) + 1]> d).
    set (t1 := t + (if decide (name = VStr "N") then 1 else 0)).
    destruct (IH (<[VStr "N" := t1 + 1]> d1) (t1 + 1)) as (d' & Hd' & HN & Hk).
    { by rewrite lookup_insert_eq. }
    exists d'. split; [done|]. split.
    + rewrite HN, occurrences_cons. f_equal. simpl. unfold t1. lia.
    + intros k Hne. rewrite (Hk k Hne), occurrences_cons.
      rewrite lookup_insert_ne by done. unfold d1.
      pose proof (occurrences_nonneg k names).
      destruct (decide (name = k)) as [->|Hnk].
      * rewrite lookup_insert_eq. simpl.
        rewrite (decide_False (P := 1 + _ = 0)) by lia.
        case_decide; f_equal; lia.
      * rewrite lookup_insert_ne by done.
        repeat case_decide; try lia; try done.
Qed.

Lemma occurrences_zero (k : pyval) (names : list pyval) :
  occurrences k names = 0 ↔ k ∉ names.
Proof.
  induction names as [|name names IH].
  - split; [set_solver|done].
  - rewrite occurrences_cons, not_elem_of_cons.
    pose proof (occurrences_nonneg k names).
    destruct (decide (name = k)) as [->|Hne].
    + split; [lia|]. intros [? _]. done.
    + rewrite Z.add_0_l, IH. split; [by split|by intros [_ ?]].
Qed.

Lemma box_names_Forall2 (objs : list (gmap string pyval)) :
  Forall (fun d => is_Some (d !! "name")) objs →
  Forall2 (fun obj name => obj !! "name" = Some name) objs
          (omap (fun obj => obj !! "name") objs).
Proof.
  induction 1 as [|obj objs [name Hname] _ IH]; simpl; [constructor|].
  rewrite Hname. by constructor.
Qed.

Lemma parse_annos_named (path_anno_folder : string) (annos : list annotation) :
  analysis.parse_annos host path_anno_folder = Ok annos →
  Forall (fun d => is_Some (d !! "name")) (boxes annos).
Proof.
  unfold analysis.parse_annos. intros H. ok_inv H.
  apply map_result_Ok in H. unfold boxes.
  induction H as [|p anno ps annos Hp _ IH]; simpl; [constructor|].
  apply Forall_app. split; [|done]. by eapply analysis_parse_anno_named.
Qed.

End Distribution.

(** C10. The value [distribution] returns under the key N is the number
    of boxes plus the number of boxes whose class is called N; it is the
    number of boxes exactly when no box is called N. Every other class
    that occurs is mapped to its number of boxes, and a class called N
    has no entry of its own. The report changes nothing in the result. *)
Theorem distribution_total_key (host : world) (path_anno_folder : string)
    (verbose : bool) (annos : list annotation) (d : gmap pyval Z) :
  analysis.parse_annos host path_anno_folder = Ok annos →
  analysis.distribution host path_anno_folder verbose = Ok d →
  length (box_names annos) = length (boxes annos)
  ∧ d !! VStr "N"
    = Some (Z.of_nat (length (boxes annos))
            + occurrences (VStr "N") (box_names annos))
  ∧ (d !! VStr "N" = Some (Z.of_nat (length (boxes annos)))
     ↔ VStr "N" ∉ box_names annos)
  ∧ (∀ k, k ≠ VStr "N" →
       d !! k = if decide (k ∈ box_names annos)
                then Some (occurrences k (box_names annos)) else None)
  ∧ analysis.distribution host path_anno_folder false = Ok d.
Proof.
  intros Hannos Hd. unfold analysis.distribution in *. rewrite Hannos in *.
  simpl in *. unfold analysis.count_objects in *.
  rewrite for_each_concat in *. fold (boxes annos) in *.
  pose proof (box_names_Forall2 _ (parse_annos_named _ _ _ Hannos)) as Hnames.
  fold (box_names annos) in Hnames.
  destruct (count_objects_loop _ _ {[VStr "N" := 0]} 0 Hnames)
    as (d' & Hd' & HN & Hk); [by rewrite lookup_singleton_eq|].
  rewrite Hd' in *. simpl in *.
  assert (d = d') as ->.
  { destruct verbose; simpl in Hd; [|congruence].
    destruct (analysis.report d'); simpl in Hd; congruence. }
  assert (length (box_names annos) = length (boxes annos)) as Hlen.
  { symmetry. by eapply Forall2_length. }
  split; [done|]. split; [rewrite HN, Hlen; f_equal; lia|].
  split; [|split; [|done]].
  - rewrite HN, Hlen, <- occurrences_zero. split; [intros [= ?]; lia|].
    intros ->. f_equal. lia.
  - intros k Hne. rewrite (Hk k Hne), lookup_singleton_ne by done.
    pose proof (occurrences_zero k (box_names annos)).
    repeat case_decide; naive_solver.
Qed.

Lemma distribution_total_key_witness :
  ∃ annos d,
    analysis.parse_annos n_host "annos" = Ok annos
    ∧ analysis.distribution n_host "annos" false = Ok d
    ∧ d !! VStr "N"
      = Some (Z.of_nat (length (boxes annos))
              + occurrences (VStr "N") (box_names annos)).
Proof.
  assert (∃ annos, analysis.parse_annos n_host "annos" = Ok annos) as [annos Ha].
  { vm_compute. eexists. reflexivity. }
  assert (∃ d, analysis.distribution n_host "annos" false = Ok d) as [d Hd].
  { vm_compute. eexists. reflexivity. }
  exists annos, d. split; [exact Ha|]. split; [exact Hd|].
  exact (proj1 (proj2 (distribution_total_key n_host "annos" false annos d Ha Hd))).
Defined.

(** C7 (evaluated where the code departs from the claim). Over a folder
    whose only box is of a class called N, [distribution] returns the
    single entry N: 2, where the total should be 1 and the class N should
    count 1. Over a folder of annotations without boxes it returns N: 0
    and nothing else, but with the report asked for it raises
    [ZeroDivisionError]. *)
Theorem distribution_class_called_N :
  analysis.distribution n_host "annos" false = Ok {[ VStr "N" := 2 ]}
  ∧ (boxes <$> analysis.parse_annos n_host "annos")
    = Ok [ {[ "name" := VStr "N"; "xmin" := VInt 904; "ymin" := VInt 674;
              "xmax" := VInt 926; "ymax" := VInt 695 ]} ]
  ∧ analysis.distribution boxless_host "annos" false = Ok {[ VStr "N" := 0 ]}
  ∧ analysis.distribution boxless_host "annos" true = Raise ZeroDivisionError.
Proof. repeat split; vm_compute; reflexivity. Qed.

(** ** Rounding *)

Section Rounding.

(** The rounded quotient is within half a unit of the exact one. *)
Lemma round_half_even_error (n d : Z) :
  0 < d →
  - d <= 2 * (round_half_even n d * d - n) <= d.
Proof.
  intros Hd. unfold round_half_even.
  pose proof (Z.div_mod n d ltac:(lia)) as Hdm.
  pose proof (Z.mod_pos_bound n d Hd) as Hr.
  destruct (Z.compare_spec (2 * (n mod d)) d); [|nia..].
  destruct (Z.even (n / d)); nia.
Qed.

Lemma round_half_even_nonneg (n d : Z) :
  0 <= n → 0 < d → 0 <= round_half_even n d.
Proof.
  intros Hn Hd. unfold round_half_even.
  pose proof (Z.div_pos n d Hn Hd).
  destruct (_ ?= _); [destruct (Z.even _)|..]; lia.
Qed.

(** Rounding does not cross an integer. *)
Lemma round_half_even_le (n d K : Z) :
  0 < d → n <= K * d → round_half_even n d <= K.
Proof.
  intros Hd Hn. unfold round_half_even.
  pose proof (Z.div_mod n d ltac:(lia)) as Hdm.
  pose proof (Z.mod_pos_bound n d Hd) as Hr.
  assert (n / d <= K) as Hq by nia.
  assert (n / d = K → n mod d = 0) as Hexact by nia.
  destruct (Z.compare_spec (2 * (n mod d)) d); [|lia|].
  - destruct (Z.even (n / d)); [lia|]. destruct (decide (n / d = K)); [|lia].
    specialize (Hexact ltac:(done)). lia.
  - destruct (decide (n / d = K)); [|lia]. specialize (Hexact ltac:(done)). lia.
Qed.

Lemma ilog2_frac_le (n d : Z) : ilog2_frac n d <= Z.log2 n - Z.log2 d.
Proof.
  unfold ilog2_frac. cbv zeta.
  match goal with |- context [if ?b then _ - 1 else _] => destruct b end; lia.
Qed.

Lemma round_exp_le (n d : Z) (K : Z) :
  Z.log2 n - Z.log2 d <= K → -1022 <= K → round_exp n d <= K - 52.
Proof.
  intros. unfold round_exp. pose proof (ilog2_frac_le n d). lia.
Qed.

(** A quotient of at most one is rounded to at most one: the mantissa
    stays below the reciprocal of its unit. *)
Lemma round_mag_le_1 (n d m e : Z) :
  0 <= n <= d → 0 < d → round_mag n d = (m, e) →
  e <= 0 ∧ 0 <= m <= 2 ^ (- e).
Proof.
  intros Hn Hd. unfold round_mag.
  destruct (Z.eqb_spec n 0) as [->|Hn0].
  { intros [= <- <-]. split; [lia|]. split; [lia|]. by apply Z.pow_nonneg. }
  assert (round_exp n d <= -52) as He.
  { apply (round_exp_le n d 0); [|lia].
    pose proof (Z.log2_le_mono n d ltac:(lia)). lia. }
  set (e0 := round_exp n d) in *.
  unfold scale. destruct (Z.leb_spec 0 e0); [lia|].
  set (m0 := round_half_even (n * 2 ^ (- e0)) d).
  assert (0 < 2 ^ (- e0)) as Hpow by (apply Z.pow_pos_nonneg; lia).
  assert (0 <= m0 <= 2 ^ (- e0)) as Hm0.
  { split.
    - apply round_half_even_nonneg; nia.
    - apply round_half_even_le; nia. }
  destruct (Z.eqb_spec m0 (2 ^ 53)) as [Hm|Hm]; intros [= <- <-].
  - assert (53 <= - e0) as He53.
    { apply (Z.pow_le_mono_r_iff 2); lia. }
    split; [lia|]. split; [lia|].
    apply Z.pow_le_mono_r; lia.
  - split; [lia|done].
Qed.

(** *** Powers of two among the rationals *)

Lemma inject_Z_minus (x y : Z) : inject_Z (x - y) = (inject_Z x - inject_Z y)%Q.
Proof. unfold Z.sub, Qminus. by rewrite inject_Z_plus, inject_Z_opp. Qed.

Lemma pow2_pos (e : Z) : (0 < pow2 e)%Q.
Proof. apply Qpower_0_lt. reflexivity. Qed.

Lemma pow2_add (a b : Z) : (pow2 (a + b) == pow2 a * pow2 b)%Q.
Proof. apply Qpower_plus. discriminate. Qed.

Lemma pow2_Z (e : Z) : 0 <= e → (pow2 e == inject_Z (2 ^ e))%Q.
Proof. intros He. unfold pow2. symmetry. by apply Zpower_Qpower. Qed.

Lemma pow2_inv (e : Z) : (pow2 e * pow2 (- e) == 1)%Q.
Proof. rewrite <- pow2_add, Z.add_opp_diag_r. reflexivity. Qed.

Lemma pow2_le (a b : Z) : a <= b → (pow2 a <= pow2 b)%Q.
Proof. intros Hab. apply Qpower_le_compat_l; [done|]. discriminate. Qed.

(** [ilog2_frac n d] is not above the logarithm of [n / d]. *)
Lemma ilog2_frac_lower (n d : Z) :
  0 < n → 0 < d → (inject_Z d * pow2 (ilog2_frac n d) <= inject_Z n)%Q.
Proof.
  intros Hn Hd.
  destruct (Z.log2_spec n Hn) as [Hn1 Hn2].
  destruct (Z.log2_spec d Hd) as [Hd1 Hd2].
  pose proof (Z.log2_nonneg n) as Hln. pose proof (Z.log2_nonneg d) as Hld.
  unfold ilog2_frac. set (k := Z.log2 n - Z.log2 d).
  cbv zeta.
  match goal with |- context [if ?b then _ - 1 else _] => destruct b eqn:Hb end.
  - assert (inject_Z d < pow2 (Z.log2 d + 1))%Q as HdQ.
    { rewrite pow2_Z by lia. rewrite <- Zlt_Qlt. lia. }
    assert (pow2 (Z.log2 n) <= inject_Z n)%Q as HnQ.
    { rewrite pow2_Z by lia. by rewrite <- Zle_Qle. }
    assert (pow2 (Z.log2 n) == pow2 (Z.log2 d + 1) * pow2 (k - 1))%Q as Hsplit.
    { rewrite <- pow2_add. unfold k. f_equiv. lia. }
    pose proof (pow2_pos (k - 1)). nra.
  - destruct (Z.leb_spec 0 k) as [Hk|Hk].
    + apply Z.ltb_ge in Hb. rewrite pow2_Z by done.
      rewrite <- inject_Z_mult, <- Zle_Qle. lia.
    + apply Z.ltb_ge in Hb.
      assert (inject_Z d <= inject_Z n * pow2 (- k))%Q as HQ.
      { rewrite pow2_Z by lia. rewrite <- inject_Z_mult, <- Zle_Qle. lia. }
      apply Qle_trans with (inject_Z n * pow2 (- k) * pow2 k)%Q.
      * apply Qmult_le_compat_r; [done|]. apply Qlt_le_weak, pow2_pos.
      * rewrite <- Qmult_assoc, (Qmult_comm (pow2 (- k))), pow2_inv, Qmult_1_r.
        apply Qle_refl.
Qed.

(** The unit in which [n / d] is rounded is at most [2^-52] of it, or
    the least unit there is. *)
Lemma round_exp_ulp (n d : Z) :
  0 < n → 0 < d →
  (inject_Z d * pow2 (round_exp n d)
   <= inject_Z n * pow2 (-52) + inject_Z d * pow2 (-1074))%Q.
Proof.
  intros Hn Hd. unfold round_exp.
  assert (0 < inject_Z n)%Q as HnQ by (rewrite <- (Zlt_Qlt 0); lia).
  assert (0 < inject_Z d)%Q as HdQ by (rewrite <- (Zlt_Qlt 0); lia).
  pose proof (pow2_pos (-52)). pose proof (pow2_pos (-1074)).
  destruct (Z.max_spec (ilog2_frac n d - 52) (-1074)) as [[_ ->]|[_ ->]].
  - nra.
  - replace (ilog2_frac n d - 52) with (ilog2_frac n d + -52) by lia.
    rewrite pow2_add. pose proof (ilog2_frac_lower n d Hn Hd).
    pose proof (pow2_pos (ilog2_frac n d)). nra.
Qed.

(** The rounded magnitude is within half a unit of [n / d]. *)
Lemma round_mag_error (n d m e : Z) :
  0 < n → 0 < d → round_mag n d = (m, e) →
  0 <= m
  ∧ (Qabs (inject_Z m * pow2 e * inject_Z d - inject_Z n)
     <= inject_Z d * pow2 (round_exp n d) * (1 # 2))%Q.
Proof.
  intros Hn Hd. unfold round_mag.
  destruct (Z.eqb_spec n 0) as [|_]; [lia|].
  set (e0 := round_exp n d).
  assert (∃ n' d', scale n d e0 = (n', d') ∧ 0 <= n' ∧ 0 < d'
     ∧ (∀ m0 : Z, - d' <= 2 * (m0 * d' - n') <= d' →
          (Qabs (inject_Z m0 * pow2 e0 * inject_Z d - inject_Z n)
           <= inject_Z d * pow2 e0 * (1 # 2))%Q)) as (n' & d' & -> & Hn' & Hd' & Herr).
  { unfold scale. destruct (Z.leb_spec 0 e0) as [He|He].
    - exists n, (d * 2 ^ e0).
      assert (0 < 2 ^ e0) by (apply Z.pow_pos_nonneg; lia).
      split; [done|]. split; [lia|]. split; [nia|].
      intros m0 Hm0. rewrite pow2_Z by done.
      apply Qabs_Qle_condition.
      rewrite <- !inject_Z_mult, <- inject_Z_minus.
      set (x := m0 * 2 ^ e0 * d - n). set (y := d * 2 ^ e0).
      assert (- y <= 2 * x <= y) as Hxy by (unfold x, y; lia).
      assert (inject_Z (- y) <= inject_Z (2 * x) <= inject_Z y)%Q as [H1 H2].
      { by rewrite <- !Zle_Qle. }
      rewrite inject_Z_opp in H1. rewrite inject_Z_mult in H1, H2.
      change (inject_Z 2) with 2%Q in *. lra.
    - exists (n * 2 ^ (- e0)), d.
      assert (0 < 2 ^ (- e0)) by (apply Z.pow_pos_nonneg; lia).
      split; [done|]. split; [nia|]. split; [done|].
      intros m0 Hm0.
      assert (inject_Z (- d) <= inject_Z (2 * (m0 * d - n * 2 ^ (- e0)))
              <= inject_Z d)%Q as [H1 H2].
      { by rewrite <- !Zle_Qle. }
      rewrite inject_Z_opp in H1.
      rewrite inject_Z_mult, inject_Z_minus, !inject_Z_mult in H1, H2.
      rewrite <- pow2_Z in H1, H2 by lia.
      change (inject_Z 2) with 2%Q in *.
      pose proof (pow2_inv e0) as Hinv. pose proof (pow2_pos e0) as Hpos.
      set (P := pow2 e0) in *. set (P' := pow2 (- e0)) in *.
      set (M := inject_Z m0) in *. set (D := inject_Z d) in *. set (N := inject_Z n) in *.
      apply Qabs_Qle_condition.
      assert (M * P * D - N == (M * D - N * P') * P)%Q as ->.
      { transitivity (M * D * P - N * (P * P'))%Q; [rewrite Hinv|]; ring. }
      split; nra. }
  set (m0 := round_half_even n' d').
  pose proof (round_half_even_error n' d' Hd') as Hm0. fold m0 in Hm0.
  pose proof (round_half_even_nonneg n' d' Hn' Hd') as Hm0'. fold m0 in Hm0'.
  specialize (Herr m0 Hm0).
  destruct (Z.eqb_spec m0 (2 ^ 53)) as [Hm|Hm]; intros [= <- <-].
  - split; [lia|].
    assert (inject_Z (2 ^ 52) * pow2 (e0 + 1) == inject_Z m0 * pow2 e0)%Q as ->; [|done].
    rewrite Hm, pow2_add. change (pow2 1) with 2%Q.
    change (inject_Z (2 ^ 53)) with (inject_Z (2 ^ 52) * 2)%Q. ring.
  - done.
Qed.

(** *** The division of two [int]s *)

Lemma truediv_Ok (a b : Z) (f : float) :
  truediv a b = Ok f →
  b ≠ 0 ∧ ∃ m e, round_mag (Z.abs a) (Z.abs b) = (m, e)
                 ∧ f = Finite (xorb (a <? 0) (b <? 0)) m e.
Proof.
  unfold truediv, float_of_frac. destruct (Z.eqb_spec b 0); [done|].
  destruct (round_mag (Z.abs a) (Z.abs b)) as [m e].
  destruct (971 <? e); [done|]. intros [= <-]. eauto.
Qed.

(** The quotient is exact up to a relative error of [2^-53] and an
    absolute error of [2^-1075]. *)
Lemma truediv_error (a b : Z) (f : float) :
  truediv a b = Ok f →
  (Qabs (F2Q f * inject_Z b - inject_Z a)
   <= inject_Z (Z.abs a) * pow2 (-53) + inject_Z (Z.abs b) * pow2 (-1075))%Q.
Proof.
  intros (Hb & m & e & Hme & ->)%truediv_Ok.
  assert (0 <= inject_Z (Z.abs a))%Q as Ha' by (rewrite <- (Zle_Qle 0); lia).
  assert (0 <= inject_Z (Z.abs b))%Q as Hb' by (rewrite <- (Zle_Qle 0); lia).
  pose proof (pow2_pos (-53)) as H53. pose proof (pow2_pos (-1075)) as H1075.
  destruct (decide (a = 0)) as [->|Ha].
  { change (round_mag (Z.abs 0) (Z.abs b)) with (0, -1074) in Hme.
    injection Hme as <- <-. unfold F2Q.
    assert (inject_Z (if xorb (0 <? 0) (b <? 0) then - 0 else 0) = 0%Q) as ->
      by by destruct (xorb _ _).
    apply Qabs_Qle_condition. change (inject_Z 0) with 0%Q in *.
    set (X := pow2 (-1074)). nra. }
  destruct (round_mag_error (Z.abs a) (Z.abs b) m e ltac:(lia) ltac:(lia) Hme)
    as [Hm Herr].
  pose proof (round_exp_ulp (Z.abs a) (Z.abs b) ltac:(lia) ltac:(lia)) as Hulp.
  assert (pow2 (-52) * (1 # 2) == pow2 (-53))%Q as H52 by reflexivity.
  assert (pow2 (-1074) * (1 # 2) == pow2 (-1075))%Q as H1074 by reflexivity.
  apply Qabs_Qle_condition in Herr. apply Qabs_Qle_condition.
  set (A := inject_Z (Z.abs a)) in *. set (B := inject_Z (Z.abs b)) in *.
  set (P := pow2 e) in *. set (U := pow2 (round_exp (Z.abs a) (Z.abs b))) in *.
  assert (- (A * pow2 (-53) + B * pow2 (-1075)) <= inject_Z m * P * B - A
          <= A * pow2 (-53) + B * pow2 (-1075))%Q as Hmag.
  { rewrite <- H52, <- H1074. lra. }
  clear Herr Hulp H52 H1074.
  assert (inject_Z (Z.abs a) = if a <? 0 then (- inject_Z a)%Q else inject_Z a) as HA.
  { destruct (Z.ltb_spec a 0).
    - by rewrite Z.abs_neq, inject_Z_opp by lia.
    - by rewrite Z.abs_eq by lia. }
  assert (inject_Z (Z.abs b) = if b <? 0 then (- inject_Z b)%Q else inject_Z b) as HB.
  { destruct (Z.ltb_spec b 0).
    - by rewrite Z.abs_neq, inject_Z_opp by lia.
    - by rewrite Z.abs_eq by lia. }
  fold A in HA. fold B in HB. unfold F2Q. subst P. clearbody A B.
  destruct (a <? 0), (b <? 0); cbn [xorb]; rewrite ?inject_Z_opp;
    subst A B; lra.
Qed.

(** A quotient between 0 and 1 is rounded to a float between 0 and 1. *)
Lemma truediv_unit (a b : Z) :
  0 <= a <= b → 0 < b →
  ∃ f, truediv a b = Ok f ∧ (0 <= F2Q f <= 1)%Q.
Proof.
  intros Ha Hb. unfold truediv, float_of_frac.
  destruct (Z.eqb_spec b 0); [lia|].
  rewrite (Z.abs_eq a), (Z.abs_eq b) by lia.
  destruct (round_mag a b) as [m e] eqn:Hme.
  destruct (round_mag_le_1 a b m e Ha Hb Hme) as (He & Hm0 & Hm1).
  destruct (Z.ltb_spec 971 e); [lia|].
  destruct (Z.ltb_spec a 0); [lia|]. destruct (Z.ltb_spec b 0); [lia|].
  eexists. split; [done|]. unfold F2Q. cbn [xorb].
  pose proof (pow2_pos e) as Hpos. pose proof (pow2_inv e) as Hinv.
  assert (0 <= inject_Z m)%Q as HmQ by by rewrite <- (Zle_Qle 0).
  assert (inject_Z m <= pow2 (- e))%Q as HmQ'.
  { rewrite pow2_Z by lia. by rewrite <- Zle_Qle. }
  set (P := pow2 e) in *. set (P' := pow2 (- e)) in *. split; nra.
Qed.

Lemma round_mag_exp (n d m e : Z) :
  round_mag n d = (m, e) → e <= Z.max (round_exp n d + 1) (-1074).
Proof.
  unfold round_mag. destruct (n =? 0); [intros [= <- <-]; lia|].
  destruct (scale n d (round_exp n d)) as [n' d'].
  destruct (_ =? _); intros [= <- <-]; lia.
Qed.

(** The division of a numerator below [2^1023] does not overflow. *)
Lemma truediv_total (a b : Z) :
  b ≠ 0 → Z.abs a < 2 ^ 1023 → ∃ f, truediv a b = Ok f.
Proof.
  intros Hb Ha. unfold truediv, float_of_frac.
  destruct (Z.eqb_spec b 0); [done|].
  destruct (round_mag (Z.abs a) (Z.abs b)) as [m e] eqn:Hme.
  apply round_mag_exp in Hme.
  assert (round_exp (Z.abs a) (Z.abs b) <= 970) as He.
  { apply (round_exp_le _ _ 1022); [|lia].
    pose proof (Z.log2_nonneg (Z.abs b)).
    destruct (decide (a = 0)) as [->|]; [simpl; lia|].
    assert (Z.log2 (Z.abs a) < 1023); [|lia].
    apply Z.log2_lt_pow2; lia. }
  destruct (Z.ltb_spec 971 e); [lia|]. eauto.
Qed.

(** *** The rounded magnitude is a binary64 number *)

Lemma round_half_even_ge (n d K : Z) :
  0 < d → K * d <= n → K <= round_half_even n d.
Proof.
  intros Hd Hn. unfold round_half_even.
  pose proof (Z.div_mod n d ltac:(lia)) as Hdm.
  pose proof (Z.mod_pos_bound n d Hd) as Hr.
  assert (K <= n / d) as Hq by nia.
  destruct (_ ?= _); [destruct (Z.even _)|..]; lia.
Qed.

Lemma ilog2_frac_upper (n d : Z) :
  0 < n → 0 < d → (inject_Z n < inject_Z d * pow2 (ilog2_frac n d + 1))%Q.
Proof.
  intros Hn Hd.
  destruct (Z.log2_spec n Hn) as [Hn1 Hn2].
  destruct (Z.log2_spec d Hd) as [Hd1 Hd2].
  pose proof (Z.log2_nonneg n) as Hln. pose proof (Z.log2_nonneg d) as Hld.
  unfold ilog2_frac. set (k := Z.log2 n - Z.log2 d).
  cbv zeta.
  match goal with |- context [if ?b then _ - 1 else _] => destruct b eqn:Hb end.
  - replace (k - 1 + 1) with k by lia.
    destruct (Z.leb_spec 0 k) as [Hk|Hk].
    + apply Z.ltb_lt in Hb. rewrite pow2_Z by done.
      rewrite <- inject_Z_mult, <- Zlt_Qlt. lia.
    + apply Z.ltb_lt in Hb.
      assert (inject_Z n * pow2 (- k) < inject_Z d)%Q as HQ.
      { rewrite pow2_Z by lia. rewrite <- inject_Z_mult, <- Zlt_Qlt. lia. }
      pose proof (pow2_inv k) as Hinv. pose proof (pow2_pos k) as Hpos.
      set (P := pow2 k) in *. set (P' := pow2 (- k)) in *.
      set (N := inject_Z n) in *. set (D := inject_Z d) in *.
      assert (N == N * P' * P)%Q as ->.
      { transitivity (N * (P * P'))%Q; [rewrite Hinv|]; ring. }
      nra.
  - assert (pow2 (Z.log2 d) <= inject_Z d)%Q as HdQ.
    { rewrite pow2_Z by lia. by rewrite <- Zle_Qle. }
    assert (inject_Z n < pow2 (Z.log2 n + 1))%Q as HnQ.
    { rewrite pow2_Z by lia. rewrite <- Zlt_Qlt. lia. }
    assert (pow2 (Z.log2 n + 1) == pow2 (Z.log2 d) * pow2 (k + 1))%Q as Hsplit.
    { rewrite <- pow2_add. unfold k. f_equiv. lia. }
    pose proof (pow2_pos (k + 1)). nra.
Qed.

(** Bounds on [n / d] in units of [2^e] carry over to the scaled
    fraction. *)
Lemma scale_bounds (n d e K : Z) :
  0 < d → 0 <= K →
  ∃ n' d', scale n d e = (n', d') ∧ 0 < d' ∧ (0 <= n → 0 <= n')
    ∧ ((inject_Z n < inject_Z d * pow2 e * inject_Z K)%Q → n' < K * d')
    ∧ ((inject_Z d * pow2 e * inject_Z K <= inject_Z n)%Q → K * d' <= n').
Proof.
  intros Hd HK. unfold scale. destruct (Z.leb_spec 0 e) as [He|He].
  - assert (0 < 2 ^ e) by (apply Z.pow_pos_nonneg; lia).
    exists n, (d * 2 ^ e). split; [done|]. split; [nia|]. split; [done|].
    rewrite pow2_Z by done. rewrite <- !inject_Z_mult, <- Zlt_Qlt, <- Zle_Qle.
    split; lia.
  - assert (0 < 2 ^ (- e)) by (apply Z.pow_pos_nonneg; lia).
    exists (n * 2 ^ (- e)), d. split; [done|]. split; [done|]. split; [nia|].
    rewrite (Zlt_Qlt (n * 2 ^ (- e))), (Zle_Qle (K * d)), !inject_Z_mult.
    rewrite <- pow2_Z by lia.
    pose proof (pow2_inv e) as Hinv. pose proof (pow2_pos e) as Hpos.
    pose proof (pow2_pos (- e)) as Hpos'.
    set (P := pow2 e) in *. set (P' := pow2 (- e)) in *.
    set (N := inject_Z n) in *. set (D := inject_Z d) in *.
    set (k := inject_Z K) in *.
    assert (k * D == D * P * k * P')%Q as Hk.
    { transitivity (k * D * (P * P'))%Q; [rewrite Hinv|]; ring. }
    rewrite Hk. split; intros HQ; nra.
Qed.

(** The mantissa has at most 53 bits, and 53 exactly unless the number
    is subnormal. *)
Lemma round_mag_canonical (n d m e : Z) :
  0 < n → 0 < d → round_mag n d = (m, e) →
  0 <= m < 2 ^ 53 ∧ -1074 <= e ∧ (2 ^ 52 <= m ∨ e = -1074).
Proof.
  intros Hn Hd. unfold round_mag.
  destruct (Z.eqb_spec n 0) as [|_]; [lia|].
  pose proof (ilog2_frac_upper n d Hn Hd) as Hup.
  pose proof (ilog2_frac_lower n d Hn Hd) as Hlo.
  set (il := ilog2_frac n d) in *.
  assert (0 < inject_Z d)%Q as HdQ by (rewrite <- (Zlt_Qlt 0); lia).
  unfold round_exp. fold il.
  destruct (Z.max_spec (il - 52) (-1074)) as [[Hcase ->]|[Hcase ->]].
  - destruct (scale_bounds n d (-1074) (2 ^ 52) Hd ltac:(lia))
      as (n' & d' & -> & Hd' & Hn0 & Hlt & _).
    assert (n' < 2 ^ 52 * d') as Hn'.
    { apply Hlt. rewrite <- pow2_Z by lia. rewrite <- Qmult_assoc, <- pow2_add.
      eapply Qlt_le_trans; [exact Hup|].
      apply Qmult_le_l; [done|]. apply pow2_le. lia. }
    pose proof (round_half_even_le n' d' (2 ^ 52) Hd' ltac:(lia)) as Hm1.
    pose proof (round_half_even_nonneg n' d' ltac:(lia) Hd') as Hm0.
    set (m0 := round_half_even n' d') in *.
    destruct (Z.eqb_spec m0 (2 ^ 53)) as [Hm|Hm]; intros [= <- <-]; lia.
  - destruct (scale_bounds n d (il - 52) (2 ^ 53) Hd ltac:(lia))
      as (n' & d' & Hscale & Hd' & _ & Hlt & _).
    destruct (scale_bounds n d (il - 52) (2 ^ 52) Hd ltac:(lia))
      as (n'' & d'' & Hscale' & _ & _ & _ & Hle).
    rewrite Hscale in Hscale'. injection Hscale' as <- <-. rewrite Hscale.
    assert (n' < 2 ^ 53 * d') as Hn1.
    { apply Hlt. rewrite <- (pow2_Z 53) by lia. rewrite <- Qmult_assoc, <- pow2_add.
      by replace (il - 52 + 53) with (il + 1) by lia. }
    assert (2 ^ 52 * d' <= n') as Hn2.
    { apply Hle. rewrite <- (pow2_Z 52) by lia. rewrite <- Qmult_assoc, <- pow2_add.
      by replace (il - 52 + 52) with il by lia. }
    pose proof (round_half_even_le n' d' (2 ^ 53) Hd' ltac:(lia)) as Hm1.
    pose proof (round_half_even_ge n' d' (2 ^ 52) Hd' ltac:(lia)) as Hm0.
    set (m0 := round_half_even n' d') in *.
    destruct (Z.eqb_spec m0 (2 ^ 53)) as [Hm|Hm]; intros [= <- <-]; lia.
Qed.

End Rounding.

(** ** The conversion of a text to a number *)

Lemma span_digits_digits (l : list ascii) :
  Forall (fun c => is_digit c = true) (span_digits l).1.
Proof.
  induction l as [|c l IH]; simpl; [constructor|].
  destruct (is_digit c) eqn:Hc; [|constructor].
  destruct (span_digits l) as [ds r]. simpl in *. by constructor.
Qed.

Lemma digits_val_nonneg (ds : list ascii) :
  Forall (fun c => is_digit c = true) ds → 0 <= digits_val ds.
Proof.
  unfold digits_val. intros Hds.
  assert (∀ acc, 0 <= acc →
            0 <= fold_left (fun acc c => 10 * acc + digit_val c) ds acc) as Hacc.
  { induction Hds as [|c ds Hc _ IH]; intros acc Hacc; simpl; [done|].
    apply IH. unfold digit_val, is_digit in *.
    apply andb_true_iff in Hc as [Hc _]. apply N.leb_le in Hc. lia. }
  by apply Hacc.
Qed.

(** A numeral denotes a fraction that is not negative. *)
Lemma parse_decimal_nonneg (l : list ascii) (n d : Z) :
  parse_decimal l = Some (n, d) → 0 <= n ∧ 0 < d.
Proof.
  unfold parse_decimal.
  pose proof (span_digits_digits l) as Hip.
  destruct (span_digits l) as [ip r]. simpl in Hip.
  assert (∀ r0, Forall (fun c => is_digit c = true) (span_digits r0).1) as Hfp
    by apply span_digits_digits.
  set (p := match r with
            | c :: r0 => if Ascii.eqb c dot then span_digits r0 else ([], r)
            | [] => ([], [])
            end).
  assert (Forall (fun c => is_digit c = true) p.1) as Hp.
  { unfold p. destruct r as [|c r0]; [constructor|].
    destruct (Ascii.eqb c dot); [apply Hfp|constructor]. }
  destruct p as [fp r']. simpl in Hp.
  assert (0 <= digits_val (ip ++ fp)) as Hval.
  { apply digits_val_nonneg. by apply Forall_app. }
  destruct (ip ++ fp) as [|c ds]; [done|].
  destruct (parse_exponent r') as [ex|]; simpl; [|done].
  destruct (Z.leb_spec 0 (ex - Z.of_nat (length fp))) as [He|He]; intros [= <- <-].
  - split; [|lia]. apply Z.mul_nonneg_nonneg; [done|]. by apply Z.pow_nonneg.
  - split; [done|]. apply Z.pow_pos_nonneg; lia.
Qed.

Lemma float_of_frac_nonneg (neg neg' : bool) (n d m e : Z) :
  0 <= n → 0 < d → float_of_frac neg n d = Finite neg' m e → 0 <= m.
Proof.
  intros Hn Hd. unfold float_of_frac.
  destruct (round_mag n d) as [m0 e0] eqn:Hr.
  destruct (971 <? e0); [done|]. intros [= _ <- _].
  destruct (decide (n = 0)) as [->|Hn0].
  - unfold round_mag in Hr. simpl in Hr. injection Hr as <- _. done.
  - apply round_mag_canonical in Hr; lia.
Qed.

(** The mantissa of a float that was read from a text is not negative. *)
Lemma float_of_string_nonneg (s : string) (neg : bool) (m e : Z) :
  float_of_string s = Ok (Finite neg m e) → 0 <= m.
Proof.
  unfold float_of_string. destruct (code_points (chars s)) as [cps|]; [|done].
  unfold float_of_ascii.
  destruct (remove_underscores _ _) as [l|]; [|done].
  destruct (take_sign (strip_spaces l)) as [neg0 body].
  destruct (_ || _); [done|]. destruct (String.eqb _ "nan"); [done|].
  destruct (parse_decimal body) as [[n d]|] eqn:Hp; [|done].
  apply parse_decimal_nonneg in Hp as [Hn Hd]. intros [= H].
  by eapply float_of_frac_nonneg.
Qed.

(** [int] drops the fraction of a float. *)
Lemma int_of_float_truncation (neg : bool) (m e n : Z) :
  0 <= m → int_of_float (Finite neg m e) = Ok n →
  truncation (F2Q (Finite neg m e)) n.
Proof.
  intros Hm [= <-].
  set (t := if 0 <=? e then m * 2 ^ e else m / 2 ^ (- e)).
  assert (0 <= t ∧ (inject_Z t <= inject_Z m * pow2 e < inject_Z t + 1)%Q)
    as (Ht0 & Hlo & Hhi).
  { unfold t. destruct (Z.leb_spec 0 e) as [He|He].
    - assert (0 <= 2 ^ e) by (by apply Z.pow_nonneg).
      split; [by apply Z.mul_nonneg_nonneg|].
      rewrite pow2_Z, <- inject_Z_mult by done. split; lra.
    - assert (0 < 2 ^ (- e)) as HP by (apply Z.pow_pos_nonneg; lia).
      pose proof (Z.div_pos m _ Hm HP) as Hq.
      pose proof (Z.mul_div_le m _ HP) as Hle.
      pose proof (Z.mul_succ_div_gt m _ HP) as Hgt.
      set (P := 2 ^ (- e)) in *. set (q := m / P) in *.
      split; [done|].
      pose proof (pow2_inv e) as Hinv. rewrite (pow2_Z (- e)) in Hinv by lia.
      fold P in Hinv. pose proof (pow2_pos e) as Hpos.
      assert (inject_Z (P * q) <= inject_Z m)%Q as Hle' by (by rewrite <- Zle_Qle).
      assert (inject_Z m < inject_Z (P * Z.succ q))%Q as Hgt' by (by rewrite <- Zlt_Qlt).
      rewrite inject_Z_mult in Hle', Hgt'.
      replace (Z.succ q) with (q + 1) in Hgt' by lia. rewrite inject_Z_plus in Hgt'.
      change (inject_Z 1) with 1%Q in Hgt'.
      set (x := pow2 e) in *. set (Pq := inject_Z P) in *.
      set (qq := inject_Z q) in *. set (mq := inject_Z m) in *.
      clearbody x Pq qq mq.
      assert (Pq * qq * x == qq)%Q as Hqq.
      { transitivity (qq * (x * Pq))%Q; [ring|]. rewrite Hinv. ring. }
      assert (Pq * (qq + 1) * x == qq + 1)%Q as Hqq1.
      { transitivity ((qq + 1) * (x * Pq))%Q; [ring|]. rewrite Hinv. ring. }
      split.
      + rewrite <- Hqq. apply Qmult_le_compat_r; lra.
      + rewrite <- Hqq1. apply Qmult_lt_compat_r; lra. }
  assert (0 <= inject_Z t)%Q as Ht0' by (rewrite <- (Zle_Qle 0); done).
  unfold truncation, F2Q. destruct neg.
  - rewrite !inject_Z_opp. split; intros Hq; split; nra.
  - split; intros Hq; split; lra.
Qed.

Lemma int_of_text_truncation (s : string) (n : Z) :
  int_of_text (Some s) = Ok n →
  ∃ f, float_of_string s = Ok f ∧ is_finite f = true ∧ truncation (F2Q f) n.
Proof.
  simpl. intros (f & Hf & Hn)%bind_Ok. exists f. split; [done|].
  destruct f as [neg m e| |]; [|done..]. split; [done|].
  apply int_of_float_truncation; [|done]. by eapply float_of_string_nonneg.
Qed.

(** C4 (amended). The parser converts the text of every child of size
    and of every bndbox by [int(float(text))], which drops the fraction,
    so that "1621.0" yields 1621. It accepts a document exactly when the
    filename, the size, and each object's name and bndbox are there and
    every such text converts; it does not look at which children there
    are. Once the file is read as XML, what it raises is decided by the
    first thing wrong in reading order: [AttributeError] for a missing
    filename or name, [TypeError] for a missing size or bndbox and for a
    child without text, [ValueError] for a text that is no numeral or
    reads as nan, [OverflowError] for one that reads as an infinity; it
    never raises [ParseError]. *)
Theorem parse_anno_float_truncation (host : world) (path_anno : string) (tree : element) :
  xml_tree host path_anno = Ok tree →
  (int_of_text (Some "1621.0") = Ok 1621
   ∧ int_of_text (Some "3.9") = Ok 3 ∧ int_of_text (Some "-3.9") = Ok (-3))
  ∧ (∀ s n, int_of_text (Some s) = Ok n →
       ∃ f, float_of_string s = Ok f ∧ is_finite f = true ∧ truncation (F2Q f) n)
  ∧ (is_ok (analysis.parse_anno host path_anno) = true ↔ parsable tree)
  ∧ (∀ anno, analysis.parse_anno host path_anno = Ok anno →
       (∃ size_el, find "size" tree = Some size_el
                   ∧ ∀ k, size anno !! k
                          = item ← last_tagged k (children size_el);
                            int_value (text item))
       ∧ Forall2 (object_dict (fun item => int_value (text item)))
                 (findall "object" tree) (object anno))
  ∧ (∀ e, analysis.parse_anno host path_anno = Raise e ↔ failure tree e)
  ∧ (∀ t e, int_of_text t = Raise e ↔ text_fault t e)
  ∧ (int_of_text (Some "wide") = Raise ValueError
     ∧ int_of_text (Some "") = Raise ValueError
     ∧ int_of_text (Some "nan") = Raise ValueError
     ∧ int_of_text (Some "inf") = Raise OverflowError
     ∧ int_of_text (Some "1e400") = Raise OverflowError)
  ∧ (∀ e, analysis.parse_anno host path_anno = Raise e →
       e = AttributeError ∨ e = TypeError ∨ e = ValueError ∨ e = OverflowError).
Proof.
  intros Htree. split; [by vm_compute|].
  split; [apply int_of_text_truncation|].
  split; [|split; [|split; [|split; [|split]]]].
  - split.
    + destruct (analysis.parse_anno host path_anno) as [anno|] eqn:Ha; [|done].
      intros _. by eapply analysis_parse_anno_parsable.
    + intros Hp. by destruct (analysis_parse_anno_total _ _ _ Htree Hp) as [anno ->].
  - intros anno (tree' & fn & size_el & Htree' & _ & Hsize & Hitems & Hobjs & _)
      %analysis_parse_anno_Ok.
    assert (tree' = tree) as -> by congruence. split.
    + exists size_el. split; [done|]. intros k.
      apply analysis_parse_items_Ok in Hitems as [_ ->].
      by destruct (last_tagged k (children size_el)).
    + apply map_result_Ok in Hobjs. eapply Forall2_impl; [exact Hobjs|].
      intros obj d Hd. by apply analysis_parse_object_Ok in Hd as [_ ?].
  - intros e. by apply analysis_parse_anno_Raise_iff.
  - apply int_of_text_fault.
  - by vm_compute.
  - intros e. by apply (analysis_parse_anno_Raise host path_anno tree).
Qed.

Lemma parse_anno_float_truncation_witness :
  (is_ok (analysis.parse_anno docs_host "a.xml") = true ↔ parsable no_width_doc)
  ∧ (∀ e, analysis.parse_anno docs_host "b.xml" = Raise e ↔ failure bad_width_doc e).
Proof.
  split.
  - refine (proj1 (proj2 (proj2 (parse_anno_float_truncation docs_host "a.xml"
                                   no_width_doc _)))).
    vm_compute. reflexivity.
  - refine (proj1 (proj2 (proj2 (proj2 (proj2 (parse_anno_float_truncation docs_host
                                   "b.xml" bad_width_doc _)))))).
    vm_compute. reflexivity.
Defined.

(** ** The label generator *)

Section GenLabel.

Variable host : world.
Variable str_float : float → string.

Lemma getint_Ok (d : gmap string pyval) (k : string) (n : Z) :
  getint d k = Ok n ↔ d !! k = Some (VInt n).
Proof.
  unfold getint, getitem. destruct (d !! k) as [[| |]|]; simpl; split; congruence.
Qed.

Lemma str_row_render (label : Z) (x_center y_center width height : float) :
  analysis.str_row str_float label x_center y_center width height
  = render str_float (label, x_center, y_center, width, height).
Proof. reflexivity. Qed.

Lemma known_true (name2label : gmap string Z) (bbox : gmap string pyval) :
  known name2label bbox = true
  ↔ ∃ name label, bbox !! "name" = Some (VStr name) ∧ name2label !! name = Some label.
Proof.
  unfold known. destruct (bbox !! "name") as [[|name|]|].
  1,3,4: by (split; [|intros (?&?&?&?)]).
  rewrite bool_decide_eq_true. split.
  - intros [label ?]. eauto.
  - intros (? & label & [= <-] & ?). eauto.
Qed.

(** One turn of the loop: a box of an unknown class leaves the rows as
    they are, a box of a known class adds its line. *)
Lemma label_row_Ok (name2label : gmap string Z) (W H : Z)
    (row row' : list string) (bbox : gmap string pyval) :
  analysis.label_row str_float name2label W H row bbox = Ok row'
  ↔ (is_Some (bbox !! "name") ∧ known name2label bbox = false ∧ row' = row)
    ∨ ∃ r, row_values name2label W H bbox r ∧ row' = row ++ [render str_float r].
Proof.
  unfold analysis.label_row, getitem, known.
  destruct (bbox !! "name") as [name|] eqn:Hname; simpl.
  2:{ split; [done|]. intros [([? ?] & _)|(r & Hr & _)]; [done|].
      destruct r as ((((l & xc) & yc) & w) & h).
      destruct Hr as (? & ? & ? & ? & ? & ? & _). congruence. }
  destruct (analysis.lookup_label name2label name) as [label|] eqn:Hlabel.
  - assert (∃ s, name = VStr s ∧ name2label !! s = Some label) as (s & -> & Hs).
    { destruct name; try done. eauto. }
    rewrite Hs. split.
    + intros Hrow. right. ok_inv Hrow. subst row'.
      apply getint_Ok in Ha, Ha0, Ha2, Ha3.
      exists (label, a1, a4, a5, a6). split; [|by rewrite <- str_row_render].
      exists s, a, a2, a0, a3. by repeat split.
    + intros [(_ & Hk & _)|(((((l & xc) & yc) & w) & h) & Hr & ->)].
      { apply bool_decide_eq_false in Hk. exfalso. apply Hk. by eexists. }
      destruct Hr as (s' & xmin & ymin & xmax & ymax & Hn' & Hl & Hc & Hxc & Hyc & Hw & Hh).
      assert (s' = s) as -> by congruence.
      assert (l = label) as -> by congruence.
      destruct Hc as (Hxmin & Hymin & Hxmax & Hymax).
      apply getint_Ok in Hxmin, Hymin, Hxmax, Hymax.
      rewrite Hxmin. simpl. rewrite Hxmax. simpl. rewrite Hxc. simpl.
      rewrite Hymin. simpl. rewrite Hymax. simpl. rewrite Hyc. simpl.
      rewrite Hw. simpl. rewrite Hh. simpl. by rewrite str_row_render.
  - split.
    + intros [= <-]. left. split; [by eexists|]. split; [|done].
      destruct name as [|s|]; try done.
      simpl in Hlabel. rewrite Hlabel. by apply bool_decide_eq_false; intros [? ?].
    + intros [(_ & _ & ->)|(((((l & xc) & yc) & w) & h) & Hr & ->)]; [done|].
      destruct Hr as (s' & xmin & ymin & xmax & ymax & Hn' & Hl & _).
      assert (name = VStr s') as -> by congruence.
      simpl in Hlabel. congruence.
Qed.

(** The loop over the boxes writes one line for each box of a known
    class, in order, and nothing for the others. *)
Lemma label_rows_loop (name2label : gmap string Z) (W H : Z)
    (objs : list (gmap string pyval)) (row rows : list string) :
  for_each (analysis.label_row str_float name2label W H) objs row = Ok rows
  ↔ Forall (fun bbox => is_Some (bbox !! "name")) objs
    ∧ ∃ rs, Forall2 (row_values name2label W H)
                    (filter (fun bbox => known name2label bbox = true) objs) rs
            ∧ rows = row ++ map (render str_float) rs.
Proof.
  revert row. induction objs as [|bbox objs IH]; intros row; simpl.
  - split.
    + intros [= <-]. split; [constructor|]. exists []. split; [constructor|].
      by rewrite app_nil_r.
    + intros (_ & rs & Hrs & ->). apply Forall2_nil_inv_l in Hrs as ->.
      by rewrite app_nil_r.
  - rewrite bind_Ok. split.
    + intros (row1 & Hrow1 & Hrest). apply IH in Hrest as (Hnames & rs & Hrs & ->).
      apply label_row_Ok in Hrow1 as [(Hname & Hk & ->)|(r & Hr & ->)].
      * split; [by constructor|]. exists rs. split; [|done].
        rewrite filter_cons_False; [done|]. by rewrite Hk.
      * assert (known name2label bbox = true) as Hk.
        { apply known_true. destruct r as ((((l & xc) & yc) & w) & h).
          destruct Hr as (name & ? & ? & ? & ? & ? & ? & _). eauto. }
        split.
        { constructor; [|done]. apply known_true in Hk as (? & ? & ? & _). by eexists. }
        exists (r :: rs). split.
        -- rewrite filter_cons_True by done. by constructor.
        -- simpl. by rewrite <- app_assoc.
    + intros ([Hname Hnames]%Forall_cons & rs & Hrs & ->).
      destruct (known name2label bbox) eqn:Hk.
      * rewrite filter_cons_True in Hrs by done.
        apply Forall2_cons_inv_l in Hrs as (r & rs' & Hr & Hrs & ->).
        exists (row ++ [render str_float r]). split.
        -- apply label_row_Ok. right. eauto.
        -- apply IH. split; [done|]. exists rs'. split; [done|].
           simpl. by rewrite <- app_assoc.
      * rewrite filter_cons_False in Hrs by (by rewrite Hk).
        exists row. split.
        -- apply label_row_Ok. left. done.
        -- apply IH. split; [done|]. eauto.
Qed.

(** What a successful call has read and written. *)
Lemma gen_label_Ok (path_anno path_names path_out : string) (effects : list fs_effect) :
  analysis.gen_label host str_float path_anno path_names path_out = Ok effects
  ↔ ∃ anno lines W H rows,
      analysis.parse_anno host path_anno = Ok anno
      ∧ text_lines host path_names = Ok lines
      ∧ getint (size anno) "width" = Ok W
      ∧ getint (size anno) "height" = Ok H
      ∧ for_each (analysis.label_row str_float (analysis.name2label_of lines) W H)
                 (object anno) [] = Ok rows
      ∧ (isdir host path_out = true ∨ mkdir host path_out = Ok ())
      ∧ open_w host (out_file path_anno path_out) = Ok ()
      ∧ effects = (if isdir host path_out then [] else [Mkdir path_out])
                  ++ [WriteFile (out_file path_anno path_out) (String.concat nl rows)].
Proof.
  unfold analysis.gen_label, analysis.label_rows, out_file. split.
  - intros H. ok_inv H. subst effects. ok_inv Ha1.
    exists a, a0, a4, a5, a1. repeat split; try done.
    + destruct (isdir host path_out); [by left|right].
      destruct (mkdir host path_out) as [[]|]; done.
    + by destruct a3.
    + destruct (isdir host path_out); [by injection Ha2 as <-|].
      destruct (mkdir host path_out); simpl in Ha2; [by injection Ha2 as <-|done].
  - intros (anno & lines & W & H & rows & -> & -> & HW & HH & Hrows & Hdir & Hopen & ->).
    simpl. rewrite HW. simpl. rewrite HH. simpl. rewrite Hrows. simpl.
    destruct (isdir host path_out) eqn:Hisdir; simpl.
    + by rewrite Hopen.
    + destruct Hdir as [Hdir|Hdir]; [done|]. rewrite Hdir. simpl. by rewrite Hopen.
Qed.

(** A box of a known class with moderate coordinates has its values:
    the divisions do not fail on an image of nonzero extent. *)
Lemma row_values_total (name2label : gmap string Z) (W H : Z)
    (bbox : gmap string pyval) :
  W ≠ 0 → H ≠ 0 → known name2label bbox = true → moderate bbox →
  ∃ r, row_values name2label W H bbox r.
Proof.
  intros HW HH (name & label & Hname & Hlabel)%known_true
    (xmin & ymin & xmax & ymax & Hc & Hx1 & Hy1 & Hx2 & Hy2).
  assert (2 ^ 1023 = 2 * 2 ^ 1022) as Hpow by reflexivity.
  set (p := 2 ^ 1022) in *.
  destruct (truediv_total (xmin + xmax) (2 * W)) as [xc Hxc]; [lia..|].
  destruct (truediv_total (ymin + ymax) (2 * H)) as [yc Hyc]; [lia..|].
  destruct (truediv_total (xmax - xmin) W) as [w Hw]; [lia..|].
  destruct (truediv_total (ymax - ymin) H) as [h Hh]; [lia..|].
  exists (label, xc, yc, w, h). exists name, xmin, ymin, xmax, ymax.
  split; [done|]. split; [done|]. split; [exact Hc|]. by repeat split.
Qed.

Lemma rows_total (name2label : gmap string Z) (W H : Z)
    (objs : list (gmap string pyval)) :
  W ≠ 0 → H ≠ 0 →
  Forall (fun bbox => known name2label bbox = true → moderate bbox) objs →
  ∃ rs, Forall2 (row_values name2label W H)
                (filter (fun bbox => known name2label bbox = true) objs) rs.
Proof.
  intros HW HH. induction 1 as [|bbox objs Hbox _ [rs IH]].
  - exists []. constructor.
  - destruct (known name2label bbox) eqn:Hk.
    + destruct (row_values_total name2label W H bbox HW HH Hk (Hbox eq_refl)) as [r Hr].
      exists (r :: rs). rewrite filter_cons_True by done. by constructor.
    + exists rs. rewrite filter_cons_False; [done|]. by rewrite Hk.
Qed.

(** The boxes of unknown classes can be left out of the loop. *)
Lemma label_rows_known (name2label : gmap string Z) (W H : Z)
    (objs : list (gmap string pyval)) (row : list string) :
  Forall (fun bbox => is_Some (bbox !! "name")) objs →
  for_each (analysis.label_row str_float name2label W H) objs row
  = for_each (analysis.label_row str_float name2label W H)
             (filter (fun bbox => known name2label bbox = true) objs) row.
Proof.
  intros Hnamed. revert row.
  induction Hnamed as [|bbox objs Hname _ IH]; intros row; [done|].
  destruct (known name2label bbox) eqn:Hk.
  - rewrite filter_cons_True by done. simpl.
    destruct (analysis.label_row str_float name2label W H row bbox); simpl; [apply IH|done].
  - rewrite filter_cons_False by (by rewrite Hk). simpl.
    assert (analysis.label_row str_float name2label W H row bbox = Ok row) as ->.
    { apply label_row_Ok. left. done. }
    simpl. apply IH.
Qed.

End GenLabel.

(** C2. Whenever [gen_label] succeeds, the file it writes has one line
    for each box whose class is in the mapping, in order, and the line is
    the label index followed by x_center = (xmin + xmax) / (2 * width),
    y_center = (ymin + ymax) / (2 * height), box_width = (xmax - xmin) /
    width and box_height = (ymax - ymin) / height, computed from the
    parsed coordinates and the parsed width and height. *)
Theorem gen_label_rows (host : world) (str_float : float → string)
    (path_anno path_names path_out : string) (effects : list fs_effect) :
  analysis.gen_label host str_float path_anno path_names path_out = Ok effects →
  ∃ anno lines W H rs,
    analysis.parse_anno host path_anno = Ok anno
    ∧ text_lines host path_names = Ok lines
    ∧ size anno !! "width" = Some (VInt W)
    ∧ size anno !! "height" = Some (VInt H)
    ∧ Forall2 (row_values (analysis.name2label_of lines) W H)
              (filter (fun bbox => known (analysis.name2label_of lines) bbox = true)
                      (object anno)) rs
    ∧ last effects
      = Some (WriteFile (out_file path_anno path_out)
                        (String.concat nl (map (render str_float) rs))).
Proof.
  intros (anno & lines & W & H & rows & Ha & Hl & HW & HH & Hrows & _ & _ & ->)
    %gen_label_Ok.
  apply label_rows_loop in Hrows as (_ & rs & Hrs & ->).
  apply getint_Ok in HW, HH.
  exists anno, lines, W, H, rs. repeat split; try done.
  by rewrite last_snoc.
Qed.

Lemma gen_label_rows_witness :
  ∃ effects,
    analysis.gen_label mixed_host show_float "annos/image.xml" "pets.names" "labels"
    = Ok effects
    ∧ ∃ rs, last effects
            = Some (WriteFile "labels/image.txt"
                              (String.concat nl (map (render show_float) rs))).
Proof.
  assert (∃ effects,
            analysis.gen_label mixed_host show_float "annos/image.xml"
              "pets.names" "labels" = Ok effects) as [effects He].
  { vm_compute. eexists. reflexivity. }
  exists effects. split; [exact He|].
  destruct (gen_label_rows mixed_host show_float _ _ _ _ He)
    as (anno & lines & W & H & rs & _ & _ & _ & _ & _ & Hlast).
  exists rs. exact Hlast.
Defined.

(** C5 (as stated, refuted). Three annotations with a box of a known
    class and a box of an unknown class on which [gen_label] raises an
    error: the image has width zero, the size has no width, the box of
    the known class has no xmax. *)
Lemma gen_label_known_and_unknown_raises :
  Forall (fun path_anno =>
            ∃ anno, analysis.parse_anno flawed_host path_anno = Ok anno
                    ∧ map (known (analysis.name2label_of ["cat" +:+ nl; "dog" +:+ nl]))
                          (object anno) = [true; false])
         ["annos/zero.xml"; "annos/widthless.xml"; "annos/open.xml"]
  ∧ analysis.gen_label flawed_host show_float "annos/zero.xml" "pets.names" "labels"
    = Raise ZeroDivisionError
  ∧ analysis.gen_label flawed_host show_float "annos/widthless.xml" "pets.names" "labels"
    = Raise KeyError
  ∧ analysis.gen_label flawed_host show_float "annos/open.xml" "pets.names" "labels"
    = Raise KeyError.
Proof.
  split; [|by vm_compute].
  repeat constructor; eexists; split; vm_compute; reflexivity.
Qed.

(** C5 (amended). A box whose class is not in the names file adds no
    line and is never the cause of an error: on an annotation that the
    parser accepts, [gen_label] returns or raises exactly what it does on
    the same annotation without those boxes. It returns exactly when the
    width and the height are there, every box of a known class has its
    four coordinates and its four quotients, and the output directory and
    file can be created; the file then has one line for each box of a
    known class, in order, and nothing else. That is so in particular
    when the width and the height are not zero and the boxes of known
    classes have their coordinates; nothing is asked of the boxes of
    unknown classes. *)
Theorem gen_label_skips_unknown (host host' : world) (str_float : float → string)
    (path_anno path_names path_out : string) (anno : annotation)
    (lines : list string) :
  analysis.parse_anno host path_anno = Ok anno →
  text_lines host path_names = Ok lines →
  (analysis.parse_anno host' path_anno
   = Ok (without_unknown (analysis.name2label_of lines) anno) →
   text_lines host' path_names = Ok lines →
   isdir host' path_out = isdir host path_out →
   mkdir host' path_out = mkdir host path_out →
   open_w host' (out_file path_anno path_out)
   = open_w host (out_file path_anno path_out) →
   analysis.gen_label host' str_float path_anno path_names path_out
   = analysis.gen_label host str_float path_anno path_names path_out)
  ∧ (∀ effects,
       analysis.gen_label host str_float path_anno path_names path_out = Ok effects
       ↔ ∃ W H rs,
           size anno !! "width" = Some (VInt W)
           ∧ size anno !! "height" = Some (VInt H)
           ∧ Forall2 (row_values (analysis.name2label_of lines) W H)
                     (filter (fun bbox => known (analysis.name2label_of lines) bbox = true)
                             (object anno)) rs
           ∧ (isdir host path_out = true ∨ mkdir host path_out = Ok ())
           ∧ open_w host (out_file path_anno path_out) = Ok ()
           ∧ effects
             = (if isdir host path_out then [] else [Mkdir path_out])
               ++ [WriteFile (out_file path_anno path_out)
                             (String.concat nl (map (render str_float) rs))])
  ∧ (∀ W H,
       size anno !! "width" = Some (VInt W) →
       size anno !! "height" = Some (VInt H) →
       W ≠ 0 → H ≠ 0 →
       Forall (fun bbox => known (analysis.name2label_of lines) bbox = true → moderate bbox)
              (object anno) →
       isdir host path_out = true ∨ mkdir host path_out = Ok () →
       open_w host (out_file path_anno path_out) = Ok () →
       ∃ rs,
         analysis.gen_label host str_float path_anno path_names path_out
         = Ok ((if isdir host path_out then [] else [Mkdir path_out])
               ++ [WriteFile (out_file path_anno path_out)
                             (String.concat nl (map (render str_float) rs))])
         ∧ Forall2 (row_values (analysis.name2label_of lines) W H)
                   (filter (fun bbox => known (analysis.name2label_of lines) bbox = true)
                           (object anno)) rs
         ∧ length rs
           = length (filter (fun bbox => known (analysis.name2label_of lines) bbox = true)
                            (object anno))).
Proof.
  intros Ha Hl. split; [|split].
  - intros Ha' Hl' Hisdir Hmkdir Hopen.
    unfold analysis.gen_label, analysis.label_rows.
    rewrite Ha, Ha', Hl, Hl'. simpl.
    destruct (getint (size anno) "width") as [W|]; simpl; [|done].
    destruct (getint (size anno) "height") as [H|]; simpl; [|done].
    rewrite (label_rows_known str_float _ W H (object anno))
      by (by eapply analysis_parse_anno_named).
    rewrite Hisdir, Hmkdir. unfold out_file in Hopen. by rewrite Hopen.
  - intros effects. rewrite gen_label_Ok. split.
    + intros (anno' & lines' & W & H & rows & Ha' & Hl' & HW & HH & Hrows & ? & ? & ->).
      assert (anno' = anno) as -> by congruence.
      assert (lines' = lines) as -> by congruence.
      apply label_rows_loop in Hrows as (_ & rs & Hrs & ->).
      apply getint_Ok in HW, HH. exists W, H, rs. done.
    + intros (W & H & rs & HW & HH & Hrs & ? & ? & ->).
      exists anno, lines, W, H, (map (render str_float) rs).
      repeat split; try done; try by apply getint_Ok.
      apply label_rows_loop. split; [by eapply analysis_parse_anno_named|].
      exists rs. done.
  - intros W H HW HH HW0 HH0 Hboxes Hdir Hopen.
    destruct (rows_total (analysis.name2label_of lines) W H (object anno) HW0 HH0 Hboxes)
      as [rs Hrs].
    exists rs. split; [|split; [done|]].
    + apply gen_label_Ok.
      exists anno, lines, W, H, (map (render str_float) rs).
      repeat split; try done; try by apply getint_Ok.
      apply label_rows_loop. split; [by eapply analysis_parse_anno_named|].
      exists rs. done.
    + symmetry. by eapply Forall2_length.
Qed.

(** ** Normalization and its inverse *)

Lemma exact_round_trip (lo hi W : Z) :
  W ≠ 0 →
  (lower_end (exact_center lo hi W) (exact_extent lo hi W) W == inject_Z lo)%Q
  ∧ (upper_end (exact_center lo hi W) (exact_extent lo hi W) W == inject_Z hi)%Q.
Proof.
  intros HW. unfold lower_end, upper_end, exact_center, exact_extent.
  rewrite inject_Z_mult, inject_Z_plus, inject_Z_minus.
  assert (¬ inject_Z W == 0)%Q as HWQ.
  { change 0%Q with (inject_Z 0). by rewrite inject_Z_injective. }
  change (inject_Z 2) with 2%Q. split; field; done.
Qed.

(** From the float center and extent of an interval the inverse formulas
    give back its ends within the tolerance. *)
Lemma float_round_trip (lo hi W : Z) (c s : float) :
  0 < W →
  truediv (lo + hi) (2 * W) = Ok c →
  truediv (hi - lo) W = Ok s →
  (Qabs (lower_end (F2Q c) (F2Q s) W - inject_Z lo) <= tolerance lo hi W)%Q
  ∧ (Qabs (upper_end (F2Q c) (F2Q s) W - inject_Z hi) <= tolerance lo hi W)%Q.
Proof.
  intros HW Hc%truediv_error Hs%truediv_error.
  rewrite (Z.abs_eq (2 * W)) in Hc by lia. rewrite (Z.abs_eq W) in Hs by lia.
  unfold tolerance, lower_end, upper_end.
  assert (pow2 (-54) == pow2 (-53) * (1 # 2))%Q as -> by reflexivity.
  assert (pow2 (-1074) == pow2 (-1075) * 2)%Q as -> by reflexivity.
  rewrite inject_Z_plus. rewrite !inject_Z_mult, inject_Z_plus in Hc.
  rewrite inject_Z_minus in Hs.
  change (inject_Z 2) with 2%Q in *.
  assert (0 < inject_Z W)%Q as HWQ by (rewrite <- (Zlt_Qlt 0); lia).
  assert (0 <= inject_Z (Z.abs (lo + hi)))%Q as HA by (rewrite <- (Zle_Qle 0); lia).
  assert (0 <= inject_Z (Z.abs (hi - lo)))%Q as HB by (rewrite <- (Zle_Qle 0); lia).
  pose proof (pow2_pos (-53)) as Hu. pose proof (pow2_pos (-1075)) as Hv.
  apply Qabs_Qle_condition in Hc, Hs.
  set (A := inject_Z (Z.abs (lo + hi))) in *.
  set (B := inject_Z (Z.abs (hi - lo))) in *.
  set (u := pow2 (-53)) in *. set (v := pow2 (-1075)) in *.
  set (X := inject_Z W) in *. set (C := F2Q c) in *. set (S := F2Q s) in *.
  set (L := inject_Z lo) in *. set (U := inject_Z hi) in *.
  clearbody A B u v X C S L U.
  assert (0 <= X * v)%Q as HXv by nra.
  assert (S / 2 == S * (1 # 2))%Q as -> by (unfold Qdiv; reflexivity).
  split; apply Qabs_Qle_condition; split; lra.
Qed.

Lemma row_values_coordinates (name2label : gmap string Z) (W H : Z)
    (bbox : gmap string pyval) (label : Z) (xc yc w h : float)
    (xmin ymin xmax ymax : Z) :
  has_coordinates bbox xmin ymin xmax ymax →
  row_values name2label W H bbox (label, xc, yc, w, h) →
  truediv (xmin + xmax) (2 * W) = Ok xc ∧ truediv (ymin + ymax) (2 * H) = Ok yc
  ∧ truediv (xmax - xmin) W = Ok w ∧ truediv (ymax - ymin) H = Ok h.
Proof.
  intros (H1 & H2 & H3 & H4)
    (name & x1 & y1 & x2 & y2 & _ & _ & (H1' & H2' & H3' & H4') & Hv).
  assert (x1 = xmin) as -> by congruence. assert (y1 = ymin) as -> by congruence.
  assert (x2 = xmax) as -> by congruence. assert (y2 = ymax) as -> by congruence.
  exact Hv.
Qed.

(** C3. For a box of a known class inside the image, with positive width
    and height, the loop of [gen_label] writes a line, and each of its
    four values x_center, y_center, box_width, box_height lies in [0,1]. *)
Theorem gen_label_unit_interval (str_float : float → string)
    (name2label : gmap string Z) (W H : Z) (row : list string)
    (bbox : gmap string pyval) (name : string) (label : Z)
    (xmin ymin xmax ymax : Z) :
  bbox !! "name" = Some (VStr name) →
  name2label !! name = Some label →
  has_coordinates bbox xmin ymin xmax ymax →
  0 < W → 0 < H →
  0 <= xmin <= xmax → xmax <= W →
  0 <= ymin <= ymax → ymax <= H →
  ∃ x_center y_center box_width box_height,
    row_values name2label W H bbox (label, x_center, y_center, box_width, box_height)
    ∧ analysis.label_row str_float name2label W H row bbox
      = Ok (row ++ [render str_float (label, x_center, y_center, box_width, box_height)])
    ∧ (0 <= F2Q x_center <= 1)%Q ∧ (0 <= F2Q y_center <= 1)%Q
    ∧ (0 <= F2Q box_width <= 1)%Q ∧ (0 <= F2Q box_height <= 1)%Q.
Proof.
  intros Hname Hlabel Hc HW HH Hx Hx' Hy Hy'.
  destruct (truediv_unit (xmin + xmax) (2 * W)) as (xc & Hxc & Hxc'); [lia..|].
  destruct (truediv_unit (ymin + ymax) (2 * H)) as (yc & Hyc & Hyc'); [lia..|].
  destruct (truediv_unit (xmax - xmin) W) as (w & Hw & Hw'); [lia..|].
  destruct (truediv_unit (ymax - ymin) H) as (h & Hh & Hh'); [lia..|].
  exists xc, yc, w, h.
  assert (row_values name2label W H bbox (label, xc, yc, w, h)) as Hr.
  { exists name, xmin, ymin, xmax, ymax. by repeat (split; [done|]). }
  split; [done|]. split; [|done].
  apply label_row_Ok. right. eauto.
Qed.

Lemma gen_label_unit_interval_witness :
  ∃ x_center y_center box_width box_height,
    analysis.label_row show_float {[ "cat" := 0 ]} 1621 1216 []
      {[ "name" := VStr "cat"; "xmin" := VInt 904; "ymin" := VInt 674;
         "xmax" := VInt 926; "ymax" := VInt 695 ]}
    = Ok ([] ++ [render show_float (0, x_center, y_center, box_width, box_height)])
    ∧ (0 <= F2Q x_center <= 1)%Q ∧ (0 <= F2Q y_center <= 1)%Q
    ∧ (0 <= F2Q box_width <= 1)%Q ∧ (0 <= F2Q box_height <= 1)%Q.
Proof.
  destruct (gen_label_unit_interval show_float {[ "cat" := 0 ]} 1621 1216 []
              {[ "name" := VStr "cat"; "xmin" := VInt 904; "ymin" := VInt 674;
                 "xmax" := VInt 926; "ymax" := VInt 695 ]}
              "cat" 0 904 674 926 695)
    as (xc & yc & w & h & _ & Hrow & Hbounds).
  - vm_compute. reflexivity.
  - vm_compute. reflexivity.
  - repeat split; vm_compute; reflexivity.
  - lia.
  - lia.
  - lia.
  - lia.
  - lia.
  - lia.
  - exists xc, yc, w, h. split; [exact Hrow|exact Hbounds].
Defined.

(** C8. For a box of a known class of an annotation with positive width
    and height, the inverse of the normalization formulas, applied to
    the values [gen_label] writes, gives back the parsed coordinates
    within the tolerance of the floats (half a unit in the last place of
    the larger coordinate); applied to the exact quotients it gives them
    back exactly. *)
Theorem gen_label_round_trip (str_float : float → string)
    (name2label : gmap string Z) (W H : Z) (row row' : list string)
    (bbox : gmap string pyval) (xmin ymin xmax ymax : Z) :
  0 < W → 0 < H →
  known name2label bbox = true →
  has_coordinates bbox xmin ymin xmax ymax →
  analysis.label_row str_float name2label W H row bbox = Ok row' →
  ∃ label x_center y_center box_width box_height,
    row_values name2label W H bbox (label, x_center, y_center, box_width, box_height)
    ∧ row' = row ++ [render str_float (label, x_center, y_center, box_width, box_height)]
    ∧ (lower_end (exact_center xmin xmax W) (exact_extent xmin xmax W) W == inject_Z xmin
       ∧ upper_end (exact_center xmin xmax W) (exact_extent xmin xmax W) W == inject_Z xmax
       ∧ lower_end (exact_center ymin ymax H) (exact_extent ymin ymax H) H == inject_Z ymin
       ∧ upper_end (exact_center ymin ymax H) (exact_extent ymin ymax H) H == inject_Z ymax)%Q
    ∧ (Qabs (lower_end (F2Q x_center) (F2Q box_width) W - inject_Z xmin)
         <= tolerance xmin xmax W
       ∧ Qabs (upper_end (F2Q x_center) (F2Q box_width) W - inject_Z xmax)
         <= tolerance xmin xmax W
       ∧ Qabs (lower_end (F2Q y_center) (F2Q box_height) H - inject_Z ymin)
         <= tolerance ymin ymax H
       ∧ Qabs (upper_end (F2Q y_center) (F2Q box_height) H - inject_Z ymax)
         <= tolerance ymin ymax H)%Q.
Proof.
  intros HW HH Hk Hc Hrow.
  apply label_row_Ok in Hrow as [(_ & Hk' & _)|(r & Hr & ->)]; [congruence|].
  destruct r as ((((label & xc) & yc) & w) & h).
  exists label, xc, yc, w, h. split; [done|]. split; [done|].
  destruct (row_values_coordinates _ _ _ _ _ _ _ _ _ _ _ _ _ Hc Hr)
    as (Hxc & Hyc & Hw & Hh).
  destruct (exact_round_trip xmin xmax W ltac:(lia)) as [Ex1 Ex2].
  destruct (exact_round_trip ymin ymax H ltac:(lia)) as [Ey1 Ey2].
  destruct (float_round_trip xmin xmax W xc w HW Hxc Hw) as [Fx1 Fx2].
  destruct (float_round_trip ymin ymax H yc h HH Hyc Hh) as [Fy1 Fy2].
  repeat split; done.
Qed.

Lemma gen_label_round_trip_witness :
  ∃ row' label x_center y_center box_width box_height,
    analysis.label_row show_float {[ "cat" := 0 ]} 1621 1216 []
      {[ "name" := VStr "cat"; "xmin" := VInt 904; "ymin" := VInt 674;
         "xmax" := VInt 926; "ymax" := VInt 695 ]} = Ok row'
    ∧ row' = [] ++ [render show_float (label, x_center, y_center, box_width, box_height)]
    ∧ (Qabs (lower_end (F2Q x_center) (F2Q box_width) 1621 - inject_Z 904)
       <= tolerance 904 926 1621)%Q.
Proof.
  assert (∃ row', analysis.label_row show_float {[ "cat" := 0 ]} 1621 1216 []
            {[ "name" := VStr "cat"; "xmin" := VInt 904; "ymin" := VInt 674;
               "xmax" := VInt 926; "ymax" := VInt 695 ]} = Ok row') as [row' Hrow].
  { vm_compute. eexists. reflexivity. }
  destruct (gen_label_round_trip show_float {[ "cat" := 0 ]} 1621 1216 [] row'
              {[ "name" := VStr "cat"; "xmin" := VInt 904; "ymin" := VInt 674;
                 "xmax" := VInt 926; "ymax" := VInt 695 ]} 904 674 926 695)
    as (label & xc & yc & w & h & _ & Hrow' & _ & Hx & _).
  - lia.
  - lia.
  - vm_compute. reflexivity.
  - repeat split; vm_compute; reflexivity.
  - exact Hrow.
  - exists row', label, xc, yc, w, h. split; [exact Hrow|]. split; [exact Hrow'|exact Hx].
Defined.

Lemma gen_label_skips_unknown_witness :
  analysis.gen_label known_host show_float "annos/image.xml" "pets.names" "labels"
  = analysis.gen_label mixed_host show_float "annos/image.xml" "pets.names" "labels"
  ∧ ∃ rs,
      analysis.gen_label mixed_host show_float "annos/image.xml" "pets.names" "labels"
      = Ok ((if isdir mixed_host "labels" then [] else [Mkdir "labels"])
            ++ [WriteFile (out_file "annos/image.xml" "labels")
                          (String.concat nl (map (render show_float) rs))])
      ∧ length rs = 2%nat.
Proof.
  destruct (gen_label_skips_unknown mixed_host known_host show_float "annos/image.xml"
              "pets.names" "labels" mixed_anno ["cat" +:+ nl; "dog" +:+ nl])
    as (Hsame & _ & Hreturns).
  - vm_compute. reflexivity.
  - vm_compute. reflexivity.
  - split.
    + apply Hsame; vm_compute; reflexivity.
    + destruct (Hreturns 1621 1216) as (rs & Hgen & _ & Hlen).
      * vm_compute. reflexivity.
      * vm_compute. reflexivity.
      * lia.
      * lia.
      * repeat constructor; intros Hk; try (vm_compute in Hk; discriminate Hk).
        -- exists 904, 674, 926, 695. repeat split; vm_compute; reflexivity.
        -- exists 972, 693, 993, 713. repeat split; vm_compute; reflexivity.
      * right. vm_compute. reflexivity.
      * vm_compute. reflexivity.
      * exists rs. split; [exact Hgen|]. rewrite Hlen. vm_compute. reflexivity.
Defined.

(** * Further properties of the code *)

(** ** The folder matcher *)

Lemma stems_Permutation (l l' : list string) : l ≡ₚ l' → stems l = stems l'.
Proof.
  intros Hp. unfold stems. apply set_eq. intros x.
  rewrite !elem_of_list_to_set. by rewrite Hp.
Qed.

(** X1. [check_match] answers true exactly when the two listings have as
    many entries and every stem of the second is a stem of the first. *)
Theorem check_match_iff (host : world) (path_1 path_2 : string)
    (name_1 name_2 : list string) :
  listdir host path_1 = Ok name_1 →
  listdir host path_2 = Ok name_2 →
  ∃ r, analysis.check_match host path_1 path_2 = Ok r
       ∧ (r = true ↔ length name_1 = length name_2 ∧ stems name_2 ⊆ stems name_1).
Proof.
  intros H1 H2. eexists. split; [by apply check_match_containment|].
  by rewrite bool_decide_eq_true.
Qed.

Lemma check_match_iff_witness :
  ∃ r, analysis.check_match folders_host "A" "C" = Ok r
       ∧ (r = true ↔ length ["1.xml"; "2.xml"] = length ["1.jpg"; "3.jpg"]
                     ∧ stems ["1.jpg"; "3.jpg"] ⊆ stems ["1.xml"; "2.xml"]).
Proof.
  apply (check_match_iff folders_host "A" "C"); vm_compute; reflexivity.
Defined.

(** X2. When no two entries of the second folder share a stem,
    [check_match] answers true exactly when the folders have as many
    entries and the same set of stems. *)
Theorem check_match_exact (host : world) (path_1 path_2 : string)
    (name_1 name_2 : list string) (r : bool) :
  listdir host path_1 = Ok name_1 →
  listdir host path_2 = Ok name_2 →
  NoDup (map (fun name => (splitext name).1) name_2) →
  analysis.check_match host path_1 path_2 = Ok r →
  r = true ↔ folders_match name_1 name_2.
Proof. intros H1 H2 Hnd Hr. by eapply check_match_distinct_stems. Qed.

Lemma check_match_exact_witness :
  true = true ↔ folders_match ["1.xml"; "2.xml"] ["1.jpg"; "2.jpg"].
Proof.
  apply (check_match_exact folders_host "A" "B").
  - vm_compute. reflexivity.
  - vm_compute. reflexivity.
  - apply (bool_decide_unpack _). vm_compute. exact I.
  - vm_compute. reflexivity.
Defined.

(** X3. The answer of [check_match] does not depend on the order in
    which the host lists the two folders. *)
Theorem check_match_order_independent (host host' : world) (path_1 path_2 : string)
    (name_1 name_2 name_1' name_2' : list string) :
  listdir host path_1 = Ok name_1 → listdir host path_2 = Ok name_2 →
  listdir host' path_1 = Ok name_1' → listdir host' path_2 = Ok name_2' →
  name_1 ≡ₚ name_1' → name_2 ≡ₚ name_2' →
  analysis.check_match host path_1 path_2 = analysis.check_match host' path_1 path_2.
Proof.
  intros H1 H2 H1' H2' Hp1 Hp2.
  rewrite (check_match_containment _ _ _ _ _ H1 H2).
  rewrite (check_match_containment _ _ _ _ _ H1' H2').
  f_equal. apply bool_decide_ext.
  by rewrite (stems_Permutation _ _ Hp1), (stems_Permutation _ _ Hp2),
    (Permutation_length Hp1), (Permutation_length Hp2).
Qed.

Lemma check_match_order_independent_witness :
  analysis.check_match folders_host "A" "B" = analysis.check_match shuffled_host "A" "B".
Proof.
  apply (check_match_order_independent folders_host shuffled_host "A" "B"
           ["1.xml"; "2.xml"] ["1.jpg"; "2.jpg"] ["2.xml"; "1.xml"] ["2.jpg"; "1.jpg"]).
  - vm_compute. reflexivity.
  - vm_compute. reflexivity.
  - vm_compute. reflexivity.
  - vm_compute. reflexivity.
  - apply perm_swap.
  - apply perm_swap.
Defined.

(** X4. Two folders whose entries have the same stems, one for one in
    some order, match; in particular a folder matches itself, whatever
    the extensions. *)
Theorem check_match_same_stems (host : world) (path_1 path_2 : string)
    (name_1 name_2 : list string) :
  listdir host path_1 = Ok name_1 →
  listdir host path_2 = Ok name_2 →
  map (fun name => (splitext name).1) name_1
    ≡ₚ map (fun name => (splitext name).1) name_2 →
  analysis.check_match host path_1 path_2 = Ok true.
Proof.
  intros H1 H2 Hp. rewrite (check_match_containment _ _ _ _ _ H1 H2).
  f_equal. apply bool_decide_eq_true. split.
  - apply Permutation_length in Hp. by rewrite !length_map in Hp.
  - unfold stems. intros x. rewrite !elem_of_list_to_set. by rewrite Hp.
Qed.

Lemma check_match_same_stems_witness :
  analysis.check_match folders_host "A" "B" = Ok true.
Proof.
  apply (check_match_same_stems folders_host "A" "B" ["1.xml"; "2.xml"] ["1.jpg"; "2.jpg"]).
  - vm_compute. reflexivity.
  - vm_compute. reflexivity.
  - vm_compute. reflexivity.
Defined.

(** ** Whole numbers written in decimal are read back exactly *)

Lemma uint_chars_digits (d : Decimal.uint) :
  Forall (fun c => is_digit c = true) (chars (NilEmpty.string_of_uint d)).
Proof. induction d; simpl; constructor; done. Qed.

Lemma uint_chars_acc (d : Decimal.uint) (acc : positive) :
  fold_left (fun acc c => 10 * acc + digit_val c)
            (chars (NilEmpty.string_of_uint d)) (Z.pos acc)
  = Z.pos (Pos.of_uint_acc d acc).
Proof.
  revert acc. induction d; intros acc; simpl; [done|..];
    (etrans; [|apply IHd]); f_equal; unfold digit_val; simpl; lia.
Qed.

Lemma uint_chars_value (d : Decimal.uint) :
  digits_val (chars (NilEmpty.string_of_uint d)) = Z.of_N (Pos.of_uint d).
Proof.
  unfold digits_val. induction d; simpl; [done|exact IHd|..];
    match goal with
    | |- _ = Z.pos (Pos.of_uint_acc d ?k) => exact (uint_chars_acc d k)
    end.
Qed.

(** The decimal numeral of a whole number: a sign and digits whose value
    is its magnitude. *)
Lemma str_int_chars (n : Z) :
  ∃ l, l ≠ [] ∧ Forall (fun c => is_digit c = true) l
       ∧ digits_val l = Z.abs n
       ∧ chars (str_int n) = if n <? 0 then "-"%char :: l else l.
Proof.
  destruct n as [|p|p]; unfold str_int; simpl.
  - exists ["0"%char]. repeat split; try done. by repeat constructor.
  - pose proof (DecimalPos.Unsigned.to_uint_nonnil p) as Hnil.
    exists (chars (NilEmpty.string_of_uint (Pos.to_uint p))).
    split; [|split; [apply uint_chars_digits|split]].
    + destruct (Pos.to_uint p); done.
    + by rewrite uint_chars_value, DecimalPos.Unsigned.of_to.
    + unfold NilZero.string_of_uint. by destruct (Pos.to_uint p).
  - pose proof (DecimalPos.Unsigned.to_uint_nonnil p) as Hnil.
    exists (chars (NilEmpty.string_of_uint (Pos.to_uint p))).
    split; [|split; [apply uint_chars_digits|split]].
    + destruct (Pos.to_uint p); done.
    + by rewrite uint_chars_value, DecimalPos.Unsigned.of_to.
    + unfold NilZero.string_of_uint. by destruct (Pos.to_uint p).
Qed.

Lemma chars_str_of (l : list ascii) : chars (str_of l) = l.
Proof. apply list_ascii_of_string_of_list_ascii. Qed.

Lemma str_of_chars (s : string) : str_of (chars s) = s.
Proof. apply string_of_list_ascii_of_string. Qed.

Lemma is_digit_cases (c : ascii) :
  is_digit c = true →
  In c ["0"; "1"; "2"; "3"; "4"; "5"; "6"; "7"; "8"; "9"]%char.
Proof.
  destruct c as [[] [] [] [] [] [] [] []]; intros H; try discriminate H;
    simpl; tauto.
Qed.

(** What a digit is not. *)
Lemma digit_plain (c : ascii) :
  is_digit c = true →
  Ascii.eqb c underscore = false ∧ is_space c = false
  ∧ Ascii.eqb c "-" = false ∧ Ascii.eqb c "+" = false ∧ lower c = c.
Proof.
  intros H%is_digit_cases. simpl in H.
  repeat (destruct H as [<-|H]; [by vm_compute|]). done.
Qed.

Lemma remove_underscores_plain (prev : ascii) (l : list ascii) :
  Ascii.eqb prev underscore = false →
  Forall (fun c => Ascii.eqb c underscore = false) l →
  remove_underscores prev l = Some l.
Proof.
  intros Hprev Hl. revert prev Hprev.
  induction Hl as [|c l Hc _ IH]; intros prev Hprev; simpl.
  - by rewrite Hprev.
  - rewrite Hc, Hprev. simpl. by rewrite (IH c Hc).
Qed.

Lemma strip_spaces_plain (l : list ascii) :
  Forall (fun c => is_space c = false) l → strip_spaces l = l.
Proof.
  assert (∀ l, Forall (fun c => is_space c = false) l → lstrip_spaces l = l) as Hl.
  { intros l' [|c l'' Hc _]; simpl; [done|]. by rewrite Hc. }
  intros H. unfold strip_spaces. rewrite (Hl l H).
  rewrite Hl; [apply rev_involutive|]. by apply Forall_rev.
Qed.

Lemma span_digits_all (l : list ascii) :
  Forall (fun c => is_digit c = true) l → span_digits l = (l, []).
Proof.
  induction 1 as [|c l Hc _ IH]; simpl; [done|]. by rewrite Hc, IH.
Qed.

(** On ASCII text nothing is mapped. *)
Lemma chr_code (c : ascii) : chr (code c) = c.
Proof. unfold chr, code. by rewrite N2Z.id, ascii_N_embedding. Qed.

Lemma code_points_ascii (l : list ascii) :
  Forall (fun c => code c < 128) l → code_points l = Some (map code l).
Proof.
  induction 1 as [|c l Hc _ IH]; [done|].
  cbn [code_points map]. rewrite IH.
  by destruct (Z.ltb_spec (code c) 128); [|lia].
Qed.

Lemma to_ascii_ascii (l : list ascii) :
  Forall (fun c => code c < 128) l → to_ascii (map code l) = l.
Proof.
  intros Hl. unfold to_ascii.
  assert (forallb (fun cp => cp <? 128) (map code l) = true) as ->.
  { apply forallb_forall. intros cp (c & <- & Hc)%in_map_iff.
    rewrite Forall_forall in Hl. apply Z.ltb_lt, Hl. by apply list_elem_of_In. }
  rewrite map_map. clear Hl. induction l as [|c l IH]; [done|].
  simpl. by rewrite chr_code, IH.
Qed.

Lemma float_of_string_ascii (s : string) :
  Forall (fun c => code c < 128) (chars s) →
  float_of_string s = float_of_ascii (chars s).
Proof.
  intros Hs. unfold float_of_string.
  by rewrite (code_points_ascii _ Hs), (to_ascii_ascii _ Hs).
Qed.

(** A sign and digits are read as the whole number they denote. *)
Lemma float_of_numeral (neg : bool) (l : list ascii) :
  l ≠ [] → Forall (fun c => is_digit c = true) l →
  float_of_string (str_of (if neg then "-"%char :: l else l))
  = Ok (float_of_frac neg (digits_val l) 1).
Proof.
  intros Hnil Hl. rewrite float_of_string_ascii; rewrite chars_str_of.
  2:{ assert (Forall (fun c => code c < 128) l).
      { eapply Forall_impl; [exact Hl|]. intros c Hc%is_digit_cases. simpl in Hc.
        repeat (destruct Hc as [<-|Hc]; [by vm_compute|]). done. }
      destruct neg; [constructor; [by vm_compute|]|]; done. }
  unfold float_of_ascii.
  assert (Forall (fun c => Ascii.eqb c underscore = false ∧ is_space c = false)
                 (if neg then "-"%char :: l else l)) as Hplain.
  { assert (Forall (fun c => Ascii.eqb c underscore = false ∧ is_space c = false) l).
    { eapply Forall_impl; [exact Hl|]. intros c Hc. apply digit_plain in Hc. tauto. }
    destruct neg; [constructor|]; done. }
  rewrite remove_underscores_plain; [|done|].
  2:{ eapply Forall_impl; [exact Hplain|]. by intros c [? _]. }
  rewrite strip_spaces_plain.
  2:{ eapply Forall_impl; [exact Hplain|]. by intros c [_ ?]. }
  destruct l as [|c l]; [done|].
  pose proof (Forall_inv Hl) as Hc. apply digit_plain in Hc as Hc'.
  destruct Hc' as (_ & _ & Hminus & Hplus & Hlower).
  assert (take_sign (if neg then "-"%char :: c :: l else c :: l) = (neg, c :: l)) as ->.
  { destruct neg; simpl; [done|]. by rewrite Hminus, Hplus. }
  assert (String.eqb (str_of (map lower (c :: l))) "inf" = false
          ∧ String.eqb (str_of (map lower (c :: l))) "infinity" = false
          ∧ String.eqb (str_of (map lower (c :: l))) "nan" = false) as (-> & -> & ->).
  { simpl. rewrite Hlower. apply is_digit_cases in Hc. simpl in Hc.
    repeat (destruct Hc as [<-|Hc]; [done|]). done. }
  simpl orb. cbv iota.
  unfold parse_decimal. rewrite (span_digits_all _ Hl). cbv iota beta.
  rewrite app_nil_r. simpl.
  by rewrite Z.mul_1_r.
Qed.

(** A whole number below [2^53] is a float. *)
Lemma round_mag_whole (n : Z) :
  0 < n < 2 ^ 53 →
  round_mag n 1 = (n * 2 ^ (52 - Z.log2 n), Z.log2 n - 52).
Proof.
  intros Hn. destruct (Z.log2_spec n ltac:(lia)) as [Hlo Hhi].
  pose proof (Z.log2_nonneg n) as H0.
  assert (Z.log2 n < 53) as Hlog by (apply Z.log2_lt_pow2; lia).
  unfold round_mag. destruct (Z.eqb_spec n 0); [lia|].
  assert (round_exp n 1 = Z.log2 n - 52) as ->.
  { unfold round_exp, ilog2_frac. change (Z.log2 1) with 0.
    rewrite Z.sub_0_r. cbv zeta.
    destruct (Z.leb_spec 0 (Z.log2 n)); [|lia].
    destruct (Z.ltb_spec n (1 * 2 ^ Z.log2 n)); lia. }
  assert (0 < 2 ^ (52 - Z.log2 n)) as Hpow by (apply Z.pow_pos_nonneg; lia).
  assert (scale n 1 (Z.log2 n - 52) = (n * 2 ^ (52 - Z.log2 n), 1)) as ->.
  { unfold scale. destruct (Z.leb_spec 0 (Z.log2 n - 52)) as [H52|H52].
    - assert (Z.log2 n = 52) as -> by lia. simpl. f_equal. lia.
    - f_equal. f_equal. f_equal. lia. }
  assert (round_half_even (n * 2 ^ (52 - Z.log2 n)) 1 = n * 2 ^ (52 - Z.log2 n)) as ->.
  { unfold round_half_even. rewrite Z.mod_1_r, Z.div_1_r. done. }
  assert (n * 2 ^ (52 - Z.log2 n) < 2 ^ 53) as Hm.
  { replace (2 ^ 53) with (2 ^ Z.succ (Z.log2 n) * 2 ^ (52 - Z.log2 n)).
    - nia.
    - rewrite <- Z.pow_add_r by lia. f_equal. lia. }
  destruct (Z.eqb_spec (n * 2 ^ (52 - Z.log2 n)) (2 ^ 53)); [lia|done].
Qed.

Lemma int_of_float_whole (neg : bool) (n : Z) :
  0 <= n < 2 ^ 53 →
  int_of_float (float_of_frac neg n 1) = Ok (if neg then - n else n).
Proof.
  intros Hn. destruct (decide (n = 0)) as [->|Hn0]; [by destruct neg|].
  unfold float_of_frac. rewrite round_mag_whole by lia.
  pose proof (Z.log2_nonneg n) as H0.
  assert (Z.log2 n < 53) as Hlog by (apply Z.log2_lt_pow2; lia).
  destruct (Z.ltb_spec 971 (Z.log2 n - 52)); [lia|]. unfold int_of_float.
  assert (0 < 2 ^ (52 - Z.log2 n)) as Hpow by (apply Z.pow_pos_nonneg; lia).
  f_equal.
  assert ((if 0 <=? Z.log2 n - 52
           then n * 2 ^ (52 - Z.log2 n) * 2 ^ (Z.log2 n - 52)
           else n * 2 ^ (52 - Z.log2 n) / 2 ^ (- (Z.log2 n - 52))) = n) as ->; [|done].
  destruct (Z.leb_spec 0 (Z.log2 n - 52)) as [H52|H52].
  - assert (Z.log2 n = 52) as -> by lia. simpl. lia.
  - replace (- (Z.log2 n - 52)) with (52 - Z.log2 n) by lia.
    apply Z.div_mul. lia.
Qed.

(** X5. A size or coordinate written as a whole number in decimal, of
    magnitude below [2^53], is stored exactly by the parser; the bound is
    sharp, the text of [2^53 + 1] is stored as [2^53]. *)
Theorem parse_items_whole_number (t : string) (n : Z) (d : gmap string pyval) :
  Z.abs n < 2 ^ 53 →
  int_of_text (Some (str_int n)) = Ok n
  ∧ analysis.parse_items [leaf t (str_int n)] d = Ok (<[t := VInt n]> d)
  ∧ int_of_text (Some (str_int (2 ^ 53 + 1))) = Ok (2 ^ 53).
Proof.
  intros Hn.
  assert (int_of_text (Some (str_int n)) = Ok n) as Hint.
  { destruct (str_int_chars n) as (l & Hnil & Hl & Hval & Hchars).
    unfold int_of_text. rewrite <- (str_of_chars (str_int n)), Hchars.
    rewrite (float_of_numeral _ _ Hnil Hl), Hval. simpl.
    rewrite int_of_float_whole by lia. f_equal.
    destruct (Z.ltb_spec n 0); lia. }
  split; [done|]. split; [|by vm_compute].
  unfold analysis.parse_items, for_each, leaf. cbn [text tag]. by rewrite Hint.
Qed.

Lemma parse_items_whole_number_witness :
  int_of_text (Some (str_int 1621)) = Ok 1621.
Proof.
  refine (proj1 (parse_items_whole_number "width" 1621 ∅ _)).
  vm_compute. reflexivity.
Defined.

(** ** Paths *)

Lemma rfind_from_notin (c : ascii) (l : list ascii) (i : Z) :
  c ∉ l → rfind_from c l i = -1.
Proof.
  revert i. induction l as [|x l IH]; intros i Hc; simpl; [done|].
  apply not_elem_of_cons in Hc as [Hx Hl]. rewrite (IH _ Hl). simpl.
  destruct (Ascii.eqb_spec x c); congruence.
Qed.

Lemma rfind_from_last (c : ascii) (l1 l2 : list ascii) (i : Z) :
  0 <= i → c ∉ l2 → rfind_from c (l1 ++ c :: l2) i = i + Z.of_nat (length l1).
Proof.
  revert i. induction l1 as [|x l1 IH]; intros i Hi Hc; simpl.
  - rewrite (rfind_from_notin _ _ _ Hc). simpl. rewrite Ascii.eqb_refl. lia.
  - rewrite IH by (done || lia).
    destruct (Z.leb_spec 0 (i + 1 + Z.of_nat (length l1))); lia.
Qed.

(** The last occurrence of a character splits a list. *)
Lemma last_occurrence (c : ascii) (l : list ascii) :
  c ∉ l ∨ ∃ l1 l2, l = l1 ++ c :: l2 ∧ c ∉ l2.
Proof.
  induction l as [|x l [IH|(l1 & l2 & -> & Hc)]].
  - left. set_solver.
  - destruct (decide (x = c)) as [->|Hx].
    + right. exists [], l. done.
    + left. set_solver.
  - right. exists (x :: l1), l2. done.
Qed.

Lemma chars_app (a b : string) : chars (a +:+ b) = chars a ++ chars b.
Proof. induction a as [|x a IH]; simpl; [done|]. by rewrite IH. Qed.

Lemma basename_after_slash (l1 l2 : list ascii) :
  slash ∉ l2 → basename (str_of (l1 ++ slash :: l2)) = str_of l2.
Proof.
  intros Hc. unfold basename, rfind, slice_from. rewrite chars_str_of.
  rewrite rfind_from_last by done. f_equal.
  replace (Z.to_nat (0 + Z.of_nat (length l1) + 1)) with (length (l1 ++ [slash])).
  - replace (l1 ++ slash :: l2) with ((l1 ++ [slash]) ++ l2) by by rewrite <- app_assoc.
    apply drop_app_length.
  - rewrite length_app. simpl. lia.
Qed.

Lemma basename_plain (p : string) : slash ∉ chars p → basename p = p.
Proof.
  intros Hc. unfold basename, rfind, slice_from.
  rewrite rfind_from_notin by done. simpl. apply str_of_chars.
Qed.

(** The base name has no separator in it. *)
Lemma basename_no_slash (p : string) : slash ∉ chars (basename p).
Proof.
  destruct (last_occurrence slash (chars p)) as [Hc|(l1 & l2 & Hp & Hc)].
  - by rewrite basename_plain.
  - rewrite <- (str_of_chars p), Hp, basename_after_slash by done.
    by rewrite chars_str_of.
Qed.

(** Joining a folder and an entry and taking the base name gives the
    entry back. *)
Lemma basename_path_join (a b : string) :
  slash ∉ chars b → basename (path_join a b) = b.
Proof.
  intros Hb. unfold path_join.
  assert (startswith slash b = false) as ->.
  { destruct b as [|x b]; [done|]. simpl. simpl in Hb.
    destruct (Ascii.eqb_spec x slash) as [->|]; [|done]. set_solver. }
  destruct (String.eqb_spec a "") as [->|Ha]; simpl.
  { by apply basename_plain. }
  unfold endswith. destruct (last (chars a)) as [x|] eqn:Hlast.
  - apply last_Some in Hlast as [l' Hl'].
    destruct (Ascii.eqb_spec x slash) as [->|Hx].
    + rewrite <- (str_of_chars (a +:+ b)), chars_app, Hl', <- app_assoc. simpl.
      rewrite basename_after_slash by done. apply str_of_chars.
    + rewrite <- (str_of_chars (a +:+ "/" +:+ b)), !chars_app. simpl.
      rewrite basename_after_slash by done. apply str_of_chars.
  - rewrite <- (str_of_chars (a +:+ "/" +:+ b)), !chars_app. simpl.
    rewrite basename_after_slash by done. apply str_of_chars.
Qed.

(** The stem and the extension make up the name. *)
Lemma splitext_append (p : string) : (splitext p).1 +:+ (splitext p).2 = p.
Proof.
  unfold splitext. destruct (_ && _); simpl.
  - unfold slice_to, slice_from.
    rewrite <- (str_of_chars (str_of _ +:+ str_of _)), chars_app, !chars_str_of.
    rewrite take_drop. apply str_of_chars.
  - rewrite <- (str_of_chars (p +:+ "")), chars_app. simpl.
    rewrite app_nil_r. apply str_of_chars.
Qed.

Lemma splitext_no_slash (p : string) :
  slash ∉ chars p → slash ∉ chars (splitext p).1.
Proof.
  intros Hp Hc. apply Hp. rewrite <- (splitext_append p), chars_app.
  apply elem_of_app. by left.
Qed.

(** ** The batch parser *)

(** X6. [parse_annos] succeeds exactly when every listed file parses;
    its result then has one record for each entry of the folder, in the
    order of the listing, and each record carries the name of its entry.
    An empty folder gives the empty list. *)
Theorem parse_annos_in_order (host : world) (path_anno_folder : string)
    (names : list string) (annos : list annotation) :
  listdir host path_anno_folder = Ok names →
  Forall (fun name => slash ∉ chars name) names →
  (analysis.parse_annos host path_anno_folder = Ok annos
   ↔ Forall2 (fun name anno =>
                analysis.parse_anno host (path_join path_anno_folder name) = Ok anno)
             names annos)
  ∧ (analysis.parse_annos host path_anno_folder = Ok annos →
     length annos = length names ∧ map annoname annos = map Some names)
  ∧ (names = [] → analysis.parse_annos host path_anno_folder = Ok []).
Proof.
  intros Hdir Hnames.
  assert (analysis.parse_annos host path_anno_folder = Ok annos
          ↔ Forall2 (fun name anno =>
                       analysis.parse_anno host (path_join path_anno_folder name) = Ok anno)
                    names annos) as Hiff.
  { unfold analysis.parse_annos. rewrite Hdir. simpl.
    rewrite map_result_Ok. apply Forall2_fmap_l. }
  split; [done|]. split.
  - intros Hall%Hiff. split; [symmetry; by eapply Forall2_length|].
    clear Hiff Hdir.
    induction Hall as [|name anno names annos Hanno _ IH]; [done|].
    apply Forall_cons in Hnames as [Hname Hnames]. simpl.
    rewrite (IH Hnames). f_equal.
    apply analysis_parse_anno_Ok in Hanno as (_ & _ & _ & _ & _ & _ & _ & _ & -> & _).
    by rewrite basename_path_join.
  - intros ->. unfold analysis.parse_annos. by rewrite Hdir.
Qed.

Lemma parse_annos_in_order_witness :
  ∃ annos, analysis.parse_annos sample_host "annos" = Ok annos
           ∧ map annoname annos = map Some ["image.xml"].
Proof.
  assert (∃ annos, analysis.parse_annos sample_host "annos" = Ok annos) as [annos Ha].
  { vm_compute. eexists. reflexivity. }
  exists annos. split; [exact Ha|].
  refine (proj2 (proj1 (proj2 (parse_annos_in_order sample_host "annos"
                                 ["image.xml"] annos _ _)) Ha)).
  - vm_compute. reflexivity.
  - repeat constructor. vm_compute. set_solver.
Defined.

(** ** The older parser *)

Lemma parser_parse_object_cases (obj : element) :
  (structured_object obj ∧ ∃ d, parser.parse_object obj = Ok d)
  ∨ (¬ structured_object obj
     ∧ ∃ e, parser.parse_object obj = Raise e
            ∧ (e = AttributeError ∨ e = TypeError)).
Proof.
  unfold parser.parse_object, structured_object.
  destruct (find "name" obj) as [name|]; simpl.
  2:{ right. split; [by intros [[? ?] _]|]. eexists. split; [done|tauto]. }
  destruct (find "bndbox" obj) as [bbox|]; simpl.
  2:{ right. split; [by intros [_ [? ?]]|]. eexists. split; [done|tauto]. }
  left. split; [by split; eexists|]. by eexists.
Qed.

(** X7. The older parser accepts a document exactly when it has a
    filename, a size, and a name and a bndbox in every object, whatever
    the texts are; it raises [AttributeError] or [TypeError] otherwise and
    never a conversion error. What the new parser accepts, it accepts. *)
Theorem parser_parse_anno_structure (host : world) (path_anno : string) (tree : element) :
  xml_tree host path_anno = Ok tree →
  (is_ok (parser.parse_anno host path_anno) = true ↔ structured tree)
  ∧ (∀ e, parser.parse_anno host path_anno = Raise e →
       e = AttributeError ∨ e = TypeError)
  ∧ (parsable tree → structured tree).
Proof.
  intros Htree. unfold parser.parse_anno. rewrite Htree. simpl.
  assert (∀ objs,
            (∃ ds, map_result parser.parse_object objs = Ok ds
                   ∧ Forall structured_object objs)
            ∨ (∃ e, map_result parser.parse_object objs = Raise e
                    ∧ (e = AttributeError ∨ e = TypeError)
                    ∧ ¬ Forall structured_object objs)) as Hobjs.
  { induction objs as [|obj objs IH]; simpl.
    - left. eexists. split; [done|constructor].
    - destruct (parser_parse_object_cases obj) as [[Hs [d ->]]|[Hs (e & -> & He)]]; simpl.
      + destruct IH as [(ds & -> & Hall)|(e & -> & He & Hall)]; simpl.
        * left. eexists. split; [done|]. by constructor.
        * right. eexists. split; [done|]. split; [done|].
          intros [_ ?]%Forall_cons. done.
      + right. eexists. split; [done|]. split; [done|].
        intros [? _]%Forall_cons. done. }
  unfold structured, parsable.
  destruct (find "filename" tree) as [fn|]; simpl.
  2:{ split; [|split].
      - split; [done|]. by intros [[? ?] _].
      - intros e [= <-]. tauto.
      - by intros ([? ?] & _). }
  destruct (find "size" tree) as [size_el|] eqn:Hsize; simpl.
  2:{ split; [|split].
      - split; [done|]. by intros (_ & [? ?] & _).
      - intros e [= <-]. tauto.
      - intros (_ & (s & Hs & _) & _). done. }
  rewrite for_each_collect.
  destruct (Hobjs (findall "object" tree)) as [(ds & -> & Hall)|(e & -> & He & Hall)];
    simpl.
  - split; [|split].
    + split; [|done]. intros _. by repeat split; try eexists.
    + done.
    + intros _. by repeat split; try eexists.
  - split; [|split].
    + split; [done|]. intros (_ & _ & ?). done.
    + by intros e' [= <-].
    + intros (_ & _ & Hp). exfalso. apply Hall.
      eapply Forall_impl; [exact Hp|].
      intros obj [Hn (bbox & Hb & _)]. split; [done|by eexists].
Qed.

Lemma parser_parse_anno_structure_witness :
  is_ok (parser.parse_anno docs_host "b.xml") = true ↔ structured bad_width_doc.
Proof.
  refine (proj1 (parser_parse_anno_structure docs_host "b.xml" bad_width_doc _)).
  vm_compute. reflexivity.
Defined.

(** ** What the parser reads *)

Lemma find_filter (f g : element → bool) (l : list element) :
  (∀ c, f c = true → g c = true) →
  List.find f (List.filter g l) = List.find f l.
Proof.
  intros Hfg. induction l as [|c l IH]; simpl; [done|].
  destruct (g c) eqn:Hg; simpl.
  - by rewrite IH.
  - destruct (f c) eqn:Hf; [|done]. rewrite (Hfg c Hf) in Hg. done.
Qed.

Lemma filter_filter (f g : element → bool) (l : list element) :
  (∀ c, f c = true → g c = true) →
  List.filter f (List.filter g l) = List.filter f l.
Proof.
  intros Hfg. induction l as [|c l IH]; simpl; [done|].
  destruct (g c) eqn:Hg; simpl.
  - by rewrite IH.
  - destruct (f c) eqn:Hf; [|done]. rewrite (Hfg c Hf) in Hg. done.
Qed.

(** X8. The parser reads the filename, the size and the objects and
    nothing else: removing every other element from the document changes
    neither its result nor its error. *)
Theorem parse_anno_ignores_other_elements (host host' : world) (path_anno : string)
    (tree : element) :
  xml_tree host path_anno = Ok tree →
  xml_tree host' path_anno = Ok (prune tree) →
  analysis.parse_anno host path_anno = analysis.parse_anno host' path_anno.
Proof.
  intros Htree Htree'. unfold analysis.parse_anno. rewrite Htree, Htree'. simpl.
  assert (∀ t, relevant (Element t None []) = true →
               find t (prune tree) = find t tree
               ∧ findall t (prune tree) = findall t tree) as Hrel.
  { intros t Ht. unfold find, findall, prune. simpl.
    assert (∀ c, String.eqb (tag c) t = true → relevant c = true) as Himp.
    { intros c Hc%String.eqb_eq. unfold relevant in *. simpl in Ht. by rewrite Hc. }
    split; [by apply find_filter|by apply filter_filter]. }
  destruct (Hrel "filename" eq_refl) as [-> _].
  destruct (Hrel "size" eq_refl) as [-> _].
  destruct (Hrel "object" eq_refl) as [_ ->].
  done.
Qed.

Lemma parse_anno_ignores_other_elements_witness :
  analysis.parse_anno full_host "image.xml" = analysis.parse_anno pruned_host "image.xml".
Proof.
  apply (parse_anno_ignores_other_elements full_host pruned_host "image.xml" full_doc).
  - vm_compute. reflexivity.
  - vm_compute. reflexivity.
Defined.

(** ** The label generator: edges and errors *)

Lemma filter_known_none (name2label : gmap string Z) (objs : list (gmap string pyval)) :
  Forall (fun bbox => known name2label bbox = false) objs →
  filter (fun bbox => known name2label bbox = true) objs = [].
Proof.
  induction 1 as [|bbox objs Hk _ IH]; [done|].
  rewrite filter_cons_False; [done|]. by rewrite Hk.
Qed.

(** X9. When no box of the annotation is of a known class (in particular
    when it has no box at all) [gen_label] writes an empty file, whatever
    the width and height are, zero included. *)
Theorem gen_label_no_known_box (host : world) (str_float : float → string)
    (path_anno path_names path_out : string) (anno : annotation)
    (lines : list string) (W H : Z) :
  analysis.parse_anno host path_anno = Ok anno →
  text_lines host path_names = Ok lines →
  size anno !! "width" = Some (VInt W) →
  size anno !! "height" = Some (VInt H) →
  Forall (fun bbox => known (analysis.name2label_of lines) bbox = false) (object anno) →
  isdir host path_out = true ∨ mkdir host path_out = Ok () →
  open_w host (out_file path_anno path_out) = Ok () →
  analysis.gen_label host str_float path_anno path_names path_out
  = Ok ((if isdir host path_out then [] else [Mkdir path_out])
        ++ [WriteFile (out_file path_anno path_out) ""]).
Proof.
  intros Ha Hl HW HH Hunknown Hdir Hopen.
  apply gen_label_Ok. exists anno, lines, W, H, [].
  repeat split; try done; try by apply getint_Ok.
  apply label_rows_loop. split; [by eapply analysis_parse_anno_named|].
  exists []. split; [|done]. rewrite filter_known_none by done. constructor.
Qed.

Lemma gen_label_no_known_box_witness :
  analysis.gen_label zero_host show_float "annos/image.xml" "birds.names" "labels"
  = Ok ((if isdir zero_host "labels" then [] else [Mkdir "labels"])
        ++ [WriteFile (out_file "annos/image.xml" "labels") ""]).
Proof.
  apply (gen_label_no_known_box zero_host show_float "annos/image.xml" "birds.names"
           "labels" zero_anno ["owl" +:+ nl] 0 1216).
  - vm_compute. reflexivity.
  - vm_compute. reflexivity.
  - vm_compute. reflexivity.
  - vm_compute. reflexivity.
  - repeat constructor.
  - right. vm_compute. reflexivity.
  - vm_compute. reflexivity.
Defined.

Lemma truediv_by_0 (a : Z) : truediv a 0 = Raise ZeroDivisionError.
Proof. reflexivity. Qed.

(** One turn of the loop on an image without extent: a box of a known
    class with its coordinates stops it. *)
Lemma label_row_zero (str_float : float → string) (name2label : gmap string Z)
    (W H : Z) (row : list string) (bbox : gmap string pyval) :
  W = 0 ∨ H = 0 →
  known name2label bbox = true → moderate bbox →
  analysis.label_row str_float name2label W H row bbox = Raise ZeroDivisionError.
Proof.
  intros Hzero (name & label & Hname & Hlabel)%known_true
    (xmin & ymin & xmax & ymax & (Hx1 & Hy1 & Hx2 & Hy2) & Bx1 & By1 & Bx2 & By2).
  unfold analysis.label_row, getitem. rewrite Hname. simpl. rewrite Hlabel.
  apply getint_Ok in Hx1, Hy1, Hx2, Hy2.
  rewrite Hx1. simpl. rewrite Hx2. simpl.
  destruct (decide (W = 0)) as [->|HW]; [done|].
  destruct Hzero as [HW0|HH0]; [done|]. subst H.
  assert (2 ^ 1023 = 2 * 2 ^ 1022) as Hpow by reflexivity.
  set (p := 2 ^ 1022) in *.
  destruct (truediv_total (xmin + xmax) (2 * W)) as [xc ->]; [lia..|]. simpl.
  rewrite Hy1. simpl. rewrite Hy2. simpl. done.
Qed.

(** X10. On an annotation whose width or height is zero, [gen_label]
    raises [ZeroDivisionError] as soon as one box is of a known class
    (the boxes of known classes having their coordinates). *)
Theorem gen_label_zero_extent (host : world) (str_float : float → string)
    (path_anno path_names path_out : string) (anno : annotation)
    (lines : list string) (W H : Z) :
  analysis.parse_anno host path_anno = Ok anno →
  text_lines host path_names = Ok lines →
  size anno !! "width" = Some (VInt W) →
  size anno !! "height" = Some (VInt H) →
  W = 0 ∨ H = 0 →
  Exists (fun bbox => known (analysis.name2label_of lines) bbox = true) (object anno) →
  Forall (fun bbox => known (analysis.name2label_of lines) bbox = true → moderate bbox)
         (object anno) →
  analysis.gen_label host str_float path_anno path_names path_out
  = Raise ZeroDivisionError.
Proof.
  intros Ha Hl HW HH Hzero Hex Hall.
  unfold analysis.gen_label, analysis.label_rows. rewrite Ha. simpl. rewrite Hl. simpl.
  apply getint_Ok in HW, HH. rewrite HW. simpl. rewrite HH. simpl.
  pose proof (analysis_parse_anno_named _ _ _ Ha) as Hnamed.
  assert (∀ row, for_each (analysis.label_row str_float (analysis.name2label_of lines) W H)
                          (object anno) row = Raise ZeroDivisionError) as ->; [|done].
  induction Hex as [bbox objs Hk|bbox objs _ IH]; intros row; simpl.
  - apply Forall_cons in Hall as [Hm _]. by rewrite label_row_zero by auto.
  - apply Forall_cons in Hall as [Hm Hall]. apply Forall_cons in Hnamed as [Hn Hnamed].
    destruct (known (analysis.name2label_of lines) bbox) eqn:Hk.
    + by rewrite label_row_zero by auto.
    + assert (analysis.label_row str_float (analysis.name2label_of lines) W H row bbox
              = Ok row) as ->.
      { apply label_row_Ok. left. done. }
      simpl. by apply IH.
Qed.

Lemma gen_label_zero_extent_witness :
  analysis.gen_label zero_host show_float "annos/image.xml" "pets.names" "labels"
  = Raise ZeroDivisionError.
Proof.
  apply (gen_label_zero_extent zero_host show_float "annos/image.xml" "pets.names"
           "labels" zero_anno ["cat" +:+ nl; "dog" +:+ nl] 0 1216).
  - vm_compute. reflexivity.
  - vm_compute. reflexivity.
  - vm_compute. reflexivity.
  - vm_compute. reflexivity.
  - left. reflexivity.
  - apply Exists_cons_hd. vm_compute. reflexivity.
  - repeat constructor. intros _.
    exists 904, 674, 926, 695. repeat split; vm_compute; reflexivity.
Defined.

Lemma last_tagged_None (k : string) (items : list element) :
  Forall (fun item => tag item ≠ k) items → last_tagged k items = None.
Proof.
  intros Hall. unfold last_tagged.
  destruct (List.find _ (rev items)) as [item|] eqn:Hfind; [|done].
  apply find_some in Hfind as [Hin Htag]. apply String.eqb_eq in Htag.
  rewrite Forall_forall in Hall. exfalso. apply (Hall item); [|done].
  apply list_elem_of_In. by apply in_rev.
Qed.

(** X11. An annotation whose size has no width, or no height, is parsed
    without complaint, and [gen_label] then raises [KeyError], with or
    without boxes. *)
Theorem gen_label_missing_dimension (host : world) (str_float : float → string)
    (path_anno path_names path_out : string) (tree size_el : element)
    (lines : list string) :
  xml_tree host path_anno = Ok tree →
  parsable tree →
  find "size" tree = Some size_el →
  text_lines host path_names = Ok lines →
  Forall (fun item => tag item ≠ "width") (children size_el)
  ∨ Forall (fun item => tag item ≠ "height") (children size_el) →
  is_ok (analysis.parse_anno host path_anno) = true
  ∧ analysis.gen_label host str_float path_anno path_names path_out = Raise KeyError.
Proof.
  intros Htree Hp Hsize Hl Hmissing.
  destruct (analysis_parse_anno_total _ _ _ Htree Hp) as [anno Ha].
  split; [by rewrite Ha|].
  pose proof Ha as (tree' & _ & size_el' & Htree' & _ & Hsize' & Hitems & _)
    %analysis_parse_anno_Ok.
  assert (tree' = tree) as -> by congruence.
  assert (size_el' = size_el) as -> by congruence.
  apply analysis_parse_items_Ok in Hitems as [Hconv Hlookup].
  assert (∀ k, Forall (fun item => tag item ≠ k) (children size_el) →
               getint (size anno) k = Raise KeyError) as Hkey.
  { intros k Hk. unfold getint, getitem.
    by rewrite Hlookup, (last_tagged_None _ _ Hk). }
  assert (getint (size anno) "width" = Raise KeyError
          ∨ ∃ W, getint (size anno) "width" = Ok W) as Hwidth.
  { destruct (last_tagged "width" (children size_el)) as [item|] eqn:Hw.
    - right. destruct (int_value_convertible _ _ _ Hconv Hw) as (W & _ & HW).
      exists W. apply getint_Ok. by rewrite Hlookup, Hw.
    - left. unfold getint, getitem. by rewrite Hlookup, Hw. }
  unfold analysis.gen_label, analysis.label_rows. rewrite Ha. simpl. rewrite Hl. simpl.
  destruct Hwidth as [->|[W HW]]; [done|].
  destruct Hmissing as [Hmiss|Hmiss].
  - by rewrite (Hkey _ Hmiss).
  - rewrite HW. simpl. by rewrite (Hkey _ Hmiss).
Qed.

Lemma gen_label_missing_dimension_witness :
  is_ok (analysis.parse_anno widthless_host "a.xml") = true
  ∧ analysis.gen_label widthless_host show_float "a.xml" "pets.names" "labels"
    = Raise KeyError.
Proof.
  apply (gen_label_missing_dimension widthless_host show_float "a.xml" "pets.names"
           "labels" no_width_doc
           (Element "size" None [leaf "height" "1216"; leaf "depth" "3"])
           ["cat" +:+ nl]).
  - vm_compute. reflexivity.
  - split; [by eexists|]. split.
    + eexists. split; [vm_compute; reflexivity|]. by repeat constructor.
    + repeat constructor; [by eexists|].
      eexists. split; [vm_compute; reflexivity|]. by repeat constructor.
  - vm_compute. reflexivity.
  - vm_compute. reflexivity.
  - left. repeat constructor; by vm_compute.
Defined.

Lemma txt_no_slash (stem : string) :
  slash ∉ chars stem → slash ∉ chars (stem +:+ ".txt").
Proof.
  intros Hs. rewrite chars_app. intros [?|Hin]%elem_of_app; [done|].
  vm_compute in Hin. set_solver.
Qed.

(** X12. A successful [gen_label] creates the output directory when it
    is not there, writes one file and does nothing else. The file lies
    directly in the output directory and is named after the stem of the
    annotation's base name, with [.txt]; for an annotation that is an
    entry of a folder, after the stem of the entry. *)
Theorem gen_label_output_file (host : world) (str_float : float → string)
    (path_anno path_names path_out : string) (effects : list fs_effect) :
  analysis.gen_label host str_float path_anno path_names path_out = Ok effects →
  ∃ leaf content,
    leaf = ((splitext (basename path_anno)).1 +:+ ".txt")
    ∧ (slash ∉ chars leaf)
    ∧ basename (path_join path_out leaf) = leaf
    ∧ effects = (if isdir host path_out then [] else [Mkdir path_out])
                ++ [WriteFile (path_join path_out leaf) content]
    ∧ (∀ folder name, path_anno = path_join folder name → slash ∉ chars name →
         leaf = (splitext name).1 +:+ ".txt").
Proof.
  intros (anno & lines & W & H & rows & _ & _ & _ & _ & _ & _ & _ & ->)%gen_label_Ok.
  exists ((splitext (basename path_anno)).1 +:+ ".txt"), (String.concat nl rows).
  assert (slash ∉ chars ((splitext (basename path_anno)).1 +:+ ".txt")) as Hleaf.
  { apply txt_no_slash, splitext_no_slash, basename_no_slash. }
  split; [done|]. split; [done|]. split; [by apply basename_path_join|].
  split; [done|]. intros folder name -> Hname. by rewrite basename_path_join.
Qed.

Lemma gen_label_output_file_witness :
  ∃ effects leaf content,
    analysis.gen_label mixed_host show_float "annos/image.xml" "pets.names" "labels"
    = Ok effects
    ∧ leaf = ((splitext (basename "annos/image.xml")).1 +:+ ".txt")
    ∧ effects = (if isdir mixed_host "labels" then [] else [Mkdir "labels"])
                ++ [WriteFile (path_join "labels" leaf) content].
Proof.
  assert (∃ effects,
            analysis.gen_label mixed_host show_float "annos/image.xml"
              "pets.names" "labels" = Ok effects) as [effects He].
  { vm_compute. eexists. reflexivity. }
  destruct (gen_label_output_file mixed_host show_float _ _ _ _ He)
    as (leaf & content & Hleaf & _ & _ & Heff & _).
  exists effects, leaf, content. split; [exact He|]. split; [exact Hleaf|exact Heff].
Defined.

(** ** The distribution: order, report and total *)

(** The entries of the dict [distribution] returns. *)
Lemma distribution_lookup (host : world) (path_anno_folder : string) (verbose : bool)
    (annos : list annotation) (d : gmap pyval Z) :
  analysis.parse_annos host path_anno_folder = Ok annos →
  analysis.distribution host path_anno_folder verbose = Ok d →
  ∀ k, d !! k
       = if decide (k = VStr "N")
         then Some (Z.of_nat (length (box_names annos))
                    + occurrences (VStr "N") (box_names annos))
         else if decide (occurrences k (box_names annos) = 0) then None
              else Some (occurrences k (box_names annos)).
Proof.
  intros Hannos Hd k. unfold analysis.distribution in Hd. rewrite Hannos in Hd.
  simpl in Hd. unfold analysis.count_objects in Hd.
  rewrite for_each_concat in Hd. fold (boxes annos) in Hd.
  pose proof (box_names_Forall2 _ (parse_annos_named _ _ _ Hannos)) as Hnames.
  fold (box_names annos) in Hnames.
  destruct (count_objects_loop _ _ {[VStr "N" := 0]} 0 Hnames)
    as (d' & Hd' & HN & Hk); [by rewrite lookup_singleton_eq|].
  rewrite Hd' in Hd. simpl in Hd.
  assert (d = d') as ->.
  { destruct verbose; simpl in Hd; [|congruence].
    destruct (analysis.report d'); simpl in Hd; congruence. }
  case_decide as HkN.
  - subst k. by rewrite HN.
  - rewrite (Hk k HkN), lookup_singleton_ne by done.
    case_decide; [done|]. by f_equal.
Qed.

Lemma occurrences_Permutation (k : pyval) (names names' : list pyval) :
  names ≡ₚ names' → occurrences k names = occurrences k names'.
Proof. intros Hp. unfold occurrences. by rewrite Hp. Qed.

Lemma map_result_Permutation {A B} (f : A → result B) (l l' : list A) (ys : list B) :
  l ≡ₚ l' → map_result f l = Ok ys →
  ∃ ys', map_result f l' = Ok ys' ∧ ys ≡ₚ ys'.
Proof.
  intros Hp. revert ys. induction Hp as [|x l l' _ IH|x y l|l l' l'' _ IH1 _ IH2];
    intros ys; simpl.
  - intros [= <-]. by exists [].
  - intros H. ok_inv H. subst ys. destruct (IH _ Ha0) as (ys' & -> & Hys').
    rewrite Ha. simpl. eexists. split; [done|]. by constructor.
  - intros H. ok_inv H. ok_inv Ha0. subst. rewrite Ha1, Ha. simpl. rewrite Ha2. simpl.
    eexists. split; [done|]. apply perm_swap.
  - intros H. destruct (IH1 _ H) as (ys' & H' & Hp1).
    destruct (IH2 _ H') as (ys'' & H'' & Hp2).
    exists ys''. split; [done|]. by etrans.
Qed.

Lemma box_names_Permutation (annos annos' : list annotation) :
  annos ≡ₚ annos' → box_names annos ≡ₚ box_names annos'.
Proof.
  intros Hp. unfold box_names, boxes.
  assert (concat (map object annos) ≡ₚ concat (map object annos')) as Hc.
  { induction Hp; simpl.
    - done.
    - by f_equiv.
    - rewrite !app_assoc. f_equiv. apply Permutation_app_comm.
    - by etrans. }
  induction Hc; simpl.
  - done.
  - destruct (x !! "name"); [by f_equiv|done].
  - destruct (x !! "name"), (y !! "name"); try done. apply perm_swap.
  - by etrans.
Qed.

(** X13. The dict [distribution] returns does not depend on the order in
    which the folder is listed. *)
Theorem distribution_order_independent (host host' : world) (path_anno_folder : string)
    (verbose : bool) (names names' : list string) (d : gmap pyval Z) :
  listdir host path_anno_folder = Ok names →
  listdir host' path_anno_folder = Ok names' →
  names ≡ₚ names' →
  (∀ p, xml_tree host' p = xml_tree host p) →
  analysis.distribution host path_anno_folder verbose = Ok d →
  analysis.distribution host' path_anno_folder verbose = Ok d.
Proof.
  intros Hdir Hdir' Hp Hxml Hd.
  assert (∀ p, analysis.parse_anno host' p = analysis.parse_anno host p) as Hparse.
  { intros p. unfold analysis.parse_anno. by rewrite Hxml. }
  destruct (analysis.parse_annos host path_anno_folder) as [annos|e] eqn:Hannos.
  2:{ unfold analysis.distribution in Hd. by rewrite Hannos in Hd. }
  assert (∃ annos', analysis.parse_annos host' path_anno_folder = Ok annos'
                    ∧ annos ≡ₚ annos') as (annos' & Hannos' & Hpa).
  { unfold analysis.parse_annos in *. rewrite Hdir in Hannos. rewrite Hdir'. simpl in *.
    apply (map_result_Permutation _ (map (path_join path_anno_folder) names)).
    - by rewrite Hp.
    - rewrite <- Hannos. clear -Hparse. induction (map _ names) as [|p l IH]; simpl; [done|].
      by rewrite Hparse, IH. }
  pose proof (distribution_lookup _ _ _ _ _ Hannos Hd) as Hlook.
  pose proof (box_names_Permutation _ _ Hpa) as Hnames.
  assert (∃ d', analysis.distribution host' path_anno_folder false = Ok d') as [d' Hd'].
  { unfold analysis.distribution. rewrite Hannos'. simpl.
    unfold analysis.count_objects. rewrite for_each_concat. fold (boxes annos').
    pose proof (box_names_Forall2 _ (parse_annos_named _ _ _ Hannos')) as HF.
    destruct (count_objects_loop _ _ {[VStr "N" := 0]} 0 HF)
      as (d' & -> & _); [by rewrite lookup_singleton_eq|]. simpl. eauto. }
  pose proof (distribution_lookup _ _ _ _ _ Hannos' Hd') as Hlook'.
  assert (d' = d) as ->.
  { apply map_eq. intros k. rewrite Hlook, Hlook'.
    by rewrite (Permutation_length Hnames), !(occurrences_Permutation _ _ _ Hnames). }
  unfold analysis.distribution in *. rewrite Hannos in Hd. rewrite Hannos' in *.
  simpl in *.
  destruct (analysis.count_objects annos' _) as [d1|]; simpl in *; [|done].
  assert (d1 = d) as -> by congruence.
  destruct (analysis.count_objects annos _) as [d2|]; simpl in *; [|done].
  destruct verbose; simpl in *; [|done].
  destruct (analysis.report d2) eqn:Hr; simpl in Hd; [|done].
  assert (d2 = d) as -> by congruence. by rewrite Hr.
Qed.

Lemma distribution_order_independent_witness :
  ∃ d, analysis.distribution pair_host "annos" false = Ok d
       ∧ analysis.distribution pair_host_rev "annos" false = Ok d.
Proof.
  assert (∃ d, analysis.distribution pair_host "annos" false = Ok d) as [d Hd].
  { vm_compute. eexists. reflexivity. }
  exists d. split; [exact Hd|].
  apply (distribution_order_independent pair_host pair_host_rev "annos" false
           ["1.xml"; "2.xml"] ["2.xml"; "1.xml"] d).
  - vm_compute. reflexivity.
  - vm_compute. reflexivity.
  - apply perm_swap.
  - intros p. reflexivity.
  - exact Hd.
Defined.

(** A quotient of at most 128 in magnitude does not overflow. *)
Lemma truediv_total_ratio (a b : Z) :
  b ≠ 0 → Z.abs a <= 128 * Z.abs b → ∃ f, truediv a b = Ok f.
Proof.
  intros Hb Ha. unfold truediv, float_of_frac.
  destruct (Z.eqb_spec b 0); [done|].
  destruct (round_mag (Z.abs a) (Z.abs b)) as [m e] eqn:Hme.
  apply round_mag_exp in Hme.
  assert (round_exp (Z.abs a) (Z.abs b) <= 7 - 52) as He.
  { apply round_exp_le; [|lia].
    pose proof (Z.log2_nonneg (Z.abs b)).
    destruct (decide (a = 0)) as [->|]; [simpl; lia|].
    pose proof (Z.log2_le_mono (Z.abs a) (128 * Z.abs b) Ha) as Hmono.
    replace (128 * Z.abs b) with (Z.abs b * 2 ^ 7) in Hmono by lia.
    rewrite Z.log2_mul_pow2 in Hmono by lia. lia. }
  destruct (Z.ltb_spec 971 e); [lia|]. eauto.
Qed.

(** X14. The report changes nothing in the result and fails in one case
    only: when the folder has no box at all, where the share of the total
    is a division by zero. *)
Theorem distribution_report (host : world) (path_anno_folder : string)
    (d : gmap pyval Z) :
  analysis.distribution host path_anno_folder false = Ok d →
  (d = {[ VStr "N" := 0 ]}
   ∧ analysis.distribution host path_anno_folder true = Raise ZeroDivisionError)
  ∨ (d ≠ {[ VStr "N" := 0 ]}
     ∧ analysis.distribution host path_anno_folder true = Ok d).
Proof.
  intros Hd.
  destruct (analysis.parse_annos host path_anno_folder) as [annos|e] eqn:Hannos.
  2:{ unfold analysis.distribution in Hd. by rewrite Hannos in Hd. }
  pose proof (distribution_lookup _ _ _ _ _ Hannos Hd) as Hlook.
  assert (analysis.count_objects annos {[VStr "N" := 0]} = Ok d) as Hcount.
  { unfold analysis.distribution in Hd. rewrite Hannos in Hd. simpl in Hd.
    destruct (analysis.count_objects annos _); simpl in Hd; congruence. }
  unfold analysis.distribution. rewrite Hannos. simpl. rewrite Hcount. simpl.
  set (names := box_names annos) in *.
  destruct names as [|name names'] eqn:Hnames.
  - left. assert (d = {[VStr "N" := 0]}) as ->.
    { apply map_eq. intros k. rewrite Hlook. case_decide as Hk.
      - subst k. by rewrite lookup_singleton_eq.
      - by rewrite lookup_singleton_ne. }
    split; [done|]. unfold analysis.report. by rewrite map_to_list_singleton.
  - right. set (n := Z.of_nat (length (name :: names'))
                     + occurrences (VStr "N") (name :: names')) in *.
    assert (0 < n) as Hn.
    { unfold n. pose proof (occurrences_nonneg (VStr "N") (name :: names')).
      simpl length. lia. }
    assert (d !! VStr "N" = Some n) as HN by by rewrite Hlook, decide_True.
    split.
    { intros ->. rewrite lookup_singleton_eq in HN. injection HN as HN. lia. }
    assert (analysis.report d = Ok ()) as ->; [|done].
    unfold analysis.report.
    assert (Forall (fun kc => 0 <= kc.2 <= n) (map_to_list d)) as Hentries.
    { apply Forall_forall. intros [k c] Hkc%elem_of_map_to_list. simpl.
      rewrite Hlook in Hkc. pose proof (occurrences_nonneg k (name :: names')).
      pose proof (occurrences_nonneg (VStr "N") (name :: names')).
      assert (occurrences k (name :: names') <= Z.of_nat (length (name :: names'))).
      { unfold occurrences. apply inj_le, length_filter. }
      repeat case_decide; simplify_eq; lia. }
    rewrite (for_each_total _ (fun _ _ => ())).
    { by destruct (fold_left _ _ _). }
    intros [] [k c] Hkc. rewrite Forall_forall in Hentries.
    destruct (Hentries _ Hkc) as [Hc0 Hc1]. simpl in Hc0, Hc1.
    unfold getitem. rewrite HN. simpl.
    by destruct (truediv_total_ratio (100 * c) n) as [f ->]; [lia..|].
Qed.

Lemma distribution_report_witness :
  ∃ d, analysis.distribution boxless_host "annos" false = Ok d
       ∧ ((d = {[ VStr "N" := 0 ]}
           ∧ analysis.distribution boxless_host "annos" true = Raise ZeroDivisionError)
          ∨ (d ≠ {[ VStr "N" := 0 ]}
             ∧ analysis.distribution boxless_host "annos" true = Ok d)).
Proof.
  assert (∃ d, analysis.distribution boxless_host "annos" false = Ok d) as [d Hd].
  { vm_compute. eexists. reflexivity. }
  exists d. split; [exact Hd|].
  exact (distribution_report boxless_host "annos" d Hd).
Defined.

Lemma sum_insert (m : gmap pyval Z) (i : pyval) (v : Z) :
  map_fold (fun _ c acc => c + acc) 0 (<[i := v]> m)
  = map_fold (fun _ c acc => c + acc) 0 m - default 0 (m !! i) + v.
Proof.
  rewrite (map_fold_delete_L _ _ i v (<[i := v]> m));
    [|intros; lia|by rewrite lookup_insert_eq].
  rewrite delete_insert_eq. destruct (m !! i) as [old|] eqn:Hi; simpl.
  - rewrite (map_fold_delete_L _ _ i old m); [lia|intros; lia|done].
  - rewrite (delete_id m i Hi). lia.
Qed.

Lemma class_total_count_object (d : gmap pyval Z) (name : pyval) (t : Z) :
  class_total (<[VStr "N" := t]> (<[name := default 0 (d !! name) + 1]> d))
  = class_total d + (if decide (name = VStr "N") then 0 else 1).
Proof.
  unfold class_total. rewrite delete_insert_eq. case_decide as Hn.
  - subst name. rewrite delete_insert_eq. lia.
  - rewrite delete_insert_ne by done. rewrite sum_insert.
    rewrite lookup_delete_ne by done. lia.
Qed.

(** The counting loop keeps the total equal to the sum of the class
    counts, but for two per box called N. *)
Lemma count_objects_total (objs : list (gmap string pyval)) (names : list pyval)
    (d d' : gmap pyval Z) (t : Z) :
  Forall2 (fun obj name => obj !! "name" = Some name) objs names →
  d !! VStr "N" = Some t →
  for_each analysis.count_object objs d = Ok d' →
  ∃ t', d' !! VStr "N" = Some t'
        ∧ t' - class_total d' = t - class_total d + 2 * occurrences (VStr "N") names.
Proof.
  intros Hobjs. revert d t.
  induction Hobjs as [|obj name objs names Hname _ IH]; intros d t Ht; simpl.
  - intros [= <-]. exists t. split; [done|]. unfold occurrences. simpl. lia.
  - rewrite (count_object_Ok _ _ _ _ Hname Ht). simpl. intros Hrest.
    destruct (IH _ _ ltac:(by rewrite lookup_insert_eq) Hrest) as (t' & Ht' & Heq).
    exists t'. split; [done|].
    rewrite class_total_count_object in Heq. rewrite occurrences_cons.
    case_decide; lia.
Qed.

(** X15. The total under the key N is the sum of the counts of the
    classes plus twice the number of boxes called N; when no box is called
    N it is the sum of the counts of the classes. *)
Theorem distribution_total_is_sum (host : world) (path_anno_folder : string)
    (verbose : bool) (annos : list annotation) (d : gmap pyval Z) :
  analysis.parse_annos host path_anno_folder = Ok annos →
  analysis.distribution host path_anno_folder verbose = Ok d →
  d !! VStr "N"
  = Some (class_total d + 2 * occurrences (VStr "N") (box_names annos))
  ∧ (VStr "N" ∉ box_names annos → d !! VStr "N" = Some (class_total d)).
Proof.
  intros Hannos Hd.
  assert (analysis.count_objects annos {[VStr "N" := 0]} = Ok d) as Hcount.
  { unfold analysis.distribution in Hd. rewrite Hannos in Hd. simpl in Hd.
    destruct (analysis.count_objects annos _) as [d'|]; simpl in Hd; [|done].
    destruct verbose; simpl in Hd; [|congruence].
    destruct (analysis.report d'); simpl in Hd; congruence. }
  unfold analysis.count_objects in Hcount. rewrite for_each_concat in Hcount.
  fold (boxes annos) in Hcount.
  pose proof (box_names_Forall2 _ (parse_annos_named _ _ _ Hannos)) as Hnames.
  fold (box_names annos) in Hnames.
  destruct (count_objects_total _ _ _ _ 0 Hnames
              ltac:(by rewrite lookup_singleton_eq) Hcount) as (t' & Ht' & Heq).
  assert (class_total {[VStr "N" := 0]} = 0) as H0.
  { unfold class_total. by rewrite delete_singleton_eq, map_fold_empty. }
  rewrite H0 in Heq.
  assert (d !! VStr "N"
          = Some (class_total d + 2 * occurrences (VStr "N") (box_names annos))) as HN.
  { rewrite Ht'. f_equal. lia. }
  split; [done|]. intros Hnot%occurrences_zero. rewrite HN, Hnot. f_equal. lia.
Qed.

Lemma distribution_total_is_sum_witness :
  ∃ d, analysis.distribution pair_host "annos" false = Ok d
       ∧ d !! VStr "N" = Some (class_total d).
Proof.
  assert (∃ annos, analysis.parse_annos pair_host "annos" = Ok annos
                   ∧ VStr "N" ∉ box_names annos) as (annos & Ha & Hnot).
  { eexists. split; [vm_compute; reflexivity|]. vm_compute. set_solver. }
  assert (∃ d, analysis.distribution pair_host "annos" false = Ok d) as [d Hd].
  { vm_compute. eexists. reflexivity. }
  exists d. split; [exact Hd|].
  exact (proj2 (distribution_total_is_sum pair_host "annos" false annos d Ha Hd) Hnot).
Defined.
